(** * neoplaylist: the hybrid playlist assembly engine

    A shallow embedding of the playlist-domain code of the repository
    ([playlist/services.py], [playlist/intent_analysis.py],
    [playlist/popularity_utils.py], [playlist/postprocessing_utils.py],
    [playlist/hybrid_tools.py], [playlist/utils.py], [playlist/filter_utils.py]
    and, of the monolithic [playlist_api_refinedV15enchanced.py], the country
    block of the filter parser and the relative popularity), followed by the properties of the
    specification stated and settled over it.

    Conventions.
    - Python [str] values are [string]s holding the UTF-8 encoding of the
      text; character classes, [lower], [strip], [len] and slicing are those
      of Python on Unicode code points.
    - Python [int]s are [Z]; a float of a JSON value is a [Q]; the scores
      stored in a track are held in ten-thousandths; the scoring functions,
      with their logarithm and square root, are studied over [R] in
      [PopularityUtils] and [Monolith].
    - A Mongo document of the [tracks] collection is a [Track] record whose
      fields are optional; JSON produced by the language model and Mongo query
      documents are [json] values.
    - A Python exception is the [Raise] outcome of the [result] monad.
    - The collaborators (catalog store, language-model endpoint, JSON parser,
      prompt templates, float scoring) are the fields of [Collaborators]. *)

From Stdlib Require Import ZArith QArith Qround List Ascii String Bool Lia Sorted Permutation.
From Stdlib Require Import Reals Lra.
From stdpp Require Import base option list strings gmap pretty.

Local Open Scope string_scope.
Local Open Scope Z_scope.

(** ** Python strings

    A [str] is a sequence of Unicode code points.  It is held here as its
    UTF-8 encoding, a [string] of bytes.  The methods that look at characters
    ([lower], [strip], [isdigit], [len], slicing, iteration, the classes of
    [re]) work on the code points; the ones that only compare texts ([in],
    [startswith], [replace], [split(" ")]) work on the bytes, where they give
    the same result.  The character tables are those of the Unicode Character
    Database 14.0, which CPython 3.11 carries. *)

Definition code (c : ascii) : N := N_of_ascii c.

(** equality of two bytes *)
Definition char_eqb (a b : ascii) : bool := (code a =? code b)%N.

(** a byte that belongs to no well-formed encoding reads as U+FFFD *)
Definition replacement : N := 65533%N.

(** the payload of a continuation byte *)
Definition trail (o : option ascii) : option N :=
  match o with
  | Some b => if ((128 <=? code b) && (code b <? 192))%N then Some (code b - 128)%N else None
  | None => None
  end.

(** the code point that starts with the byte [b] followed by [s], and the
    number of bytes of [s] that belong to it *)
Definition decode_head (b : ascii) (s : string) : N * nat :=
  let n := code b in
  (if n <? 128 then (n, 0%nat)
   else if n <? 194 then (replacement, 0%nat)
   else if n <? 224 then
     match trail (String.get 0 s) with
     | Some c1 => ((n - 192) * 64 + c1, 1%nat)
     | None => (replacement, 0%nat)
     end
   else if n <? 240 then
     match trail (String.get 0 s), trail (String.get 1 s) with
     | Some c1, Some c2 =>
         let c := (n - 224) * 4096 + c1 * 64 + c2 in
         if 2048 <=? c then (c, 2%nat) else (replacement, 0%nat)
     | _, _ => (replacement, 0%nat)
     end
   else if n <? 245 then
     match trail (String.get 0 s), trail (String.get 1 s), trail (String.get 2 s) with
     | Some c1, Some c2, Some c3 =>
         let c := (n - 240) * 262144 + c1 * 4096 + c2 * 64 + c3 in
         if (65536 <=? c) && (c <? 1114112) then (c, 3%nat) else (replacement, 0%nat)
     | _, _, _ => (replacement, 0%nat)
     end
   else (replacement, 0%nat))%N.

(** [skip] counts the bytes of the current character still to be passed *)
Fixpoint decode_loop (s : string) (skip : nat) : list N :=
  match s with
  | EmptyString => []
  | String b s' =>
      match skip with
      | S n => decode_loop s' n
      | O => let (c, n) := decode_head b s' in c :: decode_loop s' n
      end
  end.

(** the characters of a text *)
Definition code_points (s : string) : list N := decode_loop s 0.

Definition byte (n : N) : ascii := ascii_of_N n.

Definition utf8_char (c : N) : string :=
  (if c <? 128 then String (byte c) EmptyString
   else if c <? 2048 then
     String (byte (192 + c / 64)) (String (byte (128 + c mod 64)) EmptyString)
   else if c <? 65536 then
     String (byte (224 + c / 4096))
       (String (byte (128 + (c / 64) mod 64)) (String (byte (128 + c mod 64)) EmptyString))
   else if c <? 1114112 then
     String (byte (240 + c / 262144))
       (String (byte (128 + (c / 4096) mod 64))
          (String (byte (128 + (c / 64) mod 64)) (String (byte (128 + c mod 64)) EmptyString)))
   else String (byte 239) (String (byte 191) (String (byte 189) EmptyString)))%N.

(** the text made of the given characters *)
Fixpoint utf8 (l : list N) : string :=
  match l with
  | [] => EmptyString
  | c :: l' => utf8_char c ++ utf8 l'
  end.

(** *** The character tables *)

(** [(first, last, step, image of first)]: the characters [first], [first + step], ... up to
    [last] have the lower-case mappings [image], [image + step], ... *)
Definition lower_rows : list (N * N * N * N) :=
  [
    (65, 90, 1, 97); (192, 214, 1, 224); (216, 222, 1, 248); (256, 302, 2, 257); (304, 304,
    1, 105); (306, 310, 2, 307); (313, 327, 2, 314); (330, 374, 2, 331); (376, 376, 1, 255);
    (377, 381, 2, 378); (385, 385, 1, 595); (386, 388, 2, 387); (390, 390, 1, 596); (391,
    391, 1, 392); (393, 394, 1, 598); (395, 395, 1, 396); (398, 398, 1, 477); (399, 399, 1,
    601); (400, 400, 1, 603); (401, 401, 1, 402); (403, 403, 1, 608); (404, 404, 1, 611);
    (406, 406, 1, 617); (407, 407, 1, 616); (408, 408, 1, 409); (412, 412, 1, 623); (413,
    413, 1, 626); (415, 415, 1, 629); (416, 420, 2, 417); (422, 422, 1, 640); (423, 423, 1,
    424); (425, 425, 1, 643); (428, 428, 1, 429); (430, 430, 1, 648); (431, 431, 1, 432);
    (433, 434, 1, 650); (435, 437, 2, 436); (439, 439, 1, 658); (440, 440, 1, 441); (444,
    444, 1, 445); (452, 452, 1, 454); (453, 453, 1, 454); (455, 455, 1, 457); (456, 456, 1,
    457); (458, 458, 1, 460); (459, 475, 2, 460); (478, 494, 2, 479); (497, 497, 1, 499);
    (498, 500, 2, 499); (502, 502, 1, 405); (503, 503, 1, 447); (504, 542, 2, 505); (544,
    544, 1, 414); (546, 562, 2, 547); (570, 570, 1, 11365); (571, 571, 1, 572); (573, 573,
    1, 410); (574, 574, 1, 11366); (577, 577, 1, 578); (579, 579, 1, 384); (580, 580, 1,
    649); (581, 581, 1, 652); (582, 590, 2, 583); (880, 882, 2, 881); (886, 886, 1, 887);
    (895, 895, 1, 1011); (902, 902, 1, 940); (904, 906, 1, 941); (908, 908, 1, 972); (910,
    911, 1, 973); (913, 929, 1, 945); (931, 939, 1, 963); (975, 975, 1, 983); (984, 1006, 2,
    985); (1012, 1012, 1, 952); (1015, 1015, 1, 1016); (1017, 1017, 1, 1010); (1018, 1018,
    1, 1019); (1021, 1023, 1, 891); (1024, 1039, 1, 1104); (1040, 1071, 1, 1072); (1120,
    1152, 2, 1121); (1162, 1214, 2, 1163); (1216, 1216, 1, 1231); (1217, 1229, 2, 1218);
    (1232, 1326, 2, 1233); (1329, 1366, 1, 1377); (4256, 4293, 1, 11520); (4295, 4295, 1,
    11559); (4301, 4301, 1, 11565); (5024, 5103, 1, 43888); (5104, 5109, 1, 5112); (7312,
    7354, 1, 4304); (7357, 7359, 1, 4349); (7680, 7828, 2, 7681); (7838, 7838, 1, 223);
    (7840, 7934, 2, 7841); (7944, 7951, 1, 7936); (7960, 7965, 1, 7952); (7976, 7983, 1,
    7968); (7992, 7999, 1, 7984); (8008, 8013, 1, 8000); (8025, 8031, 2, 8017); (8040, 8047,
    1, 8032); (8072, 8079, 1, 8064); (8088, 8095, 1, 8080); (8104, 8111, 1, 8096); (8120,
    8121, 1, 8112); (8122, 8123, 1, 8048); (8124, 8124, 1, 8115); (8136, 8139, 1, 8050);
    (8140, 8140, 1, 8131); (8152, 8153, 1, 8144); (8154, 8155, 1, 8054); (8168, 8169, 1,
    8160); (8170, 8171, 1, 8058); (8172, 8172, 1, 8165); (8184, 8185, 1, 8056); (8186, 8187,
    1, 8060); (8188, 8188, 1, 8179); (8486, 8486, 1, 969); (8490, 8490, 1, 107); (8491,
    8491, 1, 229); (8498, 8498, 1, 8526); (8544, 8559, 1, 8560); (8579, 8579, 1, 8580);
    (9398, 9423, 1, 9424); (11264, 11311, 1, 11312); (11360, 11360, 1, 11361); (11362,
    11362, 1, 619); (11363, 11363, 1, 7549); (11364, 11364, 1, 637); (11367, 11371, 2,
    11368); (11373, 11373, 1, 593); (11374, 11374, 1, 625); (11375, 11375, 1, 592); (11376,
    11376, 1, 594); (11378, 11378, 1, 11379); (11381, 11381, 1, 11382); (11390, 11391, 1,
    575); (11392, 11490, 2, 11393); (11499, 11501, 2, 11500); (11506, 11506, 1, 11507);
    (42560, 42604, 2, 42561); (42624, 42650, 2, 42625); (42786, 42798, 2, 42787); (42802,
    42862, 2, 42803); (42873, 42875, 2, 42874); (42877, 42877, 1, 7545); (42878, 42886, 2,
    42879); (42891, 42891, 1, 42892); (42893, 42893, 1, 613); (42896, 42898, 2, 42897);
    (42902, 42920, 2, 42903); (42922, 42922, 1, 614); (42923, 42923, 1, 604); (42924, 42924,
    1, 609); (42925, 42925, 1, 620); (42926, 42926, 1, 618); (42928, 42928, 1, 670); (42929,
    42929, 1, 647); (42930, 42930, 1, 669); (42931, 42931, 1, 43859); (42932, 42946, 2,
    42933); (42948, 42948, 1, 42900); (42949, 42949, 1, 642); (42950, 42950, 1, 7566);
    (42951, 42953, 2, 42952); (42960, 42960, 1, 42961); (42966, 42968, 2, 42967); (42997,
    42997, 1, 42998); (65313, 65338, 1, 65345); (66560, 66599, 1, 66600); (66736, 66771, 1,
    66776); (66928, 66964, 2, 66967); (66929, 66938, 1, 66968); (66941, 66954, 1, 66980);
    (66957, 66962, 1, 66996); (66965, 66965, 1, 67004); (68736, 68786, 1, 68800); (71840,
    71871, 1, 71872); (93760, 93791, 1, 93792); (125184, 125217, 1, 125218) ]%N.

(** the characters for which [str.isalnum] holds *)
Definition alnum_ranges : list (N * N) :=
  [
    (48, 57); (65, 90); (97, 122); (170, 170); (178, 179); (181, 181); (185, 186); (188,
    190); (192, 214); (216, 246); (248, 705); (710, 721); (736, 740); (748, 748); (750,
    750); (880, 884); (886, 887); (890, 893); (895, 895); (902, 902); (904, 906); (908,
    908); (910, 929); (931, 1013); (1015, 1153); (1162, 1327); (1329, 1366); (1369, 1369);
    (1376, 1416); (1488, 1514); (1519, 1522); (1568, 1610); (1632, 1641); (1646, 1647);
    (1649, 1747); (1749, 1749); (1765, 1766); (1774, 1788); (1791, 1791); (1808, 1808);
    (1810, 1839); (1869, 1957); (1969, 1969); (1984, 2026); (2036, 2037); (2042, 2042);
    (2048, 2069); (2074, 2074); (2084, 2084); (2088, 2088); (2112, 2136); (2144, 2154);
    (2160, 2183); (2185, 2190); (2208, 2249); (2308, 2361); (2365, 2365); (2384, 2384);
    (2392, 2401); (2406, 2415); (2417, 2432); (2437, 2444); (2447, 2448); (2451, 2472);
    (2474, 2480); (2482, 2482); (2486, 2489); (2493, 2493); (2510, 2510); (2524, 2525);
    (2527, 2529); (2534, 2545); (2548, 2553); (2556, 2556); (2565, 2570); (2575, 2576);
    (2579, 2600); (2602, 2608); (2610, 2611); (2613, 2614); (2616, 2617); (2649, 2652);
    (2654, 2654); (2662, 2671); (2674, 2676); (2693, 2701); (2703, 2705); (2707, 2728);
    (2730, 2736); (2738, 2739); (2741, 2745); (2749, 2749); (2768, 2768); (2784, 2785);
    (2790, 2799); (2809, 2809); (2821, 2828); (2831, 2832); (2835, 2856); (2858, 2864);
    (2866, 2867); (2869, 2873); (2877, 2877); (2908, 2909); (2911, 2913); (2918, 2927);
    (2929, 2935); (2947, 2947); (2949, 2954); (2958, 2960); (2962, 2965); (2969, 2970);
    (2972, 2972); (2974, 2975); (2979, 2980); (2984, 2986); (2990, 3001); (3024, 3024);
    (3046, 3058); (3077, 3084); (3086, 3088); (3090, 3112); (3114, 3129); (3133, 3133);
    (3160, 3162); (3165, 3165); (3168, 3169); (3174, 3183); (3192, 3198); (3200, 3200);
    (3205, 3212); (3214, 3216); (3218, 3240); (3242, 3251); (3253, 3257); (3261, 3261);
    (3293, 3294); (3296, 3297); (3302, 3311); (3313, 3314); (3332, 3340); (3342, 3344);
    (3346, 3386); (3389, 3389); (3406, 3406); (3412, 3414); (3416, 3425); (3430, 3448);
    (3450, 3455); (3461, 3478); (3482, 3505); (3507, 3515); (3517, 3517); (3520, 3526);
    (3558, 3567); (3585, 3632); (3634, 3635); (3648, 3654); (3664, 3673); (3713, 3714);
    (3716, 3716); (3718, 3722); (3724, 3747); (3749, 3749); (3751, 3760); (3762, 3763);
    (3773, 3773); (3776, 3780); (3782, 3782); (3792, 3801); (3804, 3807); (3840, 3840);
    (3872, 3891); (3904, 3911); (3913, 3948); (3976, 3980); (4096, 4138); (4159, 4169);
    (4176, 4181); (4186, 4189); (4193, 4193); (4197, 4198); (4206, 4208); (4213, 4225);
    (4238, 4238); (4240, 4249); (4256, 4293); (4295, 4295); (4301, 4301); (4304, 4346);
    (4348, 4680); (4682, 4685); (4688, 4694); (4696, 4696); (4698, 4701); (4704, 4744);
    (4746, 4749); (4752, 4784); (4786, 4789); (4792, 4798); (4800, 4800); (4802, 4805);
    (4808, 4822); (4824, 4880); (4882, 4885); (4888, 4954); (4969, 4988); (4992, 5007);
    (5024, 5109); (5112, 5117); (5121, 5740); (5743, 5759); (5761, 5786); (5792, 5866);
    (5870, 5880); (5888, 5905); (5919, 5937); (5952, 5969); (5984, 5996); (5998, 6000);
    (6016, 6067); (6103, 6103); (6108, 6108); (6112, 6121); (6128, 6137); (6160, 6169);
    (6176, 6264); (6272, 6276); (6279, 6312); (6314, 6314); (6320, 6389); (6400, 6430);
    (6470, 6509); (6512, 6516); (6528, 6571); (6576, 6601); (6608, 6618); (6656, 6678);
    (6688, 6740); (6784, 6793); (6800, 6809); (6823, 6823); (6917, 6963); (6981, 6988);
    (6992, 7001); (7043, 7072); (7086, 7141); (7168, 7203); (7232, 7241); (7245, 7293);
    (7296, 7304); (7312, 7354); (7357, 7359); (7401, 7404); (7406, 7411); (7413, 7414);
    (7418, 7418); (7424, 7615); (7680, 7957); (7960, 7965); (7968, 8005); (8008, 8013);
    (8016, 8023); (8025, 8025); (8027, 8027); (8029, 8029); (8031, 8061); (8064, 8116);
    (8118, 8124); (8126, 8126); (8130, 8132); (8134, 8140); (8144, 8147); (8150, 8155);
    (8160, 8172); (8178, 8180); (8182, 8188); (8304, 8305); (8308, 8313); (8319, 8329);
    (8336, 8348); (8450, 8450); (8455, 8455); (8458, 8467); (8469, 8469); (8473, 8477);
    (8484, 8484); (8486, 8486); (8488, 8488); (8490, 8493); (8495, 8505); (8508, 8511);
    (8517, 8521); (8526, 8526); (8528, 8585); (9312, 9371); (9450, 9471); (10102, 10131);
    (11264, 11492); (11499, 11502); (11506, 11507); (11517, 11517); (11520, 11557); (11559,
    11559); (11565, 11565); (11568, 11623); (11631, 11631); (11648, 11670); (11680, 11686);
    (11688, 11694); (11696, 11702); (11704, 11710); (11712, 11718); (11720, 11726); (11728,
    11734); (11736, 11742); (11823, 11823); (12293, 12295); (12321, 12329); (12337, 12341);
    (12344, 12348); (12353, 12438); (12445, 12447); (12449, 12538); (12540, 12543); (12549,
    12591); (12593, 12686); (12690, 12693); (12704, 12735); (12784, 12799); (12832, 12841);
    (12872, 12879); (12881, 12895); (12928, 12937); (12977, 12991); (13312, 19903); (19968,
    42124); (42192, 42237); (42240, 42508); (42512, 42539); (42560, 42606); (42623, 42653);
    (42656, 42735); (42775, 42783); (42786, 42888); (42891, 42954); (42960, 42961); (42963,
    42963); (42965, 42969); (42994, 43009); (43011, 43013); (43015, 43018); (43020, 43042);
    (43056, 43061); (43072, 43123); (43138, 43187); (43216, 43225); (43250, 43255); (43259,
    43259); (43261, 43262); (43264, 43301); (43312, 43334); (43360, 43388); (43396, 43442);
    (43471, 43481); (43488, 43492); (43494, 43518); (43520, 43560); (43584, 43586); (43588,
    43595); (43600, 43609); (43616, 43638); (43642, 43642); (43646, 43695); (43697, 43697);
    (43701, 43702); (43705, 43709); (43712, 43712); (43714, 43714); (43739, 43741); (43744,
    43754); (43762, 43764); (43777, 43782); (43785, 43790); (43793, 43798); (43808, 43814);
    (43816, 43822); (43824, 43866); (43868, 43881); (43888, 44002); (44016, 44025); (44032,
    55203); (55216, 55238); (55243, 55291); (63744, 64109); (64112, 64217); (64256, 64262);
    (64275, 64279); (64285, 64285); (64287, 64296); (64298, 64310); (64312, 64316); (64318,
    64318); (64320, 64321); (64323, 64324); (64326, 64433); (64467, 64829); (64848, 64911);
    (64914, 64967); (65008, 65019); (65136, 65140); (65142, 65276); (65296, 65305); (65313,
    65338); (65345, 65370); (65382, 65470); (65474, 65479); (65482, 65487); (65490, 65495);
    (65498, 65500); (65536, 65547); (65549, 65574); (65576, 65594); (65596, 65597); (65599,
    65613); (65616, 65629); (65664, 65786); (65799, 65843); (65856, 65912); (65930, 65931);
    (66176, 66204); (66208, 66256); (66273, 66299); (66304, 66339); (66349, 66378); (66384,
    66421); (66432, 66461); (66464, 66499); (66504, 66511); (66513, 66517); (66560, 66717);
    (66720, 66729); (66736, 66771); (66776, 66811); (66816, 66855); (66864, 66915); (66928,
    66938); (66940, 66954); (66956, 66962); (66964, 66965); (66967, 66977); (66979, 66993);
    (66995, 67001); (67003, 67004); (67072, 67382); (67392, 67413); (67424, 67431); (67456,
    67461); (67463, 67504); (67506, 67514); (67584, 67589); (67592, 67592); (67594, 67637);
    (67639, 67640); (67644, 67644); (67647, 67669); (67672, 67702); (67705, 67742); (67751,
    67759); (67808, 67826); (67828, 67829); (67835, 67867); (67872, 67897); (67968, 68023);
    (68028, 68047); (68050, 68096); (68112, 68115); (68117, 68119); (68121, 68149); (68160,
    68168); (68192, 68222); (68224, 68255); (68288, 68295); (68297, 68324); (68331, 68335);
    (68352, 68405); (68416, 68437); (68440, 68466); (68472, 68497); (68521, 68527); (68608,
    68680); (68736, 68786); (68800, 68850); (68858, 68899); (68912, 68921); (69216, 69246);
    (69248, 69289); (69296, 69297); (69376, 69415); (69424, 69445); (69457, 69460); (69488,
    69505); (69552, 69579); (69600, 69622); (69635, 69687); (69714, 69743); (69745, 69746);
    (69749, 69749); (69763, 69807); (69840, 69864); (69872, 69881); (69891, 69926); (69942,
    69951); (69956, 69956); (69959, 69959); (69968, 70002); (70006, 70006); (70019, 70066);
    (70081, 70084); (70096, 70106); (70108, 70108); (70113, 70132); (70144, 70161); (70163,
    70187); (70272, 70278); (70280, 70280); (70282, 70285); (70287, 70301); (70303, 70312);
    (70320, 70366); (70384, 70393); (70405, 70412); (70415, 70416); (70419, 70440); (70442,
    70448); (70450, 70451); (70453, 70457); (70461, 70461); (70480, 70480); (70493, 70497);
    (70656, 70708); (70727, 70730); (70736, 70745); (70751, 70753); (70784, 70831); (70852,
    70853); (70855, 70855); (70864, 70873); (71040, 71086); (71128, 71131); (71168, 71215);
    (71236, 71236); (71248, 71257); (71296, 71338); (71352, 71352); (71360, 71369); (71424,
    71450); (71472, 71483); (71488, 71494); (71680, 71723); (71840, 71922); (71935, 71942);
    (71945, 71945); (71948, 71955); (71957, 71958); (71960, 71983); (71999, 71999); (72001,
    72001); (72016, 72025); (72096, 72103); (72106, 72144); (72161, 72161); (72163, 72163);
    (72192, 72192); (72203, 72242); (72250, 72250); (72272, 72272); (72284, 72329); (72349,
    72349); (72368, 72440); (72704, 72712); (72714, 72750); (72768, 72768); (72784, 72812);
    (72818, 72847); (72960, 72966); (72968, 72969); (72971, 73008); (73030, 73030); (73040,
    73049); (73056, 73061); (73063, 73064); (73066, 73097); (73112, 73112); (73120, 73129);
    (73440, 73458); (73648, 73648); (73664, 73684); (73728, 74649); (74752, 74862); (74880,
    75075); (77712, 77808); (77824, 78894); (82944, 83526); (92160, 92728); (92736, 92766);
    (92768, 92777); (92784, 92862); (92864, 92873); (92880, 92909); (92928, 92975); (92992,
    92995); (93008, 93017); (93019, 93025); (93027, 93047); (93053, 93071); (93760, 93846);
    (93952, 94026); (94032, 94032); (94099, 94111); (94176, 94177); (94179, 94179); (94208,
    100343); (100352, 101589); (101632, 101640); (110576, 110579); (110581, 110587);
    (110589, 110590); (110592, 110882); (110928, 110930); (110948, 110951); (110960,
    111355); (113664, 113770); (113776, 113788); (113792, 113800); (113808, 113817);
    (119520, 119539); (119648, 119672); (119808, 119892); (119894, 119964); (119966,
    119967); (119970, 119970); (119973, 119974); (119977, 119980); (119982, 119993);
    (119995, 119995); (119997, 120003); (120005, 120069); (120071, 120074); (120077,
    120084); (120086, 120092); (120094, 120121); (120123, 120126); (120128, 120132);
    (120134, 120134); (120138, 120144); (120146, 120485); (120488, 120512); (120514,
    120538); (120540, 120570); (120572, 120596); (120598, 120628); (120630, 120654);
    (120656, 120686); (120688, 120712); (120714, 120744); (120746, 120770); (120772,
    120779); (120782, 120831); (122624, 122654); (123136, 123180); (123191, 123197);
    (123200, 123209); (123214, 123214); (123536, 123565); (123584, 123627); (123632,
    123641); (124896, 124902); (124904, 124907); (124909, 124910); (124912, 124926);
    (124928, 125124); (125127, 125135); (125184, 125251); (125259, 125259); (125264,
    125273); (126065, 126123); (126125, 126127); (126129, 126132); (126209, 126253);
    (126255, 126269); (126464, 126467); (126469, 126495); (126497, 126498); (126500,
    126500); (126503, 126503); (126505, 126514); (126516, 126519); (126521, 126521);
    (126523, 126523); (126530, 126530); (126535, 126535); (126537, 126537); (126539,
    126539); (126541, 126543); (126545, 126546); (126548, 126548); (126551, 126551);
    (126553, 126553); (126555, 126555); (126557, 126557); (126559, 126559); (126561,
    126562); (126564, 126564); (126567, 126570); (126572, 126578); (126580, 126583);
    (126585, 126588); (126590, 126590); (126592, 126601); (126603, 126619); (126625,
    126627); (126629, 126633); (126635, 126651); (127232, 127244); (130032, 130041);
    (131072, 173791); (173824, 177976); (177984, 178205); (178208, 183969); (183984,
    191456); (194560, 195101); (196608, 201546) ]%N.

(** the characters for which [str.isspace] holds *)
Definition space_ranges : list (N * N) :=
  [
    (9, 13); (28, 32); (133, 133); (160, 160); (5760, 5760); (8192, 8202); (8232, 8233);
    (8239, 8239); (8287, 8287); (12288, 12288) ]%N.

(** the decimal digits (category Nd); each range is made of runs of the ten
    digits 0 to 9 *)
Definition decimal_ranges : list (N * N) :=
  [
    (48, 57); (1632, 1641); (1776, 1785); (1984, 1993); (2406, 2415); (2534, 2543); (2662,
    2671); (2790, 2799); (2918, 2927); (3046, 3055); (3174, 3183); (3302, 3311); (3430,
    3439); (3558, 3567); (3664, 3673); (3792, 3801); (3872, 3881); (4160, 4169); (4240,
    4249); (6112, 6121); (6160, 6169); (6470, 6479); (6608, 6617); (6784, 6793); (6800,
    6809); (6992, 7001); (7088, 7097); (7232, 7241); (7248, 7257); (42528, 42537); (43216,
    43225); (43264, 43273); (43472, 43481); (43504, 43513); (43600, 43609); (44016, 44025);
    (65296, 65305); (66720, 66729); (68912, 68921); (69734, 69743); (69872, 69881); (69942,
    69951); (70096, 70105); (70384, 70393); (70736, 70745); (70864, 70873); (71248, 71257);
    (71360, 71369); (71472, 71481); (71904, 71913); (72016, 72025); (72784, 72793); (73040,
    73049); (73120, 73129); (92768, 92777); (92864, 92873); (93008, 93017); (120782,
    120831); (123200, 123209); (123632, 123641); (125264, 125273); (130032, 130041) ]%N.

(** the characters for which [str.isdigit] holds *)
Definition digit_ranges : list (N * N) :=
  [
    (48, 57); (178, 179); (185, 185); (1632, 1641); (1776, 1785); (1984, 1993); (2406,
    2415); (2534, 2543); (2662, 2671); (2790, 2799); (2918, 2927); (3046, 3055); (3174,
    3183); (3302, 3311); (3430, 3439); (3558, 3567); (3664, 3673); (3792, 3801); (3872,
    3881); (4160, 4169); (4240, 4249); (4969, 4977); (6112, 6121); (6160, 6169); (6470,
    6479); (6608, 6618); (6784, 6793); (6800, 6809); (6992, 7001); (7088, 7097); (7232,
    7241); (7248, 7257); (8304, 8304); (8308, 8313); (8320, 8329); (9312, 9320); (9332,
    9340); (9352, 9360); (9450, 9450); (9461, 9469); (9471, 9471); (10102, 10110); (10112,
    10120); (10122, 10130); (42528, 42537); (43216, 43225); (43264, 43273); (43472, 43481);
    (43504, 43513); (43600, 43609); (44016, 44025); (65296, 65305); (66720, 66729); (68160,
    68163); (68912, 68921); (69216, 69224); (69714, 69722); (69734, 69743); (69872, 69881);
    (69942, 69951); (70096, 70105); (70384, 70393); (70736, 70745); (70864, 70873); (71248,
    71257); (71360, 71369); (71472, 71481); (71904, 71913); (72016, 72025); (72784, 72793);
    (73040, 73049); (73120, 73129); (92768, 92777); (92864, 92873); (93008, 93017); (120782,
    120831); (123200, 123209); (123632, 123641); (125264, 125273); (127232, 127242);
    (130032, 130041) ]%N.

(** the case-ignorable characters *)
Definition case_ignorable_ranges : list (N * N) :=
  [
    (39, 39); (46, 46); (58, 58); (94, 94); (96, 96); (168, 168); (173, 173); (175, 175);
    (180, 180); (183, 184); (688, 879); (884, 885); (890, 890); (900, 901); (903, 903);
    (1155, 1161); (1369, 1369); (1375, 1375); (1425, 1469); (1471, 1471); (1473, 1474);
    (1476, 1477); (1479, 1479); (1524, 1524); (1536, 1541); (1552, 1562); (1564, 1564);
    (1600, 1600); (1611, 1631); (1648, 1648); (1750, 1757); (1759, 1768); (1770, 1773);
    (1807, 1807); (1809, 1809); (1840, 1866); (1958, 1968); (2027, 2037); (2042, 2042);
    (2045, 2045); (2070, 2093); (2137, 2139); (2184, 2184); (2192, 2193); (2200, 2207);
    (2249, 2306); (2362, 2362); (2364, 2364); (2369, 2376); (2381, 2381); (2385, 2391);
    (2402, 2403); (2417, 2417); (2433, 2433); (2492, 2492); (2497, 2500); (2509, 2509);
    (2530, 2531); (2558, 2558); (2561, 2562); (2620, 2620); (2625, 2626); (2631, 2632);
    (2635, 2637); (2641, 2641); (2672, 2673); (2677, 2677); (2689, 2690); (2748, 2748);
    (2753, 2757); (2759, 2760); (2765, 2765); (2786, 2787); (2810, 2815); (2817, 2817);
    (2876, 2876); (2879, 2879); (2881, 2884); (2893, 2893); (2901, 2902); (2914, 2915);
    (2946, 2946); (3008, 3008); (3021, 3021); (3072, 3072); (3076, 3076); (3132, 3132);
    (3134, 3136); (3142, 3144); (3146, 3149); (3157, 3158); (3170, 3171); (3201, 3201);
    (3260, 3260); (3263, 3263); (3270, 3270); (3276, 3277); (3298, 3299); (3328, 3329);
    (3387, 3388); (3393, 3396); (3405, 3405); (3426, 3427); (3457, 3457); (3530, 3530);
    (3538, 3540); (3542, 3542); (3633, 3633); (3636, 3642); (3654, 3662); (3761, 3761);
    (3764, 3772); (3782, 3782); (3784, 3789); (3864, 3865); (3893, 3893); (3895, 3895);
    (3897, 3897); (3953, 3966); (3968, 3972); (3974, 3975); (3981, 3991); (3993, 4028);
    (4038, 4038); (4141, 4144); (4146, 4151); (4153, 4154); (4157, 4158); (4184, 4185);
    (4190, 4192); (4209, 4212); (4226, 4226); (4229, 4230); (4237, 4237); (4253, 4253);
    (4348, 4348); (4957, 4959); (5906, 5908); (5938, 5939); (5970, 5971); (6002, 6003);
    (6068, 6069); (6071, 6077); (6086, 6086); (6089, 6099); (6103, 6103); (6109, 6109);
    (6155, 6159); (6211, 6211); (6277, 6278); (6313, 6313); (6432, 6434); (6439, 6440);
    (6450, 6450); (6457, 6459); (6679, 6680); (6683, 6683); (6742, 6742); (6744, 6750);
    (6752, 6752); (6754, 6754); (6757, 6764); (6771, 6780); (6783, 6783); (6823, 6823);
    (6832, 6862); (6912, 6915); (6964, 6964); (6966, 6970); (6972, 6972); (6978, 6978);
    (7019, 7027); (7040, 7041); (7074, 7077); (7080, 7081); (7083, 7085); (7142, 7142);
    (7144, 7145); (7149, 7149); (7151, 7153); (7212, 7219); (7222, 7223); (7288, 7293);
    (7376, 7378); (7380, 7392); (7394, 7400); (7405, 7405); (7412, 7412); (7416, 7417);
    (7468, 7530); (7544, 7544); (7579, 7679); (8125, 8125); (8127, 8129); (8141, 8143);
    (8157, 8159); (8173, 8175); (8189, 8190); (8203, 8207); (8216, 8217); (8228, 8228);
    (8231, 8231); (8234, 8238); (8288, 8292); (8294, 8303); (8305, 8305); (8319, 8319);
    (8336, 8348); (8400, 8432); (11388, 11389); (11503, 11505); (11631, 11631); (11647,
    11647); (11744, 11775); (11823, 11823); (12293, 12293); (12330, 12333); (12337, 12341);
    (12347, 12347); (12441, 12446); (12540, 12542); (40981, 40981); (42232, 42237); (42508,
    42508); (42607, 42610); (42612, 42621); (42623, 42623); (42652, 42655); (42736, 42737);
    (42752, 42785); (42864, 42864); (42888, 42890); (42994, 42996); (43000, 43001); (43010,
    43010); (43014, 43014); (43019, 43019); (43045, 43046); (43052, 43052); (43204, 43205);
    (43232, 43249); (43263, 43263); (43302, 43309); (43335, 43345); (43392, 43394); (43443,
    43443); (43446, 43449); (43452, 43453); (43471, 43471); (43493, 43494); (43561, 43566);
    (43569, 43570); (43573, 43574); (43587, 43587); (43596, 43596); (43632, 43632); (43644,
    43644); (43696, 43696); (43698, 43700); (43703, 43704); (43710, 43711); (43713, 43713);
    (43741, 43741); (43756, 43757); (43763, 43764); (43766, 43766); (43867, 43871); (43881,
    43883); (44005, 44005); (44008, 44008); (44013, 44013); (64286, 64286); (64434, 64450);
    (65024, 65039); (65043, 65043); (65056, 65071); (65106, 65106); (65109, 65109); (65279,
    65279); (65287, 65287); (65294, 65294); (65306, 65306); (65342, 65342); (65344, 65344);
    (65392, 65392); (65438, 65439); (65507, 65507); (65529, 65531); (66045, 66045); (66272,
    66272); (66422, 66426); (67456, 67461); (67463, 67504); (67506, 67514); (68097, 68099);
    (68101, 68102); (68108, 68111); (68152, 68154); (68159, 68159); (68325, 68326); (68900,
    68903); (69291, 69292); (69446, 69456); (69506, 69509); (69633, 69633); (69688, 69702);
    (69744, 69744); (69747, 69748); (69759, 69761); (69811, 69814); (69817, 69818); (69821,
    69821); (69826, 69826); (69837, 69837); (69888, 69890); (69927, 69931); (69933, 69940);
    (70003, 70003); (70016, 70017); (70070, 70078); (70089, 70092); (70095, 70095); (70191,
    70193); (70196, 70196); (70198, 70199); (70206, 70206); (70367, 70367); (70371, 70378);
    (70400, 70401); (70459, 70460); (70464, 70464); (70502, 70508); (70512, 70516); (70712,
    70719); (70722, 70724); (70726, 70726); (70750, 70750); (70835, 70840); (70842, 70842);
    (70847, 70848); (70850, 70851); (71090, 71093); (71100, 71101); (71103, 71104); (71132,
    71133); (71219, 71226); (71229, 71229); (71231, 71232); (71339, 71339); (71341, 71341);
    (71344, 71349); (71351, 71351); (71453, 71455); (71458, 71461); (71463, 71467); (71727,
    71735); (71737, 71738); (71995, 71996); (71998, 71998); (72003, 72003); (72148, 72151);
    (72154, 72155); (72160, 72160); (72193, 72202); (72243, 72248); (72251, 72254); (72263,
    72263); (72273, 72278); (72281, 72283); (72330, 72342); (72344, 72345); (72752, 72758);
    (72760, 72765); (72767, 72767); (72850, 72871); (72874, 72880); (72882, 72883); (72885,
    72886); (73009, 73014); (73018, 73018); (73020, 73021); (73023, 73029); (73031, 73031);
    (73104, 73105); (73109, 73109); (73111, 73111); (73459, 73460); (78896, 78904); (92912,
    92916); (92976, 92982); (92992, 92995); (94031, 94031); (94095, 94111); (94176, 94177);
    (94179, 94180); (110576, 110579); (110581, 110587); (110589, 110590); (113821, 113822);
    (113824, 113827); (118528, 118573); (118576, 118598); (119143, 119145); (119155,
    119170); (119173, 119179); (119210, 119213); (119362, 119364); (121344, 121398);
    (121403, 121452); (121461, 121461); (121476, 121476); (121499, 121503); (121505,
    121519); (122880, 122886); (122888, 122904); (122907, 122913); (122915, 122916);
    (122918, 122922); (123184, 123197); (123566, 123566); (123628, 123631); (125136,
    125142); (125252, 125259); (127995, 127999); (917505, 917505); (917536, 917631);
    (917760, 917999) ]%N.

(** the cased characters that are not case-ignorable *)
Definition cased_ranges : list (N * N) :=
  [
    (65, 90); (97, 122); (170, 170); (181, 181); (186, 186); (192, 214); (216, 246); (248,
    442); (444, 447); (452, 659); (661, 687); (880, 883); (886, 887); (891, 893); (895,
    895); (902, 902); (904, 906); (908, 908); (910, 929); (932, 1013); (1015, 1153); (1162,
    1327); (1329, 1366); (1376, 1416); (4256, 4293); (4295, 4295); (4301, 4301); (4304,
    4346); (4349, 4351); (5024, 5109); (5112, 5117); (7296, 7304); (7312, 7354); (7357,
    7359); (7424, 7467); (7531, 7543); (7545, 7578); (7680, 7957); (7960, 7965); (7968,
    8005); (8008, 8013); (8016, 8023); (8025, 8025); (8027, 8027); (8029, 8029); (8031,
    8061); (8064, 8116); (8118, 8124); (8126, 8126); (8130, 8132); (8134, 8140); (8144,
    8147); (8150, 8155); (8160, 8172); (8178, 8180); (8182, 8188); (8450, 8450); (8455,
    8455); (8458, 8467); (8469, 8469); (8473, 8477); (8484, 8484); (8486, 8486); (8488,
    8488); (8490, 8493); (8495, 8500); (8505, 8505); (8508, 8511); (8517, 8521); (8526,
    8526); (8544, 8575); (8579, 8580); (9398, 9449); (11264, 11387); (11390, 11492); (11499,
    11502); (11506, 11507); (11520, 11557); (11559, 11559); (11565, 11565); (42560, 42605);
    (42624, 42651); (42786, 42863); (42865, 42887); (42891, 42894); (42896, 42954); (42960,
    42961); (42963, 42963); (42965, 42969); (42997, 42998); (43002, 43002); (43824, 43866);
    (43872, 43880); (43888, 43967); (64256, 64262); (64275, 64279); (65313, 65338); (65345,
    65370); (66560, 66639); (66736, 66771); (66776, 66811); (66928, 66938); (66940, 66954);
    (66956, 66962); (66964, 66965); (66967, 66977); (66979, 66993); (66995, 67001); (67003,
    67004); (68736, 68786); (68800, 68850); (71840, 71903); (93760, 93823); (119808,
    119892); (119894, 119964); (119966, 119967); (119970, 119970); (119973, 119974);
    (119977, 119980); (119982, 119993); (119995, 119995); (119997, 120003); (120005,
    120069); (120071, 120074); (120077, 120084); (120086, 120092); (120094, 120121);
    (120123, 120126); (120128, 120132); (120134, 120134); (120138, 120144); (120146,
    120485); (120488, 120512); (120514, 120538); (120540, 120570); (120572, 120596);
    (120598, 120628); (120630, 120654); (120656, 120686); (120688, 120712); (120714,
    120744); (120746, 120770); (120772, 120779); (122624, 122633); (122635, 122654);
    (125184, 125251); (127280, 127305); (127312, 127337); (127344, 127369) ]%N.

(** membership in a table of ranges sorted by their first character *)
Fixpoint in_ranges (c : N) (l : list (N * N)) : bool :=
  match l with
  | [] => false
  | (lo, hi) :: l' =>
      if (c <? lo)%N then false else if (c <=? hi)%N then true else in_ranges c l'
  end.

Fixpoint lower_lookup (c : N) (l : list (N * N * N * N)) : N :=
  match l with
  | [] => c
  | (lo, hi, step, image) :: l' =>
      if (c <? lo)%N then c
      else if (c <=? hi)%N then
        if ((c - lo) mod step =? 0)%N then (image + (c - lo))%N else lower_lookup c l'
      else lower_lookup c l'
  end.

(** the lower-case mapping of one character, as [re.IGNORECASE] uses it; no
    character above U+1E921 has one *)
Definition lower_char (c : N) : N :=
  if (125217 <? c)%N then c else lower_lookup c lower_rows.

(** the full lower-case mapping: it is [lower_char] but for U+0130, which
    gives [i] and U+0307 *)
Definition lower_full (c : N) : list N :=
  if (c =? 304)%N then [105; 775]%N else [lower_char c].

(** [\d] *)
Definition is_digit (c : N) : bool := in_ranges c decimal_ranges.

(** the value of a decimal digit *)
Fixpoint digit_lookup (c : N) (l : list (N * N)) : N :=
  match l with
  | [] => 0
  | (lo, hi) :: l' =>
      if (c <? lo)%N then 0%N else if (c <=? hi)%N then ((c - lo) mod 10)%N
      else digit_lookup c l'
  end.

Definition digit_value (c : N) : Z := Z.of_N (digit_lookup c decimal_ranges).

(** [\w] *)
Definition is_word (c : N) : bool := in_ranges c alnum_ranges || (c =? 95)%N.

(** [\s], also what [str.strip] removes *)
Definition is_space (c : N) : bool := in_ranges c space_ranges.

(** [.] without DOTALL *)
Definition not_newline (c : N) : bool := negb (c =? 10)%N.

Definition any_char (c : N) : bool := true.

Definition ascii_letter (c : N) : bool :=
  ((65 <=? c) && (c <=? 90) || (97 <=? c) && (c <=? 122))%N.

(** the character [p] of a pattern compiled with [re.IGNORECASE], for an
    ASCII [p] as all those of the source are, against the character [c] of
    the text: a letter matches the characters with its lower-case mapping,
    [i] also the dotless i and [s] also the long s; any other character
    matches itself *)
Definition char_eqb_ci (p c : N) : bool :=
  if ascii_letter p then
    let lo := lower_char p in
    let l := lower_char c in
    ((l =? lo) || (lo =? 105) && (l =? 305) || (lo =? 115) && (l =? 383))%N
  else (p =? c)%N.

(** what is left of [l] after its case-ignorable head *)
Fixpoint past_ignorable (l : list N) : list N :=
  match l with
  | c :: l' => if in_ranges c case_ignorable_ranges then past_ignorable l' else l
  | [] => []
  end.

Definition cased (c : N) : bool := (c =? 931)%N || in_ranges c cased_ranges.

(** the final-sigma context of a capital sigma: a cased character before
    it, none after it, case-ignorable characters apart; [before] is read
    backwards *)
Definition final_sigma (before after : list N) : bool :=
  match past_ignorable before with
  | c :: _ => cased c
  | [] => false
  end
  && match past_ignorable after with
     | c :: _ => negb (cased c)
     | [] => true
     end.

Fixpoint lower_loop (before l : list N) : list N :=
  match l with
  | [] => []
  | c :: l' =>
      (if (c =? 931)%N then [if final_sigma before l' then 962%N else 963%N]
       else lower_full c) ++ lower_loop (c :: before) l'
  end.

(** [s.lower()] *)
Definition str_lower (s : string) : string := utf8 (lower_loop [] (code_points s)).

Fixpoint lstrip (l : list N) : list N :=
  match l with
  | c :: l' => if is_space c then lstrip l' else l
  | [] => []
  end.

Fixpoint rstrip (l : list N) : list N :=
  match l with
  | [] => []
  | c :: l' =>
      match rstrip l' with
      | [] => if is_space c then [] else [c]
      | t => c :: t
      end
  end.

(** [s.strip()] *)
Definition str_strip (s : string) : string := utf8 (rstrip (lstrip (code_points s))).

(** [len(s)] *)
Definition str_length (s : string) : nat := length (code_points s).

(** [s.startswith(p)] *)
Fixpoint startswith (p s : string) : bool :=
  match p, s with
  | EmptyString, _ => true
  | String a p', String b s' => char_eqb a b && startswith p' s'
  | String _ _, EmptyString => false
  end.

(** [needle in hay] on two strings *)
Fixpoint str_contains (needle hay : string) : bool :=
  startswith needle hay ||
  match hay with
  | EmptyString => false
  | String _ hay' => str_contains needle hay'
  end.

(** [s[:n]] for [0 <= n] *)
Definition str_take (n : nat) (s : string) : string := utf8 (firstn n (code_points s)).

(** [s[n:]] for [0 <= n] *)
Definition str_drop (n : nat) (s : string) : string := utf8 (skipn n (code_points s)).

(** [s.replace(old, new)] for a non-empty [old] *)
Fixpoint replace_loop (old new : string) (s : string) (skip : nat) : string :=
  match s with
  | EmptyString => EmptyString
  | String c s' =>
      match skip with
      | S n => replace_loop old new s' n
      | O =>
          if startswith old s
          then new ++ replace_loop old new s' (String.length old - 1)
          else String c (replace_loop old new s' 0)
      end
  end.

Definition str_replace (old new s : string) : string :=
  match old with
  | EmptyString => s
  | _ => replace_loop old new s 0
  end.

(** the double-quote character, and a helper to write literals that contain
    it: every backquote of [s] stands for a double quote *)
Definition dquote : string := String "034"%char EmptyString.
Definition quoted (s : string) : string := str_replace "`" dquote s.

(** [s.split(" ")[0]] *)
Fixpoint first_field (s : string) : string :=
  match s with
  | EmptyString => EmptyString
  | String c s' => if char_eqb c " " then EmptyString else String c (first_field s')
  end.

(** [sep.join(l)] *)
Fixpoint str_join (sep : string) (l : list string) : string :=
  match l with
  | [] => EmptyString
  | [x] => x
  | x :: l' => x ++ sep ++ str_join sep l'
  end.

(** [s.isdigit()] *)
Definition str_isdigit (s : string) : bool :=
  match code_points s with
  | [] => false
  | l => forallb (fun c => in_ranges c digit_ranges) l
  end.

(** the number written by decimal digits *)
Fixpoint digits_value (acc : Z) (l : list N) : Z :=
  match l with
  | [] => acc
  | c :: l' => digits_value (10 * acc + digit_value c) l'
  end.

(** [int(s)] for a string of decimal digits *)
Definition int_of_digits (acc : Z) (s : string) : Z := digits_value acc (code_points s).

(** ** A backtracking matcher for the regular expressions of the source

    The fragment of Python's [re] that the source uses: character classes,
    concatenation, ordered alternation, bounded or unbounded repetition of a
    character class (greedy or lazy), [\b], [^], [$] and capturing groups.
    Matching is leftmost with Python's priorities (first alternative first,
    greedy repetitions longest first, lazy ones shortest first); it reads
    the text character by character. *)

Inductive regex : Type :=
| Eps
| Cls (p : N -> bool)
| Cat (r1 r2 : regex)
| Alt (r1 r2 : regex)
| Rep (greedy : bool) (p : N -> bool) (lo : nat) (hi : option nat)
| Bnd
| Bol
| Eol
| Grp (r : regex).

Definition word_before (prev : option N) : bool :=
  match prev with Some c => is_word c | None => false end.

Definition word_after (s : list N) : bool :=
  match s with c :: _ => is_word c | [] => false end.

Definition room (hi : option nat) : bool :=
  match hi with Some O => false | _ => true end.

Definition less (hi : option nat) : option nat :=
  match hi with Some n => Some (Nat.pred n) | None => None end.

Section Matcher.
Context {X : Type}.

(** the continuation receives the last character consumed, the rest of
    the text and the groups captured so far *)
Definition cont : Type := option N -> list N -> list (list N) -> option X.

Fixpoint rep_match (greedy : bool) (p : N -> bool) (lo : nat) (hi : option nat)
    (prev : option N) (s : list N) (caps : list (list N)) (k : cont) {struct s} : option X :=
  match s with
  | c :: s' =>
      if greedy then
        match (if p c && room hi
               then rep_match greedy p (Nat.pred lo) (less hi) (Some c) s' caps k
               else None) with
        | Some x => Some x
        | None => match lo with O => k prev s caps | S _ => None end
        end
      else
        match (match lo with O => k prev s caps | S _ => None end) with
        | Some x => Some x
        | None =>
            if p c && room hi
            then rep_match greedy p (Nat.pred lo) (less hi) (Some c) s' caps k
            else None
        end
  | [] => match lo with O => k prev s caps | S _ => None end
  end.

Fixpoint re_match (r : regex) (prev : option N) (s : list N) (caps : list (list N))
    (k : cont) {struct r} : option X :=
  match r with
  | Eps => k prev s caps
  | Cls p =>
      match s with
      | c :: s' => if p c then k (Some c) s' caps else None
      | [] => None
      end
  | Cat r1 r2 => re_match r1 prev s caps (fun prev' s' caps' => re_match r2 prev' s' caps' k)
  | Alt r1 r2 =>
      match re_match r1 prev s caps k with
      | Some x => Some x
      | None => re_match r2 prev s caps k
      end
  | Rep greedy p lo hi => rep_match greedy p lo hi prev s caps k
  | Bnd => if xorb (word_before prev) (word_after s) then k prev s caps else None
  | Bol => match prev with None => k prev s caps | Some _ => None end
  | Eol =>
      match s with
      | [] => k prev s caps
      | [c] => if (c =? 10)%N then k prev s caps else None
      | _ => None
      end
  | Grp r1 =>
      re_match r1 prev s caps
        (fun prev' s' caps' =>
           k prev' s' (caps' ++ [firstn (length s - length s') s])%list)
  end.
End Matcher.

(** a match anchored at the head of [s]: the text left and the groups *)
Definition match_here (r : regex) (prev : option N) (s : list N)
  : option (list N * list (list N)) :=
  re_match r prev s [] (fun _ rest caps => Some (rest, caps)).

Fixpoint search_loop (r : regex) (prev : option N) (s : list N)
  : option (list N * list (list N)) :=
  match match_here r prev s with
  | Some (rest, caps) => Some (firstn (length s - length rest) s, caps)
  | None =>
      match s with
      | c :: s' => search_loop r (Some c) s'
      | [] => None
      end
  end.

(** [re.search(r, s)]: [(m.group(0), groups)] of the leftmost match *)
Definition re_search (r : regex) (s : string) : option (string * list string) :=
  match search_loop r None (code_points s) with
  | Some (whole, caps) => Some (utf8 whole, map utf8 caps)
  | None => None
  end.

(** [skip] counts the characters of the current match still to be dropped *)
Fixpoint sub_loop (r : regex) (repl : list N) (prev : option N) (s : list N)
    (skip : nat) : list N :=
  match s with
  | [] => []
  | c :: s' =>
      match skip with
      | S n => sub_loop r repl (Some c) s' n
      | O =>
          match match_here r prev s with
          | Some (rest, _) =>
              match length s - length rest with
              | S n => repl ++ sub_loop r repl (Some c) s' n
              | O => c :: sub_loop r repl (Some c) s' 0
              end
          | None => c :: sub_loop r repl (Some c) s' 0
          end
      end
  end%nat%list.

(** [re.sub(r, repl, s)] for a pattern that matches no empty string (all the
    patterns of the source are such) *)
Definition re_sub (r : regex) (repl s : string) : string :=
  utf8 (sub_loop r (code_points repl) None (code_points s) 0).

(** [cur] is the piece being read *)
Fixpoint split_loop (r : regex) (prev : option N) (s : list N) (skip : nat)
    (cur : list N) : list (list N) :=
  match s with
  | [] => [cur]
  | c :: s' =>
      match skip with
      | S n => split_loop r (Some c) s' n cur
      | O =>
          match match_here r prev s with
          | Some (rest, _) =>
              match length s - length rest with
              | S n => cur :: split_loop r (Some c) s' n []
              | O => split_loop r (Some c) s' 0 (cur ++ [c])
              end
          | None => split_loop r (Some c) s' 0 (cur ++ [c])
          end
      end
  end%nat%list.

(** [re.split(r, s)], same proviso *)
Definition re_split (r : regex) (s : string) : list string :=
  map utf8 (split_loop r None (code_points s) 0 []).

(** *** Pattern combinators *)

Fixpoint cats (l : list regex) : regex :=
  match l with
  | [] => Eps
  | [r] => r
  | r :: l' => Cat r (cats l')
  end.

Fixpoint alts (l : list regex) : regex :=
  match l with
  | [] => Cls (fun _ => false)
  | [r] => r
  | r :: l' => Alt r (alts l')
  end.

(** a literal text *)
Definition lit (s : string) : regex := cats (map (fun c => Cls (N.eqb c)) (code_points s)).

(** a literal text under [re.IGNORECASE] *)
Definition lit_ci (s : string) : regex :=
  cats (map (fun c => Cls (char_eqb_ci c)) (code_points s)).

Definition star (p : N -> bool) : regex := Rep true p 0 None.
Definition plus (p : N -> bool) : regex := Rep true p 1 None.
Definition lazy_star (p : N -> bool) : regex := Rep false p 0 None.
Definition times (n : nat) (p : N -> bool) : regex := Rep true p n (Some n).

(** the character of [cs] with an optional-occurrence mark, under
    [re.IGNORECASE] *)
Definition opt_char (cs : string) : regex :=
  match code_points cs with
  | c :: _ => Rep true (char_eqb_ci c) 0 (Some 1%nat)
  | [] => Eps
  end.

(** a set of characters *)
Definition one_of (cs : string) (c : N) : bool := existsb (N.eqb c) (code_points cs).

(** ** [services.py]: title normalisation *)

Definition bracket_open : N -> bool := one_of "[(".
Definition bracket_close : N -> bool := one_of "])".

(** [\s*[\[\(].*?[\]\)]] *)
Definition re_brackets : regex :=
  cats [star is_space; Cls bracket_open; lazy_star not_newline; Cls bracket_close].

Definition word_alternatives (l : list regex) : regex := cats [Bnd; Grp (alts l); Bnd].

(** the eight [version_patterns], in the order of the source; they are
    applied with [re.IGNORECASE] *)
Definition version_patterns : list regex :=
  [ word_alternatives
      [ Cat (lit_ci "remastere") (opt_char "d"); lit_ci "remaster"; lit_ci "remix";
        lit_ci "remixed"; lit_ci "live"; lit_ci "version"; lit_ci "album version";
        lit_ci "explicit"; lit_ci "clean"; lit_ci "single"; lit_ci "edit";
        lit_ci "original"; lit_ci "demo"; lit_ci "acoustic"; lit_ci "instrumental";
        lit_ci "radio edit"; lit_ci "extended"; lit_ci "short"; lit_ci "long" ];
    word_alternatives
      [ Cat (times 4 is_digit) (lit_ci " remaster"); Cat (times 4 is_digit) (lit_ci " version");
        Cat (times 4 is_digit) (lit_ci " mix"); Cat (times 4 is_digit) (lit_ci " digital");
        Cat (times 4 is_digit) (lit_ci " master") ];
    cats [ Bnd;
           Grp (alts [ lit_ci "feat."; lit_ci "ft."; lit_ci "featuring"; lit_ci "with";
                       lit_ci "vs."; lit_ci "pres."; lit_ci "&" ]);
           Bnd; star not_newline ];
    word_alternatives
      [ lit_ci "mono"; lit_ci "stereo"; lit_ci "digital"; lit_ci "analog"; lit_ci "hi-res";
        lit_ci "hires"; lit_ci "lossless"; lit_ci "flac"; lit_ci "mp3"; lit_ci "wav";
        lit_ci "aiff" ];
    cats [ Alt (lit "-") (lit "–"); star is_space;
           Grp (alts [ lit_ci "live"; lit_ci "remaster"; lit_ci "remix"; lit_ci "version";
                       lit_ci "edit"; lit_ci "demo"; lit_ci "acoustic" ]);
           star not_newline; Eol ];
    word_alternatives
      [ lit_ci "bonus track"; lit_ci "deluxe"; lit_ci "special edition"; lit_ci "expanded";
        lit_ci "reissue"; lit_ci "re-issue" ];
    word_alternatives
      [ cats [lit_ci "from "; lazy_star not_newline; lit_ci " soundtrack"];
        lit_ci "original motion picture" ];
    word_alternatives
      [ Cat (lit_ci "take ") (plus is_digit); lit_ci "alternate"; lit_ci "early";
        lit_ci "rough" ] ].

(** [[^\w\s]] and [\s+] *)
Definition re_special : regex := Cls (fun c => negb (is_word c || is_space c)).
Definition re_spaces : regex := plus is_space.

Definition normalize_title_for_dedupe (s : string) : string :=
  match s with
  | EmptyString => EmptyString
  | _ =>
      let s := str_lower s in
      let s := re_sub re_brackets "" s in
      let s := fold_left (fun s pattern => re_sub pattern "" s) version_patterns s in
      let s := re_sub re_special " " s in
      let s := re_sub re_spaces " " s in
      str_strip s
  end.

(** ** Python values

    [json] is the image of [json.loads]; it also serves for the Mongo query
    documents the engine builds.  A [dict] keeps its keys in insertion order. *)

Local Unset Elimination Schemes.
Inductive json : Type :=
| JNull
| JBool (b : bool)
| JInt (n : Z)
| JFloat (q : Q)
| JStr (s : string)
| JList (l : list json)
| JDict (d : list (string * json)).
Local Set Elimination Schemes.

Abbreviation dict := (list (string * json)).

(** [d.get(k)] *)
Fixpoint dict_get (k : string) (d : dict) : option json :=
  match d with
  | [] => None
  | (k', v) :: d' => if String.eqb k k' then Some v else dict_get k d'
  end.

(** [k in d] *)
Definition dict_has (k : string) (d : dict) : bool :=
  match dict_get k d with Some _ => true | None => false end.

(** [d[k] = v]: an existing key keeps its place *)
Fixpoint dict_set (k : string) (v : json) (d : dict) : dict :=
  match d with
  | [] => [(k, v)]
  | (k', v') :: d' => if String.eqb k k' then (k', v) :: d' else (k', v') :: dict_set k v d'
  end.

(** [d.update(d2)] *)
Definition dict_update (d d2 : dict) : dict :=
  fold_left (fun acc kv => dict_set (fst kv) (snd kv) acc) d2 d.

(** [d.get(k, default)] *)
Definition dict_get_default (k : string) (default : json) (d : dict) : json :=
  match dict_get k d with Some v => v | None => default end.

(** Python truthiness *)
Definition truthy (v : json) : bool :=
  match v with
  | JNull => false
  | JBool b => b
  | JInt n => negb (n =? 0)
  | JFloat q => negb (Qnum q =? 0)
  | JStr s => negb (String.eqb s "")
  | JList l => match l with [] => false | _ => true end
  | JDict d => match d with [] => false | _ => true end
  end.

(** [a or b] *)
Definition py_or (a b : json) : json := if truthy a then a else b.

(** [d.get(k)] read as a value, [None] when the key is missing *)
Definition dict_get_none (k : string) (d : dict) : json := dict_get_default k JNull d.

(** ** Exceptions *)

Definition exn : Type := string.

Inductive result (A : Type) : Type :=
| Ok (a : A)
| Raise (e : exn).
Arguments Ok {A} a.
Arguments Raise {A} e.

#[export] Instance result_ret : MRet result := fun A a => Ok a.

#[export] Instance result_bind : MBind result := fun A B f m =>
  match m with
  | Ok a => f a
  | Raise e => Raise e
  end.

#[export] Instance result_fmap : FMap result := fun A B f m =>
  match m with
  | Ok a => Ok (f a)
  | Raise e => Raise e
  end.

(** [try: m except Exception as e: h(e)] *)
Definition try_except {A : Type} (m : result A) (h : exn -> result A) : result A :=
  match m with
  | Ok a => Ok a
  | Raise e => h e
  end.

Definition TypeError : exn := "TypeError".
Definition AttributeError : exn := "AttributeError".
Definition ValueError : exn := "ValueError".

(** [for x in l: f(x)] with exceptions, collecting the results *)
Fixpoint map_result {A B : Type} (f : A -> result B) (l : list A) : result (list B) :=
  match l with
  | [] => Ok []
  | x :: l' => y ← f x; ys ← map_result f l'; Ok (y :: ys)
  end.

(** ** The catalog data model *)

(** the [Genero] field: missing, one label, or a list of labels *)
Inductive genre_value : Type :=
| GNone
| GStr (g : string)
| GList (l : list string).

(** A document of the [tracks] collection.  Scores are held in
    ten-thousandths, the resolution of [round(x, 4)]. *)
Record Track : Type := mkTrack {
  doc_id : option N;
  Titulo : option string;
  Artista : option string;
  Album : option string;
  Ruta : option string;
  Genero : genre_value;
  genre : genre_value;
  Bitrate : option Z;
  LastFMPlaycount : option Z;
  LastFMListeners : option Z;
  YouTubeViews : option Z;
  PopularityScore : option Z;
  RelativePopularityScore : option Z
}.

Definition set_PopularityScore (v : Z) (t : Track) : Track :=
  mkTrack (doc_id t) (Titulo t) (Artista t) (Album t) (Ruta t) (Genero t) (genre t)
    (Bitrate t) (LastFMPlaycount t) (LastFMListeners t) (YouTubeViews t)
    (Some v) (RelativePopularityScore t).

Definition set_RelativePopularityScore (v : Z) (t : Track) : Track :=
  mkTrack (doc_id t) (Titulo t) (Artista t) (Album t) (Ruta t) (Genero t) (genre t)
    (Bitrate t) (LastFMPlaycount t) (LastFMListeners t) (YouTubeViews t)
    (PopularityScore t) (Some v).

#[export] Instance genre_value_eq_dec : EqDecision genre_value.
Proof. solve_decision. Defined.

#[export] Instance Track_eq_dec : EqDecision Track.
Proof. solve_decision. Defined.

(** [t.get(k) or ""] for a string field *)
Definition str_or_empty (o : option string) : string := default EmptyString o.

(** [t.get(k) or 0] *)
Definition int_or_zero (o : option Z) : Z := default 0 o.

(** ** [services.py]: deduplication *)

(** the key under which [deduplicate_tracks_by_title_keep_best] files a
    track: the canonical title, or the first 200 characters of the file
    reference when the title canonicalises to the empty string *)
Definition dedupe_key (t : Track) : string :=
  let key := normalize_title_for_dedupe (str_or_empty (Titulo t)) in
  if String.eqb key "" then str_take 200 (str_or_empty (Ruta t)) else key.

(** [bitrate > prev_bitrate or (bitrate == prev_bitrate and pop > prev_pop)] *)
Definition replaces (t prev : Track) : bool :=
  let bitrate := int_or_zero (Bitrate t) in
  let pop := int_or_zero (PopularityScore t) in
  let prev_bitrate := int_or_zero (Bitrate prev) in
  let prev_pop := int_or_zero (PopularityScore prev) in
  (prev_bitrate <? bitrate) || ((bitrate =? prev_bitrate) && (prev_pop <? pop)).

(** the [best] dictionary, in insertion order: one loop iteration *)
Fixpoint best_put (key : string) (t : Track) (best : list (string * Track))
  : list (string * Track) :=
  match best with
  | [] => [(key, t)]
  | (k, prev) :: rest =>
      if String.eqb key k
      then (k, if replaces t prev then t else prev) :: rest
      else (k, prev) :: best_put key t rest
  end.

Definition best_of (tracks_list : list Track) : list (string * Track) :=
  fold_left (fun best t => best_put (dedupe_key t) t best) tracks_list [].

Definition deduplicate_tracks_by_title_keep_best (tracks_list : list Track) : list Track :=
  map snd (best_of tracks_list).

(** ** [services.py]: incongruity filter *)

Definition genre_text (g : genre_value) : string :=
  match g with
  | GList l => str_lower (str_join " " l)
  | GStr s => str_lower s
  | GNone => EmptyString
  end.

Definition congruent (query_text : string) (t : Track) : bool :=
  let title := str_lower (str_or_empty (Titulo t)) in
  let q := str_lower query_text in
  str_contains (genre_text (Genero t)) q || str_contains (first_field title) q.

Definition filter_gross_incongruities (tracks : list Track) (query_text : string) : list Track :=
  List.filter (congruent query_text) tracks.

(** ** [services.py]: the diversity limiter *)

(** [sorted(l, key=..., reverse=True)]: stable, best first *)
Fixpoint insert_desc {A : Type} (key : A -> Z) (t : A) (l : list A) : list A :=
  match l with
  | [] => [t]
  | x :: l' => if key x <=? key t then t :: l else x :: insert_desc key t l'
  end.

Definition sorted_desc {A : Type} (key : A -> Z) (l : list A) : list A :=
  foldr (insert_desc key) [] l.

(** [x.get("RelativePopularityScore", 0)] *)
Definition rel_key (t : Track) : Z := int_or_zero (RelativePopularityScore t).

Definition artist_key (t : Track) : string :=
  str_lower (str_strip (str_or_empty (Artista t))).

Definition album_key (t : Track) : string :=
  let artist := artist_key t in
  let album := str_lower (str_strip (str_or_empty (Album t))) in
  if String.eqb album "" then artist else artist ++ "::" ++ album.

(** the admission loop, shared by the limiter of [services.py] and its
    sibling of [postprocessing_utils.py]: two dictionaries of counters, keyed
    by what each function calls the artist and the album of a track *)
Section Limiter.
Context {A : Type} (artist_of album_of : A -> string).

Record limiter_state : Type := mkLimiter {
  admitted : list A;
  artist_counts : gmap string Z;
  album_counts : gmap string Z
}.

Definition limiter_init : limiter_state := mkLimiter [] ∅ ∅.

(** one iteration of the loop *)
Definition limiter_step (max_per_artist max_per_album : Z) (st : limiter_state) (t : A)
  : limiter_state :=
  let current_artist_count := default 0 (artist_counts st !! artist_of t) in
  let current_album_count := default 0 (album_counts st !! album_of t) in
  if max_per_artist <=? current_artist_count then st
  else if max_per_album <=? current_album_count then st
  else mkLimiter (admitted st ++ [t])
         (<[artist_of t := current_artist_count + 1]> (artist_counts st))
         (<[album_of t := current_album_count + 1]> (album_counts st)).

Definition limiter_run (max_per_artist max_per_album : Z) (candidates : list A)
  : limiter_state :=
  fold_left (limiter_step max_per_artist max_per_album) candidates limiter_init.
End Limiter.

Arguments admitted {A} _.
Arguments artist_counts {A} _.
Arguments album_counts {A} _.

Definition limit_tracks_by_artist_album (tracks_list : list Track)
    (max_per_artist max_per_album : Z) : list Track :=
  admitted (limiter_run artist_key album_key max_per_artist max_per_album
              (sorted_desc rel_key tracks_list)).

(** ** [postprocessing_utils.py]: the sibling limiter, on simplified tracks

    It reads the keys [artist] and [album], counts albums by the album name
    alone, and takes its candidates in the order given. *)

Module PostprocessingUtils.

Record track : Type := mkTrack {
  id : option string;
  title : option string;
  artist : option string;
  album : option string
}.

(** [(t.get("artist") or "Desconocido").lower()] *)
Definition artist_of (t : track) : string :=
  str_lower (match artist t with Some (String c a) => String c a | _ => "Desconocido" end).

Definition album_of (t : track) : string :=
  str_lower (match album t with Some (String c a) => String c a | _ => "Desconocido" end).

Definition limit_tracks_by_artist_album (tracks : list track)
    (max_per_artist max_per_album : Z) : list track :=
  match tracks with
  | [] => []
  | _ => admitted (limiter_run artist_of album_of max_per_artist max_per_album tracks)
  end.

End PostprocessingUtils.

(** ** The collaborators of the engine *)

(** [get_global_max_values()]: the corpus maxima of the engagement metrics *)
Record GlobalMax : Type := mkGlobalMax {
  max_playcount : Z;
  max_listeners : Z;
  max_youtube : Z
}.

Record Collaborators : Type := mkCollaborators {
  (** [list(collection.find(query))]; [Raise] when the store fails *)
  find : json -> result (list Track);
  (** [list(collection.find(query).sort("PopularityScore", -1))] *)
  find_sorted : json -> result (list Track);
  (** [get_global_max_values()], which catches its own exceptions *)
  get_global_max_values : GlobalMax;
  (** [collect_enriched_context()], which catches its own exceptions *)
  collect_enriched_context : json;
  (** [requests.post(OLLAMA_URL, ..., timeout=45)] followed by
      [raise_for_status()] and [resp.json()], as in [call_ollama_safe] *)
  ollama_post : string -> result json;
  (** the same request with [timeout=40], as in [run_local_llm] *)
  local_llm_post : string -> result json;
  (** [json.loads]; [None] when it raises *)
  json_loads : string -> option json;
  (** [json.dumps] *)
  json_dumps : json -> string;
  (** the three prompt templates of [prompt_builder.py] *)
  build_enhanced_prompt_with_country : string -> json -> dict -> string;
  build_completion_prompt_with_country :
    string -> dict -> list Track -> json -> Z -> dict -> string;
  build_validation_prompt_with_country : string -> dict -> list Track -> json -> dict -> string;
  (** the float returned by [popularity_utils.compute_popularity], in
      ten-thousandths; its real-valued definition is
      [PopularityUtils.compute_popularity] *)
  compute_popularity : Track -> GlobalMax -> Z;
  (** [round(math.sqrt(rel) * 0.8 + 0.2, 4)] for
      [rel = norm_safe(score, max_score)], in ten-thousandths, as a function
      of [score] and [max_score] *)
  perceptual_curve : Z -> Z -> Z;
  (** how a value proposed by the model in phase 3 is read as a track
      document; [Raise] when an operation of the pipeline fails on it *)
  track_of_json : json -> result Track
}.

(** [cursor.limit(n)]: [0] is no limit, a negative [n] is [abs(n)] *)
Definition cursor_limit (n : Z) (rows : list Track) : list Track :=
  if n =? 0 then rows else firstn (Z.abs_nat n) rows.

(** [l[:n]] *)
Definition py_slice_to {A : Type} (n : Z) (l : list A) : list A :=
  if 0 <=? n then firstn (Z.to_nat n) l
  else firstn (length l - Z.to_nat (- n)) l.

(** ** [popularity_utils.py]: relative popularity inside the pipeline *)

Definition genre_truthy (g : genre_value) : bool :=
  match g with
  | GNone => false
  | GStr s => negb (String.eqb s "")
  | GList l => match l with [] => false | _ => true end
  end.

(** the bucket of a track in [by_genre] *)
Definition genre_bucket (t : Track) : string :=
  let genero_val :=
    if genre_truthy (Genero t) then Genero t
    else if genre_truthy (genre t) then genre t
    else GStr "Desconocido" in
  match genero_val with
  | GList l => str_strip (str_join " / " l)
  | GStr s => let g := str_strip s in if String.eqb g "" then "Desconocido" else g
  | GNone => "Desconocido"
  end.

(** [max(scores) if scores else 1] *)
Definition max_or_one (scores : list Z) : Z :=
  match scores with
  | [] => 1
  | x :: rest => fold_left Z.max rest x
  end.

Definition bucket_scores (tracks : list Track) (g : string) : list Z :=
  map (fun t => int_or_zero (PopularityScore t))
      (List.filter (fun t => String.eqb (genre_bucket t) g) tracks).

(** the in-place update of the tracks; [math.sqrt] raises on a negative
    [rel], that is when [score < 0 < max_score].  The list is returned in
    its input order: the callers of [services.py] ignore the regrouped list
    the function returns and keep their own. *)
Definition compute_relative_popularity_by_genre (E : Collaborators) (tracks : list Track)
  : result (list Track) :=
  let tracks :=
    map (fun t => match PopularityScore t with
                  | Some _ => t
                  | None => set_PopularityScore (compute_popularity E t (get_global_max_values E)) t
                  end) tracks in
  map_result
    (fun t =>
       let score := int_or_zero (PopularityScore t) in
       let max_score := max_or_one (bucket_scores tracks (genre_bucket t)) in
       if (0 <? max_score) && (score <? 0) then Raise ValueError
       else Ok (set_RelativePopularityScore (perceptual_curve E score max_score) t))
    tracks.

(** ** [services.py]: [apply_intelligent_postprocessing] *)

Definition apply_intelligent_postprocessing (E : Collaborators) (tracks : list Track)
    (user_prompt : string) (limit : Z) : result (list Track) :=
  match tracks with
  | [] => Ok tracks
  | _ =>
      let global_max := get_global_max_values E in
      let tracks := map (fun t => set_PopularityScore (compute_popularity E t global_max) t) tracks in
      let deduped := deduplicate_tracks_by_title_keep_best tracks in
      deduped ← compute_relative_popularity_by_genre E deduped;
      let filtered := filter_gross_incongruities deduped user_prompt in
      let limited := limit_tracks_by_artist_album filtered 3 2 in
      let limited := sorted_desc rel_key limited in
      Ok (py_slice_to limit limited)
  end.

(** ** [hybrid_tools.py]: JSON recovery *)

Definition re_object_block : regex := Grp (cats [lit "{"; star any_char; lit "}"]).
Definition re_array_block : regex := Grp (cats [lit "["; star any_char; lit "]"]).

Definition group1 (m : string * list string) : string :=
  match snd m with g :: _ => g | [] => fst m end.

(** the "reparación mínima" *)
Definition text_fixed (text : string) : string :=
  str_replace "None" "null"
    (str_replace "True" "true"
       (str_replace "False" "false"
          (str_replace "'" dquote text))).

(** [JNull] stands for the [None] the function returns when it gives up *)
Definition extract_json_from_text (E : Collaborators) (text : json) : json :=
  match text with
  | JStr s =>
      if String.eqb s "" then JNull
      else
        let first_try :=
          match re_search re_object_block s with
          | Some m => json_loads E (group1 m)
          | None =>
              match re_search re_array_block s with
              | Some m => json_loads E (group1 m)
              | None => None
              end
          end in
        match first_try with
        | Some v => v
        | None => default JNull (json_loads E (text_fixed s))
        end
  | _ => JNull
  end.

(** [data.get(k)] on the decoded body of the reply *)
Definition body_get (k : string) (data : json) : result json :=
  match data with
  | JDict d => Ok (dict_get_none k d)
  | _ => Raise AttributeError
  end.

(** ** [services.py]: [call_ollama_safe] *)

Definition call_ollama_safe (E : Collaborators) (prompt_text : string) : json :=
  match
    (data ← ollama_post E prompt_text;
     response ← body_get "response" data;
     completion ← body_get "completion" data;
     let text := py_or response (py_or completion (JStr (json_dumps E data))) in
     Ok (py_or (extract_json_from_text E text) (JDict [("raw", text)])))
  with
  | Ok v => v
  | Raise e => JDict [("error", JStr e)]
  end.

(** ** [ai_engine.py]: [run_local_llm] *)

(** [^```json\s*] and [```\s*$] *)
Definition re_fence_open : regex := cats [Bol; lit "```json"; star is_space].
Definition re_fence_close : regex := cats [lit "```"; star is_space; Eol].

Definition as_str (v : json) : result string :=
  match v with
  | JStr s => Ok s
  | _ => Raise AttributeError
  end.

(** returns the parsed value when the reply holds JSON, the cleaned text
    otherwise, and the text [{}] on an empty reply or on any exception *)
Definition run_local_llm (E : Collaborators) (prompt : string) : json :=
  match
    (data ← local_llm_post E prompt;
     response ← body_get "response" data;
     output ← body_get "output" data;
     text ← body_get "text" data;
     let raw_text := py_or response (py_or output (py_or text (JStr ""))) in
     if truthy raw_text then
       raw ← as_str raw_text;
       let cleaned := re_sub re_fence_open "" (str_strip raw) in
       let cleaned := str_strip (re_sub re_fence_close "" cleaned) in
       let parsed := extract_json_from_text E (JStr cleaned) in
       Ok (if truthy parsed then parsed else JStr cleaned)
     else Ok (JStr "{}"))
  with
  | Ok v => v
  | Raise _ => JStr "{}"
  end.

(** ** [intent_analysis.py] *)

Definition COUNTRY_KEYWORDS : list (string * (string * string)) :=
  [ ("chile", ("Chile", "origin"));
    ("argent", ("Argentina", "origin"));
    ("mexic", ("México", "origin"));
    ("colomb", ("Colombia", "origin"));
    ("espa", ("España", "origin"));
    ("per", ("Perú", "origin"));
    ("usa", ("Estados Unidos", "origin"));
    ("estad", ("Estados Unidos", "origin"));
    ("brasil", ("Brasil", "origin"));
    ("franc", ("Francia", "origin")) ].

Definition POPULARITY_KEYWORDS : list string :=
  [ "popular en"; "más escuchado en"; "top en"; "tendencias en" ].

(** [REGION_DEFINITIONS[r]["name"]] *)
Definition REGION_NAMES : list (string * string) :=
  [ ("latam", "Latinoamérica"); ("europa", "Europa"); ("norteamerica", "Norteamérica") ].

(** [any(w in lower for w in words)] *)
Definition any_in (words : list string) (lower : string) : bool :=
  existsb (fun w => str_contains w lower) words.

Record country_intent : Type := mkCountryIntent {
  has_country_intent : bool;
  country : json;
  country_type : json
}.

Fixpoint first_country (lower : string) (keywords : list (string * (string * string)))
  : country_intent :=
  match keywords with
  | [] => mkCountryIntent false JNull JNull
  | (key, (country, ctype)) :: rest =>
      if str_contains key lower
      then mkCountryIntent true (JStr country)
             (JStr (if any_in POPULARITY_KEYWORDS lower then "popular_in" else ctype))
      else first_country lower rest
  end.

Definition detect_country_intent (text : string) : country_intent :=
  first_country (str_lower text) COUNTRY_KEYWORDS.

Definition detect_region_from_query (text : string) : option string :=
  let lower := str_lower text in
  if any_in ["latina"; "latino"; "latam"; "iberoamerica"] lower then Some "latam"
  else if any_in ["europea"; "europeo"; "europa"] lower then Some "europa"
  else if any_in ["norteamericana"; "usa"; "estadounidense"; "canadiense"] lower
       then Some "norteamerica"
  else None.

Definition optional (r : regex) : regex := Alt r Eps.

(** the pattern of [extract_limit_directly]: an optional [top] with spaces,
    one to three digits (group 1), spaces, an optional
    [canciones|temas|tracks] *)
Definition re_limit : regex :=
  cats [ optional (Cat (lit "top") (star is_space));
         Grp (Rep true is_digit 1 (Some 3%nat));
         star is_space;
         optional (alts [lit "canciones"; lit "temas"; lit "tracks"]) ].

Definition extract_limit_directly (text : string) : option Z :=
  match re_search re_limit (str_lower text) with
  | Some m => let n := int_of_digits 0 (group1 m) in Some (Z.max 5 (Z.min n 100))
  | None => None
  end.

(** the digits of a decimal literal accepted by [int(str)]: single
    underscores are allowed between digits *)
Fixpoint int_digits (acc : Z) (after_digit : bool) (s : list N) : option Z :=
  match s with
  | [] => if after_digit then Some acc else None
  | c :: s' =>
      if is_digit c then int_digits (10 * acc + digit_value c) true s'
      else if (c =? 95)%N && after_digit then
        match s' with
        | c' :: _ => if is_digit c' then int_digits acc false s' else None
        | [] => None
        end
      else None
  end.

Definition int_of_str (s : string) : option Z :=
  match rstrip (lstrip (code_points s)) with
  | 45%N :: s' => Z.opp <$> int_digits 0 false s'
  | 43%N :: s' => int_digits 0 false s'
  | s' => int_digits 0 false s'
  end.

(** [int(value)] *)
Definition py_int (value : json) : result Z :=
  match value with
  | JInt n => Ok n
  | JBool b => Ok (if b then 1 else 0)
  | JFloat q => Ok (Z.quot (Qnum q) (Zpos (Qden q)))
  | JStr s => match int_of_str s with Some n => Ok n | None => Raise ValueError end
  | _ => Raise TypeError
  end.

Definition validate_and_normalize_limit (value : json) (text : string) : Z :=
  match py_int value with
  | Ok n => Z.max 10 (Z.min n 100)
  | Raise _ => default 30 (extract_limit_directly text)
  end.

Definition opt_str (o : option string) : json :=
  match o with Some s => JStr s | None => JNull end.

Definition opt_int (o : option Z) : json :=
  match o with Some n => JInt n | None => JNull end.

(** [(19|20)\d{2}] *)
Definition re_year : regex := Cat (Grp (Alt (lit "19") (lit "20"))) (times 2 is_digit).

Definition get_improved_fallback_analysis (text : string) : dict :=
  let lower := str_lower text in
  let genre :=
    if str_contains "rock" lower then Some "rock"
    else if str_contains "pop" lower then Some "pop"
    else if str_contains "metal" lower then Some "metal"
    else if str_contains "electr" lower then Some "electrónica"
    else if str_contains "jazz" lower then Some "jazz"
    else None in
  let year := (fun m => int_of_digits 0 (fst m)) <$> re_search re_year lower in
  let decade := (fun y => pretty (y / 10) ++ "0s") <$> year in
  let country_data := detect_country_intent lower in
  let limit := default 30 (extract_limit_directly text) in
  [ ("type", JStr "fallback");
    ("genre", opt_str genre);
    ("decade", opt_str decade);
    ("year", opt_int year);
    ("country", country country_data);
    ("country_type", country_type country_data);
    ("limit", JInt limit);
    ("detected_limit", JInt limit);
    ("intent", JStr "fallback_analysis") ].

Definition enhance_region_detection (analysis : dict) (query_text : string) : dict :=
  match detect_region_from_query query_text with
  | Some detected_region =>
      let name := default "" (snd <$> List.find (fun p => String.eqb (fst p) detected_region)
                                         REGION_NAMES) in
      dict_update analysis
        [ ("type", JStr "region_request");
          ("region", JStr detected_region);
          ("region_name", JStr name);
          ("country", JNull);
          ("country_type", JNull);
          ("intent", JStr ("Música de " ++ name)) ]
  | None => analysis
  end.

(** the f-string sent to the model by [analyze_query_intent] *)
Definition intent_prompt (query_text : string) : string :=
  quoted "
Analiza esta solicitud musical y devuelve SOLO JSON con los campos:
{
  `type`: `artist_request|genre_or_mood_request|country_request`,
  `artist`: ``,
  `track`: ``,
  `album`: ``,
  `genre`: ``,
  `mood`: ``,
  `decade`: ``,
  `year`: null,
  `year_range`: {`from`: 0, `to`: 0},
  `country`: ``,
  `country_type`: `origin|popular_in`,
  `limit`: 10,
  `intent`: `explicación resumida`
}
Ejemplo: `rock de los 80s en Chile` → {`genre`: `rock`, `decade`: `1980s`, `country`: `Chile`, `country_type`: `origin`}

Consulta: " ++ dquote ++ query_text ++ dquote ++ "
".

Definition as_dict (v : json) : result dict :=
  match v with
  | JDict d => Ok d
  | _ => Raise TypeError
  end.

Definition analyze_query_intent (E : Collaborators) (query_text : string) : dict :=
  let country_info := detect_country_intent query_text in
  let prompt := intent_prompt query_text in
  match
    (let raw := run_local_llm E prompt in
     parsed ← as_dict (py_or (extract_json_from_text E raw) (JDict []));
     let parsed :=
       if has_country_intent country_info
       then dict_set "country_type" (country_type country_info)
              (dict_set "country" (country country_info) parsed)
       else parsed in
     let parsed :=
       dict_set "detected_limit"
         (JInt (validate_and_normalize_limit (dict_get_none "limit" parsed) query_text))
         parsed in
     Ok (enhance_region_detection parsed query_text))
  with
  | Ok analysis => analysis
  | Raise _ => get_improved_fallback_analysis query_text
  end.

(** ** [utils.py]: [adjust_limit_based_on_complexity] *)

Definition adjust_limit_based_on_complexity (user_prompt : string) (base_limit : Z)
    (llm_analysis : dict) : Z :=
  let present k := if truthy (dict_get_none k llm_analysis) then 1 else 0 in
  let complexity :=
    present "country" + present "decade" + present "genre" + present "mood"
    + 2 * present "artist" in
  if 3 <=? complexity then Z.min base_limit 20
  else if complexity =? 2 then Z.min base_limit 25
  else base_limit.

(** ** [services.py]: [parse_filters_from_llm] *)

(** [k in v] for a string [k]: key of a dict, substring of a string,
    element of a list; a [TypeError] on the other values *)
Definition py_in (k : string) (v : json) : result bool :=
  match v with
  | JDict d => Ok (dict_has k d)
  | JStr s => Ok (str_contains k s)
  | JList l => Ok (existsb (fun x => match x with JStr s => String.eqb s k | _ => false end) l)
  | _ => Raise TypeError
  end.

(** [v[k]] for a string [k] *)
Definition py_item (k : string) (v : json) : result json :=
  match v with
  | JDict d => match dict_get k d with Some x => Ok x | None => Raise "KeyError" end
  | _ => Raise TypeError
  end.

(** [(\d{2,4})s?] *)
Definition re_decade : regex := Cat (Grp (Rep true is_digit 2 (Some 4%nat))) (optional (lit "s")).

(** the [(start_year, start_year + 10)] of one entry of [decades_to_process] *)
Definition decade_range (decade_str : json) : option (Z * Z) :=
  match decade_str with
  | JStr s =>
      match re_search re_decade s with
      | Some m =>
          let decade_num := group1 m in
          let start_year :=
            if (str_length decade_num =? 2)%nat
            then 1900 + int_of_digits 0 decade_num
            else int_of_digits 0 decade_num in
          Some (start_year, start_year + 10)
      | None => None
      end
  | _ => None
  end.

Definition year_condition (r : Z * Z) : json :=
  JDict [("$gte", JInt (fst r)); ("$lt", JInt (snd r))].

Definition parse_decada (val : json) (out : dict) : dict :=
  let decades_to_process :=
    match val with
    | JList l => l
    | JStr _ => [val]
    | _ => []
    end in
  let year_ranges := omap decade_range decades_to_process in
  match year_ranges with
  | [] => out
  | [r] =>
      dict_set "Decada" (JStr (pretty (fst r) ++ "s"))
        (dict_set "Año" (year_condition r) out)
  | _ =>
      dict_set "Decada"
        (JDict [("$in", JList (map (fun r => JStr (pretty (fst r) ++ "s")) year_ranges))])
        (dict_set "$or" (JList (map (fun r => JDict [("Año", year_condition r)]) year_ranges))
           out)
  end.

Definition genre_keys : list string :=
  ["genero"; "género"; "genre"; "Genero"; "género_principal"].

(** the loop over [genre_keys], with its two [break]s *)
Fixpoint parse_genre (keys : list string) (llm_filters : dict) (out : dict) : dict :=
  match keys with
  | [] => out
  | key :: keys' =>
      match dict_get key llm_filters with
      | Some (JStr v) =>
          if negb (String.eqb (str_strip v) "")
          then dict_set "Genero" (JDict [("$regex", JStr v); ("$options", JStr "i")]) out
          else parse_genre keys' llm_filters out
      | Some (JDict v) =>
          if dict_has "$regex" v then dict_set "Genero" (JDict v) out
          else parse_genre keys' llm_filters out
      | _ => parse_genre keys' llm_filters out
      end
  end.

(** [int(year)] under [str(year).isdigit()]; a digit that is no decimal
    digit, a superscript for one, is refused by [int] *)
Definition year_number (year : json) : result (option Z) :=
  match year with
  | JInt n => Ok (if 0 <=? n then Some n else None)
  | JStr s =>
      if str_isdigit s then
        if forallb is_digit (code_points s) then Ok (Some (int_of_digits 0 s))
        else Raise ValueError
      else Ok None
  | _ => Ok None
  end.

Definition parse_year (year : json) (out : dict) : result dict :=
  digits ← year_number year;
  match digits with
  | Some year_int =>
      Ok (dict_set "Año" (JDict [("$gte", JInt year_int); ("$lt", JInt (year_int + 1))]) out)
  | None => Ok out
  end.

Definition parse_filters_from_llm (llm_filters : json) : result dict :=
  if negb (truthy llm_filters) then Ok []
  else
    has_decada ← py_in "Decada" llm_filters;
    out ← (if has_decada : bool
           then val ← py_item "Decada" llm_filters; Ok (parse_decada val [])
           else Ok []);
    out ← match llm_filters with
          | JDict d => Ok (parse_genre genre_keys d out)
          | _ =>
              hit ← map_result (fun key => py_in key llm_filters) genre_keys;
              if existsb (fun b : bool => b) hit then Raise TypeError else Ok out
          end;
    has_year ← py_in "year" llm_filters;
    if has_year : bool
    then year ← py_item "year" llm_filters; parse_year year out
    else Ok out.

(** ** [filter_utils.py]: [enrich_filters_with_acoustics] *)

Definition between (a b : json) : json := JDict [("$gte", a); ("$lte", b)].
Definition at_least (a : json) : json := JDict [("$gte", a)].
Definition at_most (a : json) : json := JDict [("$lte", a)].

Definition emotional_acoustic_profiles : list (string * dict) :=
  [ ("alegre",
     [ ("TempoBPM", between (JInt 110) (JInt 140));
       ("EnergyRMS", at_least (JFloat 0.20));
       ("EMO_Lyrics", JStr "Joy / Happy");
       ("EMO_Sound", JStr "Energetic / Uplifting") ]);
    ("feliz",
     [ ("TempoBPM", between (JInt 100) (JInt 135));
       ("EnergyRMS", at_least (JFloat 0.18));
       ("EMO_Lyrics", JStr "Joy / Happy");
       ("EMO_Sound", JStr "Energetic / Uplifting") ]);
    ("contento",
     [ ("TempoBPM", between (JInt 95) (JInt 130));
       ("EnergyRMS", at_least (JFloat 0.16));
       ("EMO_Lyrics", JStr "Joy / Happy");
       ("EMO_Sound", JStr "Groovy / Positive") ]);
    ("bailable",
     [ ("TempoBPM", between (JInt 115) (JInt 130));
       ("EnergyRMS", at_least (JFloat 0.22));
       ("EMO_Sound", JStr "Energetic / Uplifting");
       ("EMO_Context1", JStr "Celebración y vida social") ]);
    ("fiesta",
     [ ("TempoBPM", between (JInt 120) (JInt 140));
       ("EnergyRMS", at_least (JFloat 0.25));
       ("EMO_Sound", JStr "Energetic / Uplifting");
       ("EMO_Context1", JStr "Celebración y vida social") ]);
    ("baile",
     [ ("TempoBPM", between (JInt 110) (JInt 135));
       ("EnergyRMS", at_least (JFloat 0.20));
       ("EMO_Context1", JStr "Celebración y vida social") ]);
    ("energético",
     [ ("TempoBPM", at_least (JInt 130));
       ("EnergyRMS", at_least (JFloat 0.28));
       ("EMO_Sound", JStr "Energetic / Uplifting") ]);
    ("intenso",
     [ ("TempoBPM", at_least (JInt 140));
       ("EnergyRMS", at_least (JFloat 0.30));
       ("EMO_Sound", JStr "Energetic / Uplifting") ]);
    ("potente",
     [ ("TempoBPM", at_least (JInt 125));
       ("EnergyRMS", at_least (JFloat 0.26));
       ("EMO_Sound", JStr "Energetic / Uplifting") ]);
    ("tranquilo",
     [ ("TempoBPM", at_most (JInt 100));
       ("EnergyRMS", at_most (JFloat 0.15));
       ("EMO_Sound", JStr "Calm / Neutral") ]);
    ("relajante",
     [ ("TempoBPM", at_most (JInt 90));
       ("EnergyRMS", at_most (JFloat 0.12));
       ("EMO_Sound", JStr "Calm / Neutral") ]);
    ("calma",
     [ ("TempoBPM", at_most (JInt 85));
       ("EnergyRMS", at_most (JFloat 0.10));
       ("EMO_Sound", JStr "Calm / Neutral") ]);
    ("suave",
     [ ("TempoBPM", at_most (JInt 95));
       ("EnergyRMS", at_most (JFloat 0.14));
       ("EMO_Sound", JStr "Calm / Neutral") ]);
    ("triste",
     [ ("TempoBPM", at_most (JInt 80));
       ("EnergyRMS", at_most (JFloat 0.12));
       ("EMO_Lyrics", JStr "Sadness");
       ("EMO_Sound", JStr "Sad / Melancholic") ]);
    ("melancólico",
     [ ("TempoBPM", at_most (JInt 75));
       ("EnergyRMS", at_most (JFloat 0.10));
       ("EMO_Lyrics", JStr "Sadness");
       ("EMO_Sound", JStr "Sad / Melancholic") ]);
    ("nostalgia",
     [ ("TempoBPM", at_most (JInt 95));
       ("EnergyRMS", at_most (JFloat 0.18));
       ("EMO_Lyrics", JStr "Sadness");
       ("EMO_Context1", JStr "Dolor y pérdida") ]);
    ("romántico",
     [ ("TempoBPM", at_most (JInt 100));
       ("EnergyRMS", at_most (JFloat 0.16));
       ("EMO_Lyrics", JStr "Love / Romantic");
       ("EMO_Context1", JStr "Amor y deseo") ]);
    ("amor",
     [ ("TempoBPM", at_most (JInt 110));
       ("EnergyRMS", at_most (JFloat 0.20));
       ("EMO_Lyrics", JStr "Love / Romantic");
       ("EMO_Context1", JStr "Amor y deseo") ]);
    ("pasión",
     [ ("TempoBPM", at_most (JInt 105));
       ("EnergyRMS", at_most (JFloat 0.22));
       ("EMO_Lyrics", JStr "Love / Romantic");
       ("EMO_Context1", JStr "Amor y deseo") ]);
    ("enojo",
     [ ("TempoBPM", at_least (JInt 120));
       ("EnergyRMS", at_least (JFloat 0.24));
       ("EMO_Lyrics", JStr "Anger");
       ("EMO_Context1", JStr "Conflicto y traición") ]);
    ("ira",
     [ ("TempoBPM", at_least (JInt 130));
       ("EnergyRMS", at_least (JFloat 0.28));
       ("EMO_Lyrics", JStr "Anger");
       ("EMO_Context1", JStr "Conflicto y traición") ]);
    ("superación",
     [ ("TempoBPM", between (JInt 100) (JInt 130));
       ("EnergyRMS", at_least (JFloat 0.18));
       ("EMO_Context1", JStr "Superación y resiliencia") ]);
    ("motivación",
     [ ("TempoBPM", between (JInt 105) (JInt 135));
       ("EnergyRMS", at_least (JFloat 0.20));
       ("EMO_Context1", JStr "Superación y resiliencia") ]);
    ("espiritual",
     [ ("TempoBPM", at_most (JInt 95));
       ("EnergyRMS", at_most (JFloat 0.16));
       ("EMO_Context1", JStr "Existencial / espiritual") ]);
    ("existencial",
     [ ("TempoBPM", at_most (JInt 90));
       ("EnergyRMS", at_most (JFloat 0.14));
       ("EMO_Context1", JStr "Existencial / espiritual") ]) ].

Definition tempo_ranges : list (string * json) :=
  [ ("rápido", at_least (JInt 130)); ("lento", at_most (JInt 80));
    ("medio", between (JInt 90) (JInt 120)) ].

Definition emotion_indicators : list string :=
  [ "alegre"; "feliz"; "contento"; "alegría"; "felicidad"; "optimismo"; "amor";
    "romántico"; "romance"; "pasión"; "corazón"; "enamorado"; "triste"; "tristeza";
    "melancolía"; "melancólico"; "dolor"; "pena"; "enojo"; "ira"; "enfado"; "rabia";
    "furia"; "miedo"; "temor"; "ansiedad"; "pánico"; "fiesta"; "celebración";
    "baile"; "juerga"; "diversión"; "superación"; "motivación"; "inspiración";
    "esperanza"; "espiritual"; "existencial"; "fe"; "religión"; "destino" ].

Definition contains_emotion_indicator (text : string) : bool :=
  if String.eqb text "" then false else any_in emotion_indicators (str_lower text).

(** [if field not in f: f[field] = value] *)
Definition set_if_absent (field : string) (value : json) (f : dict) : dict :=
  if dict_has field f then f else dict_set field value f.

Definition apply_profile (profile : dict) (f : dict) : dict :=
  fold_left (fun f kv => set_if_absent (fst kv) (snd kv) f) profile f.

Definition enrich_filters_with_acoustics (text : string) (filters : dict) : dict :=
  let text_low := str_lower text in
  let f := filters in
  let applied_profile :=
    List.find (fun p => str_contains (fst p) text_low) emotional_acoustic_profiles in
  let f := match applied_profile with
           | Some (_, profile) => apply_profile profile f
           | None => f
           end in
  let f := fold_left
             (fun f tr => if str_contains (fst tr) text_low then set_if_absent "TempoBPM" (snd tr) f
                          else f)
             tempo_ranges f in
  let f :=
    if str_contains "alta energía" text_low && negb (dict_has "EnergyRMS" f)
    then dict_set "EnergyRMS" (at_least (JFloat 0.25)) f
    else if str_contains "baja energía" text_low && negb (dict_has "EnergyRMS" f)
    then dict_set "EnergyRMS" (at_most (JFloat 0.12)) f
    else f in
  match applied_profile with
  | Some _ => f
  | None =>
      if contains_emotion_indicator text then
        if any_in ["alegre"; "feliz"; "fiesta"; "baile"; "celebración"] text_low then
          set_if_absent "EMO_Sound"
            (JDict [("$in", JList [JStr "Energetic / Uplifting"; JStr "Groovy / Positive"])])
            (set_if_absent "EnergyRMS" (at_least (JFloat 0.18))
               (set_if_absent "TempoBPM" (between (JInt 100) (JInt 135)) f))
        else if any_in ["triste"; "melancolía"; "nostalgia"; "dolor"] text_low then
          set_if_absent "EMO_Sound"
            (JDict [("$in", JList [JStr "Sad / Melancholic"; JStr "Calm / Neutral"])])
            (set_if_absent "EnergyRMS" (at_most (JFloat 0.15))
               (set_if_absent "TempoBPM" (at_most (JInt 95)) f))
        else if any_in ["amor"; "romántico"; "pasión"] text_low then
          set_if_absent "EMO_Lyrics" (JStr "Love / Romantic")
            (set_if_absent "EnergyRMS" (at_most (JFloat 0.20))
               (set_if_absent "TempoBPM" (at_most (JInt 110)) f))
        else f
      else f
  end.

(** [has_country_filters] *)
Definition has_country_filters (filters : dict) : bool :=
  existsb (fun indicator => dict_has indicator filters)
    ["ArtistArea"; "TopCountry1"; "TopCountry2"; "TopCountry3"; "country"].

(** ** [services.py]: the tiered catalog search *)

(** [re.escape] *)
Definition re_special_char (c : ascii) : bool :=
  str_contains (String c EmptyString) "()[]{}?*+-|^$\.&~# " || ((9 <=? code c) && (code c <=? 13))%N.

Fixpoint re_escape (s : string) : string :=
  match s with
  | EmptyString => EmptyString
  | String c s' =>
      if re_special_char c then String "\" (String c (re_escape s'))
      else String c (re_escape s')
  end.

Definition regex_i (pattern : string) : json :=
  JDict [("$regex", JStr pattern); ("$options", JStr "i")].

Record search_state : Type := mkSearch {
  results : list Track;
  seen_rutas : gset string
}.

(** the loop [for f in found: ...] shared by the four tiers *)
Fixpoint absorb (limit : Z) (found : list Track) (st : search_state) : search_state :=
  match found with
  | [] => st
  | f :: found' =>
      match Ruta f with
      | Some ruta =>
          if negb (String.eqb ruta "") && negb (bool_decide (ruta ∈ seen_rutas st)) then
            let st' := mkSearch (results st ++ [f]) ({[ruta]} ∪ seen_rutas st) in
            if limit <=? Z.of_nat (length (results st')) then st'
            else absorb limit found' st'
          else absorb limit found' st
      | None => absorb limit found' st
      end
  end.

(** [len(v)] *)
Definition py_len (v : json) : result Z :=
  match v with
  | JStr s => Ok (Z.of_nat (str_length s))
  | JList l => Ok (Z.of_nat (length l))
  | JDict d => Ok (Z.of_nat (length d))
  | _ => Raise TypeError
  end.

(** the characters of a text, each as a text *)
Definition chars (s : string) : list json := map (fun c => JStr (utf8_char c)) (code_points s).

(** the values produced by [for s in v], for a sized [v] *)
Definition py_iter (v : json) : list json :=
  match v with
  | JList l => l
  | JDict d => map (fun kv => JStr (fst kv)) d
  | JStr s => chars s
  | _ => []
  end.

(** [(s.get(k) or "").strip()] *)
Definition suggestion_field (k : string) (s : json) : result string :=
  v ← body_get k s;
  if truthy v then str_strip <$> as_str v else Ok EmptyString.

(** the Mongo query of one suggestion; [None] is the [continue] *)
Definition suggestion_query (titulo artista album : string) (normalized_filters : dict)
  : option json :=
  let clause field value :=
    if String.eqb value "" then [] else [JDict [(field, regex_i (re_escape value))]] in
  let or_clauses :=
    (clause "Titulo" titulo ++ clause "Artista" artista ++ clause "Album" album)%list in
  let and_clauses :=
    ((match or_clauses with [] => [] | _ => [JDict [("$or", JList or_clauses)]] end)
     ++ (match normalized_filters with [] => [] | _ => [JDict normalized_filters] end))%list in
  match and_clauses with
  | [] => None
  | [q] => Some q
  | _ => Some (JDict [("$and", JList and_clauses)])
  end.

(** tier 1, the loop over the suggestions *)
Fixpoint tier_suggestions (E : Collaborators) (normalized_filters : dict) (limit : Z)
    (sugerencia : list json) (st : search_state) : result search_state :=
  match sugerencia with
  | [] => Ok st
  | s :: rest =>
      if limit <=? Z.of_nat (length (results st)) then Ok st
      else
        titulo ← suggestion_field "titulo" s;
        artista ← suggestion_field "artista" s;
        album ← suggestion_field "album" s;
        match suggestion_query titulo artista album normalized_filters with
        | None => tier_suggestions E normalized_filters limit rest st
        | Some query =>
            let found :=
              match find E query with
              | Ok rows => cursor_limit 5 rows
              | Raise _ => []
              end in
            tier_suggestions E normalized_filters limit rest (absorb limit found st)
        end
  end.

(** tier 2, the direct query by filters *)
Definition tier_direct (E : Collaborators) (normalized_filters : dict) (limit : Z)
    (st : search_state) : search_state :=
  if (Z.of_nat (length (results st)) <? limit) && truthy (JDict normalized_filters) then
    match find_sorted E (JDict normalized_filters) with
    | Ok rows => absorb limit (cursor_limit (limit * 2) rows) st
    | Raise _ => st
    end
  else st.

(** tier 3, the decade alone *)
Definition tier_decade (E : Collaborators) (normalized_filters : dict) (limit : Z)
    (st : search_state) : search_state :=
  match dict_get "Decada" normalized_filters with
  | Some decade =>
      if Z.of_nat (length (results st)) <? limit then
        match find_sorted E (JDict [("Decada", decade)]) with
        | Ok rows => absorb limit (cursor_limit limit rows) st
        | Raise _ => st
        end
      else st
  | None => st
  end.

(** [[w for w in re.split(r"\W+", text) if len(w) > 3]] *)
Definition re_nonword : regex := plus (fun c => negb (is_word c)).

Definition keywords (text : string) : list string :=
  List.filter (fun w => (3 <? str_length w)%nat) (re_split re_nonword text).

(** the [$or] of case-insensitive regexes on the given fields *)
Definition keyword_query (fields : list string) (words : list string) : json :=
  JDict [("$or", JList (concat (map (fun field => map (fun w => JDict [(field, regex_i w)]) words)
                                    fields)))].

(** tier 4, the keyword fallback; the store's exception is not caught *)
Definition tier_keywords (E : Collaborators) (sugerencia : json) (normalized_filters : dict)
    (limit : Z) (user_prompt : option string) (st : search_state) : result search_state :=
  match user_prompt with
  | Some prompt =>
      if (Z.of_nat (length (results st)) <? limit) && negb (truthy sugerencia)
         && negb (truthy (JDict normalized_filters)) && negb (String.eqb prompt "") then
        match keywords prompt with
        | [] => Ok st
        | words =>
            rows ← find E (keyword_query ["Genero"; "Titulo"; "Artista"] words);
            Ok (absorb limit (cursor_limit limit rows) st)
        end
      else Ok st
  | None => Ok st
  end.

Definition search_tracks_in_mongo (E : Collaborators) (sugerencia llm_filters : json)
    (limit : Z) (user_prompt : option string) : result (list Track) :=
  let st := mkSearch [] ∅ in
  normalized_filters ← parse_filters_from_llm (py_or llm_filters (JDict []));
  _ ← py_len sugerencia;
  st ← (if truthy sugerencia
        then tier_suggestions E normalized_filters limit (py_iter sugerencia) st
        else Ok st);
  let st := tier_direct E normalized_filters limit st in
  let st := tier_decade E normalized_filters limit st in
  st ← tier_keywords E sugerencia normalized_filters limit user_prompt st;
  Ok (results st).

(** ** [finalize.py]: the response *)

(** The response dictionary of [finalize_enhanced_response].  The timing
    metrics are left out, and so are the [StreamURL] and [CoverURL] fields
    the function adds to each track. *)
Record Response : Type := mkResponse {
  query_original : string;
  playlist_name : string;
  (** the value of the key [results] *)
  items : list Track;
  total : Z;
  phase : Z;
  filters_applied : dict;
  limit_requested : Z;
  llm_analysis : option dict
}.

Definition finalize_enhanced_response (prompt : string) (filters : dict) (tracks : list Track)
    (iterations limit : Z) (llm_analysis : option dict) : Response :=
  mkResponse prompt (str_take 60 prompt) tracks (Z.of_nat (length tracks)) iterations filters
    limit
    (match llm_analysis with
     | Some (kv :: d) => Some (kv :: d)
     | _ => None
     end).

(** ** [postprocessing_utils.py]: [extract_validated_tracks] *)

(** [t in validated] when [validated] is a list proposed by the model *)
Definition proposed (E : Collaborators) (validated : list json) (t : Track) : bool :=
  existsb (fun v => match track_of_json E v with
                    | Ok t' => bool_decide (t = t')
                    | Raise _ => false
                    end) validated.

(** The list handed to the last post-processing.  A list proposed by the
    model is completed from [local_tracks] and cut to [limit]; what is left
    of it is then read with [track_of_json], which stands for the first
    operation of the post-processing on each element
    ([t["PopularityScore"] = ...]). *)
Definition extract_validated_tracks (E : Collaborators) (result3 : json)
    (local_tracks : list Track) (limit : Z) : result (list Track) :=
  let validated :=
    match result3 with
    | JDict d => py_or (dict_get_default "suggestions" (JList []) d) JNull
    | JList l => JList l
    | _ => JNull
    end in
  match validated with
  | JList (v :: l) =>
      let proposed_list := v :: l in
      if Z.of_nat (length proposed_list) <? limit then
        let additional := List.filter (fun t => negb (proposed E proposed_list t)) local_tracks in
        head_tracks ← map_result (track_of_json E) proposed_list;
        Ok (head_tracks
            ++ firstn (Z.to_nat (limit - Z.of_nat (length proposed_list))) additional)%list
      else map_result (track_of_json E) (py_slice_to limit proposed_list)
  | JStr s =>
      if Z.of_nat (str_length s) <? limit then Raise TypeError
      else match py_slice_to limit (chars s) with
           | [] => Ok []
           | _ => Raise TypeError
           end
  | JDict _ | JInt _ | JFloat _ | JBool _ => Raise TypeError
  | _ => Ok (py_slice_to limit local_tracks)
  end.

(** ** [services.py]: the emergency fallback *)

Definition emergency_fallback (E : Collaborators) (user_prompt : string) (limit : Z)
    (error_msg : exn) : result Response :=
  let keyword_branch : result (option Response) :=
    match keywords (str_lower user_prompt) with
    | [] => Ok None
    | words =>
        rows ← find E (keyword_query ["Genero"; "Titulo"; "Artista"] words);
        let fallback_tracks := cursor_limit (limit * 2) rows in
        processed ← apply_intelligent_postprocessing E fallback_tracks user_prompt limit;
        Ok (Some (finalize_enhanced_response user_prompt
                    [("fallback", JBool true); ("error", JStr error_msg)]
                    processed 0 limit None))
    end in
  match keyword_branch with
  | Ok (Some response) => Ok response
  | _ =>
      rows ← find_sorted E (JDict []);
      let random_tracks := cursor_limit limit rows in
      processed_random ← apply_intelligent_postprocessing E random_tracks user_prompt limit;
      Ok (finalize_enhanced_response user_prompt [("emergency_fallback", JBool true)]
            processed_random 0 limit None)
  end.

(** ** [services.py]: [hybrid_playlist_cycle_enhanced] *)

(** [result.get("filters", {}) if isinstance(result, dict) else {}] *)
Definition reply_filters (result : json) : json :=
  match result with
  | JDict d => dict_get_default "filters" (JDict []) d
  | _ => JDict []
  end.

(** [result.get("suggestions", []) if isinstance(result, dict) else []] *)
Definition reply_suggestions (result : json) : json :=
  match result with
  | JDict d => dict_get_default "suggestions" (JList []) d
  | _ => JList []
  end.

(** step 6: the country of the intent is written over the model's filters *)
Definition force_country_filter (llm_analysis : dict) (llm_filters : json) : result json :=
  if truthy (dict_get_none "country" llm_analysis) then
    d ← as_dict llm_filters;
    Ok (JDict (dict_set "country_type"
                 (dict_get_default "country_type" (JStr "origin") llm_analysis)
                 (dict_set "country" (dict_get_none "country" llm_analysis) d)))
  else Ok llm_filters.

(** phase 3 and the final response *)
Definition phase3 (E : Collaborators) (user_prompt : string) (filters analysis : dict)
    (adjusted_limit : Z) (final_processed_phase2 : list Track) : result Response :=
  let enriched_context := collect_enriched_context E in
  let phase3_prompt :=
    build_validation_prompt_with_country E user_prompt filters final_processed_phase2
      enriched_context analysis in
  let result3 := py_or (call_ollama_safe E phase3_prompt) (JDict []) in
  validated ← extract_validated_tracks E result3 final_processed_phase2 adjusted_limit;
  final_tracks ← apply_intelligent_postprocessing E validated user_prompt adjusted_limit;
  Ok (finalize_enhanced_response user_prompt filters final_tracks 3 adjusted_limit
        (Some analysis)).

(** phase 2, entered when phase 1 is short *)
Definition phase2 (E : Collaborators) (user_prompt : string) (filters analysis : dict)
    (adjusted_limit : Z) (processed_tracks_phase1 : list Track) : result Response :=
  let enriched_context := collect_enriched_context E in
  let missing := adjusted_limit - Z.of_nat (length processed_tracks_phase1) in
  let phase2_prompt :=
    build_completion_prompt_with_country E user_prompt filters processed_tracks_phase1
      enriched_context missing analysis in
  let result2 := py_or (call_ollama_safe E phase2_prompt) (JDict []) in
  let suggestions2 := reply_suggestions result2 in
  let new_filters := reply_filters result2 in
  _ ← py_len suggestions2;
  filters ← (if truthy new_filters
             then dict_update filters <$> parse_filters_from_llm new_filters
             else Ok filters);
  local_tracks2 ← search_tracks_in_mongo E suggestions2 (JDict filters) (missing * 2)
                    (Some user_prompt);
  processed_tracks2 ← apply_intelligent_postprocessing E local_tracks2 user_prompt missing;
  let all_tracks_phase2 := (processed_tracks_phase1 ++ processed_tracks2)%list in
  final_processed_phase2 ←
    apply_intelligent_postprocessing E all_tracks_phase2 user_prompt adjusted_limit;
  if adjusted_limit <=? Z.of_nat (length final_processed_phase2)
  then Ok (finalize_enhanced_response user_prompt filters final_processed_phase2 2
             adjusted_limit (Some analysis))
  else phase3 E user_prompt filters analysis adjusted_limit final_processed_phase2.

(** the body of the [try] *)
Definition hybrid_cycle_body (E : Collaborators) (user_prompt : string) (default_limit : Z)
    (llm_analysis : option dict) : result Response :=
  let enriched_context := collect_enriched_context E in
  let analysis :=
    match llm_analysis with
    | Some a => a
    | None => analyze_query_intent E user_prompt
    end in
  let analysis := enhance_region_detection analysis user_prompt in
  let adjusted_limit := adjust_limit_based_on_complexity user_prompt default_limit analysis in
  let phase1_prompt :=
    build_enhanced_prompt_with_country E user_prompt enriched_context analysis in
  let result := py_or (call_ollama_safe E phase1_prompt) (JDict []) in
  let llm_filters := reply_filters result in
  let suggestions := reply_suggestions result in
  _ ← py_len suggestions;
  llm_filters ← force_country_filter analysis llm_filters;
  filters ← parse_filters_from_llm llm_filters;
  let filters := enrich_filters_with_acoustics user_prompt filters in
  local_tracks ← search_tracks_in_mongo E suggestions (JDict filters) adjusted_limit
                   (Some user_prompt);
  processed_tracks_phase1 ←
    apply_intelligent_postprocessing E local_tracks user_prompt adjusted_limit;
  if adjusted_limit <=? Z.of_nat (length processed_tracks_phase1)
  then Ok (finalize_enhanced_response user_prompt filters processed_tracks_phase1 1
             adjusted_limit (Some analysis))
  else phase2 E user_prompt filters analysis adjusted_limit processed_tracks_phase1.

Definition hybrid_playlist_cycle_enhanced (E : Collaborators) (user_prompt : string)
    (default_limit : Z) (llm_analysis : option dict) : result Response :=
  try_except (hybrid_cycle_body E user_prompt default_limit llm_analysis)
    (fun e => emergency_fallback E user_prompt default_limit e).

(** ** [popularity_utils.py]: the scoring functions over the reals

    The floats of the scoring engine are read as real numbers: [math.log1p]
    is [ln (1 + x)], [math.sqrt] is [sqrt], and [round(x, n)] rounds to the
    nearest multiple of [10 ^ -n], a tie going to the even one. *)

Module PopularityUtils.

Local Open Scope R_scope.

(** [round(x)]: the nearest integer, a tie going to the even one *)
Definition round_half_even (x : R) : Z :=
  let n := Int_part x in
  let d := x - IZR n in
  if Rlt_dec d (1 / 2) then n
  else if Rlt_dec (1 / 2) d then (n + 1)%Z
  else if Z.even n then n else (n + 1)%Z.

(** [round(x, ndigits)] *)
Definition round (x : R) (ndigits : nat) : R :=
  IZR (round_half_even (x * 10 ^ ndigits)) / 10 ^ ndigits.

(** [math.log1p]: a [ValueError] at and below [-1] *)
Definition log1p (x : R) : result R :=
  if Rle_dec x (-1) then Raise ValueError else Ok (ln (1 + x)).

Definition norm_safe (value max_value : R) : R :=
  if Rlt_dec 0 max_value then value / max_value else 0.

(** the dictionary returned by [get_global_max_values] *)
Record corpus_max : Type := mkCorpusMax {
  playcount : R;
  listeners : R;
  youtube : R
}.

(** [float(track.get(k, 0))] *)
Definition metric (o : option Z) : R := IZR (int_or_zero o).

(** [norm_safe(math.log1p(float(track.get(k, 0))), math.log1p(global_max[k']))] *)
Definition normalised (o : option Z) (max_value : R) : result R :=
  value ← log1p (metric o);
  max_value ← log1p max_value;
  Ok (norm_safe value max_value).

(** the body of the [try] of [compute_popularity] *)
Definition weighted_score (track : Track) (global_max : corpus_max) : result R :=
  play ← normalised (LastFMPlaycount track) (playcount global_max);
  listeners ← normalised (LastFMListeners track) (listeners global_max);
  youtube ← normalised (YouTubeViews track) (youtube global_max);
  let score := play * 0.5 + listeners * 0.3 + youtube * 0.2 in
  Ok (round score 4).

Definition compute_popularity (track : Track) (global_max : corpus_max) : R :=
  match weighted_score track global_max with
  | Ok score => score
  | Raise _ => 0
  end.

(** [by_genre.setdefault(genre, []).append(t)] on a dictionary kept in
    insertion order *)
Fixpoint setdefault_append {A : Type} (g : string) (t : A)
    (by_genre : list (string * list A)) : list (string * list A) :=
  match by_genre with
  | [] => [(g, [t])]
  | (g', group) :: rest =>
      if String.eqb g' g then (g', (group ++ [t])%list) :: rest
      else (g', group) :: setdefault_append g t rest
  end.

(** [max(scores) if scores else 1] *)
Definition max_score (scores : list R) : R :=
  match scores with
  | [] => 1
  | x :: rest => fold_left Rmax rest x
  end.

(** the curve of one track; [math.sqrt] raises on a negative [rel] *)
Definition relative_score (score max_score : R) : result R :=
  let rel := norm_safe score max_score in
  if Rlt_dec rel 0 then Raise ValueError
  else
    let rel_adj := sqrt rel * 0.8 + 0.2 in
    Ok (round rel_adj 4).

(** a track, its [PopularityScore] and its [RelativePopularityScore] *)
Definition scored : Type := Track * R * R.

(** A track comes with its [PopularityScore] when the document has one.
    The result lists the tracks bucket after bucket, with both scores. *)
Definition compute_relative_popularity_by_genre (global_max : corpus_max)
    (tracks : list (Track * option R)) : result (list scored) :=
  let by_genre :=
    fold_left
      (fun by_genre (t : Track * option R) =>
         let score :=
           match snd t with
           | Some score => score
           | None => compute_popularity (fst t) global_max
           end in
         setdefault_append (genre_bucket (fst t)) (fst t, score) by_genre)
      tracks [] in
  groups ← map_result
    (fun entry : string * list (Track * R) =>
       let group := snd entry in
       let max_score := max_score (map snd group) in
       map_result
         (fun t : Track * R =>
            relative ← relative_score (snd t) max_score;
            Ok (fst t, snd t, relative))
         group)
    by_genre;
  Ok (concat groups).

End PopularityUtils.

(** ** The country block of the monolithic [parse_filters_from_llm]

    Lines 225-241 of [playlist_api_refinedV15enchanced.py]: the first block
    of the function, which no later block overwrites when the request
    carries no decade list. *)

Module Monolith.

Definition anchored (country : string) : json :=
  regex_i ("^" ++ re_escape country ++ "$").

Definition country_block (llm_filters : dict) (out : dict) : result dict :=
  let country := dict_get_none "country" llm_filters in
  if truthy country then
    let country_type := dict_get_default "country_type" (JStr "origin") llm_filters in
    match country_type with
    | JStr "origin" =>
        c ← match country with JStr c => Ok c | _ => Raise TypeError end;
        Ok (dict_set "ArtistArea" (anchored c) out)
    | JStr "popular_in" =>
        c ← match country with JStr c => Ok c | _ => Raise TypeError end;
        Ok (dict_set "$or"
              (JList [ JDict [("TopCountry1", anchored c)];
                       JDict [("TopCountry2", anchored c)];
                       JDict [("TopCountry3", anchored c)] ]) out)
    | _ => Ok out
    end
  else Ok out.

(** *** The relative popularity of the monolith, over the reals *)

Local Open Scope R_scope.

(** [math.isclose(a, b)] with its default tolerances *)
Definition isclose (a b : R) : bool :=
  if Rle_dec (Rabs (a - b)) (1e-9 * Rmax (Rabs a) (Rabs b)) then true else false.

(** the bucket of a track in [genre_buckets] *)
Definition primary_genre (t : Track) : string :=
  match Genero t with
  | GList (g :: _) => str_lower g
  | GStr (String c s) => str_lower (String c s)
  | _ => "unknown"%string
  end.

(** [t.get("PopularityScore", 0.0)] *)
Definition popularity (o : option R) : R := default 0 o.

(** [min(l) if l else d] and [max(l) if l else d] *)
Definition min_or (d : R) (l : list R) : R :=
  match l with
  | [] => d
  | x :: rest => fold_left Rmin rest x
  end.

Definition max_or (d : R) (l : list R) : R :=
  match l with
  | [] => d
  | x :: rest => fold_left Rmax rest x
  end.

(** [genre_buckets[g]] *)
Definition genre_scores (tracks_list : list (Track * option R)) (g : string) : list R :=
  map (fun t => popularity (snd t))
      (List.filter (fun t => String.eqb (primary_genre (fst t)) g) tracks_list).

(** the body of the last loop for one track; [math.sqrt] raises on a
    negative [combined] *)
Definition relative_score (cnt : nat) (gmin gmax global_min global_max : R)
    (score : R) : result R :=
  let raw := Rmax 0 score in
  let raw_log := ln (1 + raw) in
  let norm_global := (raw_log - global_min) / (global_max - global_min) in
  let norm_genre :=
    if isclose gmax gmin then 1 else (raw - gmin) / (gmax - gmin) in
  let norm_genre :=
    if Rlt_dec norm_genre 0.1 then
      if Rlt_dec 0.6 raw then 0.25 + 0.5 * norm_global else norm_genre
    else norm_genre in
  let alpha := Rmin 0.95 (0.2 + 0.75 * (INR cnt / (INR cnt + 30))) in
  let combined := alpha * norm_genre + (1 - alpha) * norm_global in
  if Rlt_dec combined 0 then Raise ValueError
  else
    let combined := sqrt combined in
    let combined := 0.2 + 0.8 * combined in
    Ok (PopularityUtils.round combined 6).

(** The function updates the tracks in place; the model returns each
    track with the [RelativePopularityScore] it receives. *)
Definition compute_relative_popularity_by_genre
    (tracks_list : list (Track * option R)) : result (list (Track * R)) :=
  let all_scores := map (fun t => Rmax 0 (popularity (snd t))) tracks_list in
  let log_scores := map (fun s => ln (1 + s)) all_scores in
  let global_min := min_or 0 log_scores in
  let global_max := max_or 1 log_scores in
  let global_max :=
    if isclose global_max global_min then global_min + 1 else global_max in
  map_result
    (fun t : Track * option R =>
       let scores := genre_scores tracks_list (primary_genre (fst t)) in
       relative ← relative_score (length scores) (min_or 0 scores) (max_or 1 scores)
                    global_min global_max (popularity (snd t));
       Ok (fst t, relative))
    tracks_list.


End Monolith.

(** ** A reference catalog store

    A store over an explicit catalog, for running the engine on examples.
    It answers the queries the engine builds on the text fields: a
    case-insensitive [$regex] read as a literal (exact for the patterns built
    from [re.escape] and from [\w+] keywords), [$or], [$and] and the empty
    query; any other clause selects nothing. *)

Fixpoint unescape (s : string) : string :=
  match s with
  | String "\" (String c s') => String c (unescape s')
  | String c s' => String c (unescape s')
  | EmptyString => EmptyString
  end.

Definition text_matches (pattern : string) (value : option string) : bool :=
  match value with
  | Some v => str_contains (str_lower (unescape pattern)) (str_lower v)
  | None => false
  end.

Definition field_matches (field pattern : string) (t : Track) : bool :=
  if String.eqb field "Titulo" then text_matches pattern (Titulo t)
  else if String.eqb field "Artista" then text_matches pattern (Artista t)
  else if String.eqb field "Album" then text_matches pattern (Album t)
  else if String.eqb field "Genero" then
    match Genero t with
    | GStr g => text_matches pattern (Some g)
    | GList l => existsb (fun g => text_matches pattern (Some g)) l
    | GNone => false
    end
  else false.

Fixpoint mongo_matches (query : json) (t : Track) {struct query} : bool :=
  match query with
  | JDict d =>
      (fix all_clauses (d : list (string * json)) : bool :=
         match d with
         | [] => true
         | (k, v) :: d' =>
             (match v with
              | JList l =>
                  if String.eqb k "$or" then
                    (fix any (l : list json) : bool :=
                       match l with
                       | [] => false
                       | q :: l' => mongo_matches q t || any l'
                       end) l
                  else if String.eqb k "$and" then
                    (fix all (l : list json) : bool :=
                       match l with
                       | [] => true
                       | q :: l' => mongo_matches q t && all l'
                       end) l
                  else false
              | JDict [("$regex", JStr pattern); ("$options", JStr "i")] =>
                  field_matches k pattern t
              | _ => false
              end) && all_clauses d'
         end) d
  | _ => false
  end.

Definition stored_popularity (t : Track) : Z := int_or_zero (PopularityScore t).

(** a collaborator set for examples: the reference store over [catalog], a
    language-model endpoint that is down, a JSON parser that knows the
    empty object, scores that are the floor of the scale *)
Definition offline_engine (catalog : list Track) : Collaborators :=
  mkCollaborators
    (fun q => Ok (List.filter (mongo_matches q) catalog))
    (fun q => Ok (sorted_desc stored_popularity (List.filter (mongo_matches q) catalog)))
    (mkGlobalMax 1 1 1)
    (JDict [("artists", JList []); ("genres", JList []); ("decades", JList [])])
    (fun _ => Raise "ConnectionError")
    (fun _ => Raise "ConnectionError")
    (fun s => if String.eqb s "{}" then Some (JDict []) else None)
    (fun _ => "")
    (fun user_prompt _ _ => user_prompt)
    (fun user_prompt _ _ _ _ _ => user_prompt)
    (fun user_prompt _ _ _ _ => user_prompt)
    (fun _ _ => 0)
    (fun _ _ => 2000)
    (fun _ => Raise TypeError).

Definition sample_track : Track :=
  mkTrack (Some 1%N) (Some "Hello") (Some "World") (Some "Greetings") (Some "/music/hello.mp3")
    (GStr "rock") GNone (Some 320) (Some 0) (Some 0) (Some 0) None None.

(** ** Notions for the facts on strings *)

(** a Unicode code point *)
Definition valid (c : N) : Prop := (c < 1114112)%N.

(** a character that [lower] leaves as it is *)
Definition settled (c : N) : bool :=
  (negb (c =? 931) && negb (c =? 304) && (lower_char c =? c))%N.

(** [f] holds of [base], [base + 1], ..., [base + n] *)
Fixpoint all_from (n : nat) (base : N) (f : N -> bool) : bool :=
  f base && match n with O => true | S n' => all_from n' (base + 1)%N f end.

(** the lower-case mapping of [c] is a code point that [lower] leaves as it
    is *)
Definition lowers_well (c : N) : bool :=
  settled (lower_char c) && (lower_char c <? 1114112)%N.

(** every character in the span of a row of [lower_rows] has such a
    mapping *)
Definition rows_lower_well : bool :=
  forallb (fun row : N * N * N * N =>
             let '(lo, hi, _, _) := row in all_from (N.to_nat (hi - lo)%N) lo lowers_well)
          lower_rows.

(** ** Notions used by the properties *)

(** [t] is no better than [u]: lower bitrate, or the same bitrate and a
    popularity that is not higher *)
Definition no_better (t u : Track) : Prop :=
  int_or_zero (Bitrate t) < int_or_zero (Bitrate u)
  \/ (int_or_zero (Bitrate t) = int_or_zero (Bitrate u)
      /\ int_or_zero (PopularityScore t) <= int_or_zero (PopularityScore u)).

Definition fixture_remastered : Track :=
  mkTrack (Some 1%N) (Some "Song (Remastered 2009)") (Some "Artist") None (Some "/a.flac")
    GNone GNone (Some 320) None None None None None.

Definition fixture_plain : Track :=
  mkTrack (Some 2%N) (Some "Song") (Some "Artist") None (Some "/b.mp3")
    GNone GNone (Some 128) None None None None None.

(** number of elements of [l] that satisfy [p] *)
Definition count_where {A : Type} (p : A -> bool) (l : list A) : Z :=
  Z.of_nat (length (List.filter p l)).

(** the elements whose key [key_of] is [k] *)
Definition keyed {A : Type} (key_of : A -> string) (k : string) (t : A) : bool :=
  String.eqb (key_of t) k.

(** the normalised album name, second component of the (artist, album) pair *)
Definition album_name (t : Track) : string := str_lower (str_strip (str_or_empty (Album t))).

Definition same_pair (a b : string) (t : Track) : bool :=
  keyed artist_key a t && keyed album_name b t.

(** best first: scores never increase along the list *)
Definition best_first {A : Type} (key : A -> Z) (l : list A) : Prop :=
  StronglySorted (fun x y => key y <= key x) l.

(** the test of the admission loop, read on the tracks admitted so far *)
Definition admissible {A : Type} (artist_of album_of : A -> string)
    (max_per_artist max_per_album : Z) (before : list A) (t : A) : bool :=
  (count_where (keyed artist_of (artist_of t)) before <? max_per_artist)
  && (count_where (keyed album_of (album_of t)) before <? max_per_album).

(** the counters of the limiter count the admitted tracks *)
Definition counters_exact {A : Type} (artist_of album_of : A -> string)
    (st : limiter_state) : Prop :=
  (forall a, default 0 (artist_counts st !! a)
             = count_where (keyed artist_of a) (admitted st))
  /\ (forall k, default 0 (album_counts st !! k)
                = count_where (keyed album_of k) (admitted st)).

(** what the tiered search maintains: at most [limit] rows, each with a
    non-empty file reference recorded in [seen_rutas], no reference twice *)
Definition search_invariant (limit : Z) (st : search_state) : Prop :=
  Z.of_nat (length (results st)) <= Z.max 0 limit
  /\ NoDup (map Ruta (results st))
  /\ (forall t, In t (results st) ->
        exists ruta, Ruta t = Some ruta /\ ruta <> EmptyString /\ ruta ∈ seen_rutas st).

(** the same collaborators with another language-model endpoint *)
Definition with_ollama_post (E : Collaborators) (post : string -> result json) : Collaborators :=
  mkCollaborators (find E) (find_sorted E) (get_global_max_values E)
    (collect_enriched_context E) post (local_llm_post E) (json_loads E) (json_dumps E)
    (build_enhanced_prompt_with_country E) (build_completion_prompt_with_country E)
    (build_validation_prompt_with_country E) (compute_popularity E) (perceptual_curve E)
    (track_of_json E).

(** the text [call_ollama_safe] looks for JSON in *)
Definition reply_text (E : Collaborators) (data : dict) : json :=
  py_or (dict_get_none "response" data)
    (py_or (dict_get_none "completion" data) (JStr (json_dumps E (JDict data)))).

(** the call to the model for [prompt] fails (timeout, connection or HTTP
    error, a body that is no JSON object) or its text cannot be parsed as
    JSON after the repair attempts *)
Definition llm_call_lost (E : Collaborators) (prompt : string) : Prop :=
  match ollama_post E prompt with
  | Raise _ => True
  | Ok (JDict data) => extract_json_from_text E (reply_text E data) = JNull
  | Ok _ => True
  end.

(** a model that answers with zero suggestions and zero extra filters *)
Definition empty_model_answer : json :=
  JDict [("suggestions", JList []); ("filters", JDict [])].

(** what the three phases read of a reply *)
Definition same_for_the_phases (E : Collaborators) (r r' : json) : Prop :=
  reply_filters (py_or r (JDict [])) = reply_filters (py_or r' (JDict []))
  /\ reply_suggestions (py_or r (JDict [])) = reply_suggestions (py_or r' (JDict []))
  /\ forall local_tracks limit,
       extract_validated_tracks E (py_or r (JDict [])) local_tracks limit
       = extract_validated_tracks E (py_or r' (JDict [])) local_tracks limit.

(** the store answers every query *)
Definition store_answers (E : Collaborators) : Prop :=
  (forall q, exists rows, find E q = Ok rows)
  /\ (forall q, exists rows, find_sorted E q = Ok rows).

(** the raw popularity score is never negative *)
Definition scores_nonnegative (E : Collaborators) : Prop :=
  forall t g, 0 <= compute_popularity E t g.


(** no engagement metric of the track exceeds its corpus maximum *)
Definition within_maxima (track : Track) (global_max : PopularityUtils.corpus_max) : Prop :=
  (PopularityUtils.metric (LastFMPlaycount track) <= PopularityUtils.playcount global_max
   /\ PopularityUtils.metric (LastFMListeners track) <= PopularityUtils.listeners global_max
   /\ PopularityUtils.metric (YouTubeViews track) <= PopularityUtils.youtube global_max)%R.

(** the [PopularityScore]s that come with the tracks are not negative *)
Definition stored_scores_nonnegative (tracks : list (Track * option R)) : Prop :=
  forall t s, In (t, Some s) tracks -> (0 <= s)%R.

(** the [PopularityScore]s are not negative and within the range of a float *)
Definition float_scores (tracks : list (Track * option R)) : Prop :=
  forall t, In t tracks -> (0 <= Monolith.popularity (snd t) <= 2 ^ 1024)%R.

(** a track with engagement metrics, and corpus maxima above them *)
Definition played_track : Track :=
  mkTrack (Some 7%N) (Some "Hello") (Some "World") (Some "Greetings") (Some "/music/hello.mp3")
    (GStr "rock") GNone (Some 320) (Some 10) (Some 5) (Some 2) None None.

Definition played_max : PopularityUtils.corpus_max :=
  PopularityUtils.mkCorpusMax 100 50 20.

(** the text of a model answer with zero suggestions and zero filters *)
Definition empty_answer_text : string := quoted "{`suggestions`: [], `filters`: {}}".

(** a reply of the model endpoint that carries that text *)
Definition empty_reply (prompt : string) : result json :=
  Ok (JDict [("response", JStr empty_answer_text)]).

(** [offline_engine] with a JSON parser that also reads [empty_answer_text] *)
Definition scripted_engine (catalog : list Track) : Collaborators :=
  let E := offline_engine catalog in
  mkCollaborators (find E) (find_sorted E) (get_global_max_values E)
    (collect_enriched_context E) (ollama_post E) (local_llm_post E)
    (fun s => if String.eqb s empty_answer_text then Some empty_model_answer
              else json_loads E s)
    (json_dumps E)
    (build_enhanced_prompt_with_country E) (build_completion_prompt_with_country E)
    (build_validation_prompt_with_country E) (compute_popularity E) (perceptual_curve E)
    (track_of_json E).

(** four tracks of one artist, three of them on the same album *)
Definition album_track (n : N) (title album : string) (score : Z) : Track :=
  mkTrack (Some n) (Some title) (Some "Artist") (Some album) None
    GNone GNone (Some 320) None None None None (Some score).

(** five tracks of one artist under two spellings, each on its own album *)
Definition spelled_track (n : N) (artist album : string) (score : Z) : Track :=
  mkTrack (Some n) (Some "Title") (Some artist) (Some album) None
    GNone GNone (Some 320) None None None None (Some score).

Definition two_spellings : list Track :=
  [ spelled_track 1 "CAFÉ TACVBA" "Re" 9000; spelled_track 2 "Café Tacvba" "Sino" 8000;
    spelled_track 3 " café tacvba " "Cuatro Caminos" 7000;
    spelled_track 4 "Café Tacvba" "Avalancha de Éxitos" 6000;
    spelled_track 5 "CAFÉ TACVBA" "Revés" 5000 ].

(** two titles that canonicalise to the empty string *)
Definition untitled_pair : list Track :=
  [ mkTrack (Some 1%N) (Some "With or Without You") (Some "U2") None (Some "/u2.flac")
      GNone GNone (Some 320) None None None None None;
    mkTrack (Some 2%N) (Some "With a Little Help from My Friends") (Some "The Beatles") None
      (Some "/beatles.flac") GNone GNone (Some 320) None None None None None ].

Definition one_artist : list Track :=
  [ album_track 1 "One" "First" 9000; album_track 2 "Two" "First" 5000;
    album_track 3 "Three" "First" 7000; album_track 4 "Four" "Second" 3000 ].

(** ** [postprocessing_utils.py]: the other steps of the sibling pipeline *)

Module PostprocessingSteps.

Import PostprocessingUtils.

(** [str(t.get("id", "")).strip()] *)
Definition tid (t : track) : string := str_strip (default EmptyString (id t)).

(** [(t.get("artist") or "").strip()] and [(t.get("title") or "").strip()] *)
Definition artist_name (t : track) : string := str_strip (str_or_empty (artist t)).
Definition title_name (t : track) : string := str_strip (str_or_empty (title t)).

(** the f-string [combo] *)
Definition combo (t : track) : string :=
  str_lower (artist_name t) ++ "_" ++ str_lower (title_name t).

Record filter_state : Type := mkFilterState {
  clean : list track;
  seen_ids : gset string;
  seen_combo : gset string
}.

(** one turn of the loop of [filter_gross_incongruities] *)
Definition filter_step (st : filter_state) (t : track) : filter_state :=
  if String.eqb (artist_name t) "" || String.eqb (title_name t) "" then st
  else if bool_decide (combo t ∈ seen_combo st) || bool_decide (tid t ∈ seen_ids st) then st
  else mkFilterState (clean st ++ [t]) ({[ tid t ]} ∪ seen_ids st)
         ({[ combo t ]} ∪ seen_combo st).

Definition filter_gross_incongruities (tracks : list track) : list track :=
  clean (fold_left filter_step tracks (mkFilterState [] ∅ ∅)).

Section Sampling.

(** [random.sample]: the random source of [flexible_fallback_selection] *)
Variable sample : list track -> nat -> list track.

Definition flexible_fallback_selection (all_tracks existing : list track) (target_count : Z)
  : list track :=
  match all_tracks with
  | [] => existing
  | _ =>
      let existing_ids := map id existing in
      let existing_artists := map artist existing in
      let candidates :=
        List.filter
          (fun t => negb (bool_decide (id t ∈ existing_ids))
                    && negb (bool_decide (artist t ∈ existing_artists)))
          all_tracks in
      match candidates with
      | [] => existing
      | _ =>
          let need := Z.max 0 (target_count - Z.of_nat (length existing)) in
          let supplement :=
            sample candidates (Z.to_nat (Z.min need (Z.of_nat (length candidates)))) in
          (existing ++ supplement)%list
      end
  end.

Definition apply_limits_and_fallback (tracks all_tracks : list track)
    (max_total max_per_artist max_per_album : Z) : list track :=
  let clean := filter_gross_incongruities tracks in
  let limited := limit_tracks_by_artist_album clean max_per_artist max_per_album in
  let limited :=
    if Z.of_nat (length limited) <? max_total
    then flexible_fallback_selection all_tracks limited max_total
    else limited in
  py_slice_to max_total limited.

End Sampling.

End PostprocessingSteps.

(** what [random.sample] promises: [k] elements drawn from the population
    without replacement *)
Definition draws_without_replacement {A : Type} (sample : list A -> nat -> list A) : Prop :=
  forall population k,
    (k <= length population)%nat ->
    length (sample population k) = k /\ sample population k ⊆+ population.

(** *** Notions used by the properties of the sibling pipeline *)

(** a track [filter_gross_incongruities] can keep: it names an artist and a
    title *)
Definition named (t : PostprocessingUtils.track) : Prop :=
  PostprocessingSteps.artist_name t <> "" /\ PostprocessingSteps.title_name t <> "".

(** what the loop of [filter_gross_incongruities] maintains, [seen] being
    the tracks read so far *)
Definition filter_invariant (seen : list PostprocessingUtils.track)
    (st : PostprocessingSteps.filter_state) : Prop :=
  sublist (PostprocessingSteps.clean st) seen
  /\ (forall t, In t (PostprocessingSteps.clean st) -> named t)
  /\ NoDup (map PostprocessingSteps.combo (PostprocessingSteps.clean st))
  /\ NoDup (map PostprocessingSteps.tid (PostprocessingSteps.clean st))
  /\ (forall x, x ∈ PostprocessingSteps.seen_ids st
                <-> In x (map PostprocessingSteps.tid (PostprocessingSteps.clean st)))
  /\ (forall x, x ∈ PostprocessingSteps.seen_combo st
                <-> In x (map PostprocessingSteps.combo (PostprocessingSteps.clean st)))
  /\ (forall t, In t seen -> named t ->
        exists u, In u (PostprocessingSteps.clean st)
                  /\ (PostprocessingSteps.combo u = PostprocessingSteps.combo t
                      \/ PostprocessingSteps.tid u = PostprocessingSteps.tid t)).

(** a supplement drawn from [all_tracks] that repeats no identifier and no
    artist of [existing] *)
Definition fresh_for (existing all_tracks supplement : list PostprocessingUtils.track) : Prop :=
  supplement ⊆+ all_tracks
  /\ forall t, In t supplement ->
       ~ In (PostprocessingUtils.id t) (map PostprocessingUtils.id existing)
       /\ ~ In (PostprocessingUtils.artist t) (map PostprocessingUtils.artist existing).

(** simplified tracks for examples *)
Definition simple_track (i a t : string) : PostprocessingUtils.track :=
  PostprocessingUtils.mkTrack (Some i) (Some t) (Some a) None.

(** ** Notions used by the properties of the filters *)

(** the fields [enrich_filters_with_acoustics] can add *)
Definition acoustic_fields : list string :=
  ["TempoBPM"; "EnergyRMS"; "EMO_Lyrics"; "EMO_Sound"; "EMO_Context1"].

(** the entries of [d] are entries of [d'], and [d'] has no other key than
    those and the keys of [fields] *)
Definition extends_with (fields : list string) (d d' : dict) : Prop :=
  (forall k v, dict_get k d = Some v -> dict_get k d' = Some v)
  /\ (forall k, ~ In k fields -> dict_get k d' = dict_get k d).

(** the keys [parse_filters_from_llm] reads *)
Definition parsed_keys : list string := "Decada" :: "year" :: genre_keys.

(** what the values of a parsed filter map look like *)
Definition parsed_shape (out : dict) : Prop :=
  (forall v, dict_get "Genero" out = Some v ->
             exists d, v = JDict d /\ dict_has "$regex" d = true)
  /\ (forall v, dict_get "Decada" out = Some v ->
                (exists s, v = JStr s) \/ (exists d, v = JDict d)).

(** ** Notions used by the properties of the post-processing *)

(** the fields of a catalog row other than the two scores *)
Definition same_recording (t u : Track) : Prop :=
  doc_id u = doc_id t /\ Titulo u = Titulo t /\ Artista u = Artista t /\ Album u = Album t
  /\ Ruta u = Ruta t /\ Genero u = Genero t /\ genre u = genre t /\ Bitrate u = Bitrate t
  /\ LastFMPlaycount u = LastFMPlaycount t /\ LastFMListeners u = LastFMListeners t
  /\ YouTubeViews u = YouTubeViews t.

(** what every list returned by the post-processing satisfies *)
Definition postprocessed (E : Collaborators) (tracks : list Track) (user_prompt : string)
    (final : list Track) : Prop :=
  NoDup (map dedupe_key final)
  /\ best_first rel_key final
  /\ (forall u, In u final -> congruent user_prompt u = true)
  /\ (forall u, In u final ->
        exists t, In t tracks /\ same_recording t u
                  /\ PopularityScore u = Some (compute_popularity E t (get_global_max_values E))
                  /\ exists r, RelativePopularityScore u = Some r).

(** the items of a response are a list the post-processing returned *)
Definition from_postprocessing (E : Collaborators) (user_prompt : string)
    (response : Response) : Prop :=
  exists tracks limit,
    apply_intelligent_postprocessing E tracks user_prompt limit = Ok (items response).

(** the canonical title of a track, as [deduplicate_tracks_by_title_keep_best]
    computes it *)
Definition title_key (t : Track) : string :=
  normalize_title_for_dedupe (str_or_empty (Titulo t)).

(** ** Facts on strings: UTF-8 and [lower] *)

Section StringFacts.
Local Open Scope N_scope.

Ltac Zify.zify_post_hook ::= Z.to_euclidean_division_equations.

Lemma code_byte n : n < 256 -> code (byte n) = n.
Proof. apply N_ascii_embedding. Qed.

Ltac decide_tests :=
  repeat match goal with
         | |- context [?a <? ?b] =>
             first [ replace (a <? b) with true by (symmetry; apply N.ltb_lt; lia)
                   | replace (a <? b) with false by (symmetry; apply N.ltb_ge; lia) ]
         | |- context [?a <=? ?b] =>
             first [ replace (a <=? b) with true by (symmetry; apply N.leb_le; lia)
                   | replace (a <=? b) with false by (symmetry; apply N.leb_gt; lia) ]
         end.

Lemma trail_byte n : n < 64 -> trail (Some (byte (128 + n))) = Some n.
Proof.
  intros Hn. unfold trail. rewrite code_byte by lia. decide_tests. simpl. f_equal. lia.
Qed.

Lemma decode_utf8_char c rest :
  c < 1114112 -> decode_loop (utf8_char c ++ rest) 0 = c :: decode_loop rest 0.
Proof.
  intros Hc. unfold utf8_char.
  destruct (N.ltb_spec c 128) as [H1|H1].
  { simpl. unfold decode_head. rewrite code_byte by lia. by decide_tests. }
  destruct (N.ltb_spec c 2048) as [H2|H2].
  { simpl. unfold decode_head. rewrite code_byte by lia. decide_tests. simpl String.get.
    rewrite (trail_byte (c mod 64)) by lia. f_equal. lia. }
  destruct (N.ltb_spec c 65536) as [H3|H3].
  { simpl. unfold decode_head. rewrite code_byte by lia. decide_tests. simpl String.get.
    rewrite (trail_byte ((c / 64) mod 64)), (trail_byte (c mod 64)) by lia.
    replace ((224 + c / 4096 - 224) * 4096 + (c / 64) mod 64 * 64 + c mod 64) with c by lia.
    by decide_tests. }
  destruct (N.ltb_spec c 1114112) as [H4|H4]; [|lia].
  simpl. unfold decode_head. rewrite code_byte by lia. decide_tests. simpl String.get.
  rewrite (trail_byte ((c / 4096) mod 64)), (trail_byte ((c / 64) mod 64)),
    (trail_byte (c mod 64)) by lia.
  replace ((240 + c / 262144 - 240) * 262144 + (c / 4096) mod 64 * 4096
           + (c / 64) mod 64 * 64 + c mod 64) with c by lia.
  by decide_tests.
Qed.


Lemma code_points_utf8 l : Forall valid l -> code_points (utf8 l) = l.
Proof.
  unfold code_points. induction 1 as [|c l Hc _ IH]; [done|].
  simpl. rewrite decode_utf8_char by exact Hc. by rewrite IH.
Qed.

Lemma all_from_spec n f :
  forall base, all_from n base f = true ->
    forall c, base <= c <= base + N.of_nat n -> f c = true.
Proof.
  induction n as [|n IH]; intros base H c Hc; simpl in H; apply andb_prop in H as [Ha Hb].
  - replace c with base by lia. exact Ha.
  - destruct (N.eq_dec c base) as [->|Hne]; [exact Ha|].
    apply (IH _ Hb). lia.
Qed.

Lemma lower_lookup_outside c rows :
  Forall (fun row : N * N * N * N => let '(lo, hi, _, _) := row in ~ lo <= c <= hi) rows ->
  lower_lookup c rows = c.
Proof.
  induction 1 as [|[[[lo hi] step] image] rows Hrow _ IH]; [done|]. simpl.
  destruct (N.ltb_spec c lo); [done|].
  destruct (N.leb_spec c hi); [lia|exact IH].
Qed.

Lemma rows_lower_well_true : rows_lower_well = true.
Proof. vm_compute. reflexivity. Qed.

Lemma lower_char_lowers_well c : valid c -> lowers_well c = true.
Proof.
  intros Hc.
  destruct (decide (Exists (fun row : N * N * N * N =>
                              let '(lo, hi, _, _) := row in lo <= c <= hi) lower_rows))
    as [Hin|Hout].
  - apply Exists_exists in Hin as ([[[lo hi] step] image] & Hrow & Hc').
    pose proof rows_lower_well_true as H. unfold rows_lower_well in H.
    rewrite forallb_forall in H. apply list_elem_of_In in Hrow. specialize (H _ Hrow).
    simpl in H. apply (all_from_spec _ _ _ H). lia.
  - apply not_Exists_Forall in Hout; [|intros [[[lo hi] step] image]; simpl; apply _].
    assert (lower_char c = c) as Hid.
    { unfold lower_char. destruct (125217 <? c); [done|].
      apply lower_lookup_outside. eapply Forall_impl; [exact Hout|].
      by intros [[[lo hi] step] image]. }
    unfold lowers_well, settled. rewrite !Hid, N.eqb_refl.
    assert (c <> 931 /\ c <> 304) as [H1 H2].
    { rewrite Forall_forall in Hout. split; intros ->.
      - apply (Hout (931, 939, 1, 963)); [by apply (list_elem_of_lookup_2 _ 71)|lia].
      - apply (Hout (304, 304, 1, 105)); [by apply (list_elem_of_lookup_2 _ 4)|lia]. }
    apply N.eqb_neq in H1, H2. rewrite H1, H2. simpl. by apply N.ltb_lt.
Qed.

Lemma lower_loop_settled l :
  forall before, Forall valid l ->
    Forall (fun c => settled c = true /\ valid c) (lower_loop before l).
Proof.
  induction l as [|c l IH]; intros before Hl; [constructor|].
  apply Forall_cons in Hl as [Hc Hl]. simpl. apply Forall_app. split; [|by apply IH].
  destruct (c =? 931).
  - destruct (final_sigma before l); repeat constructor.
  - unfold lower_full. destruct (c =? 304) eqn:E.
    + repeat constructor.
    + constructor; [|constructor].
      pose proof (lower_char_lowers_well c Hc) as H. unfold lowers_well in H.
      apply andb_prop in H as [H1 H2]. split; [exact H1|by apply N.ltb_lt in H2].
Qed.

Lemma lower_loop_fixed l :
  forall before, Forall (fun c => settled c = true) l -> lower_loop before l = l.
Proof.
  induction l as [|c l IH]; intros before Hl; [done|].
  apply Forall_cons in Hl as [Hc Hl]. simpl. rewrite (IH _ Hl).
  unfold settled in Hc. apply andb_prop in Hc as [Hc H3]. apply andb_prop in Hc as [H1 H2].
  apply negb_true_iff in H1, H2. rewrite H1. unfold lower_full. rewrite H2.
  apply N.eqb_eq in H3. by rewrite H3.
Qed.

Lemma trail_bound o c : trail o = Some c -> c < 64.
Proof.
  unfold trail. destruct o as [b|]; [|done].
  destruct (N.leb_spec 128 (code b)), (N.ltb_spec (code b) 192); simpl; intros [= <-]; lia.
Qed.

Lemma decode_head_valid b s : valid (fst (decode_head b s)).
Proof.
  unfold decode_head, valid, replacement.
  destruct (N.ltb_spec (code b) 128); [simpl; lia|].
  destruct (N.ltb_spec (code b) 194); [simpl; lia|].
  destruct (N.ltb_spec (code b) 224).
  { destruct (trail (String.get 0 s)) as [c1|] eqn:E1; [|simpl; lia].
    apply trail_bound in E1. simpl. lia. }
  destruct (N.ltb_spec (code b) 240).
  { destruct (trail (String.get 0 s)) as [c1|] eqn:E1; [|simpl; lia].
    destruct (trail (String.get 1 s)) as [c2|] eqn:E2; [|simpl; lia].
    apply trail_bound in E1, E2.
    destruct (N.leb_spec 2048 ((code b - 224) * 4096 + c1 * 64 + c2)); simpl; lia. }
  destruct (N.ltb_spec (code b) 245); [|simpl; lia].
  destruct (trail (String.get 0 s)) as [c1|] eqn:E1; [|simpl; lia].
  destruct (trail (String.get 1 s)) as [c2|] eqn:E2; [|simpl; lia].
  destruct (trail (String.get 2 s)) as [c3|] eqn:E3; [|simpl; lia].
  destruct (N.leb_spec 65536 ((code b - 240) * 262144 + c1 * 4096 + c2 * 64 + c3));
    destruct (N.ltb_spec ((code b - 240) * 262144 + c1 * 4096 + c2 * 64 + c3) 1114112);
    simpl; lia.
Qed.

Lemma code_points_valid s : Forall valid (code_points s).
Proof.
  unfold code_points. generalize 0%nat. induction s as [|b s IH]; intros skip; simpl; [constructor|].
  destruct skip; [|apply IH].
  pose proof (decode_head_valid b s). destruct (decode_head b s) as [c n].
  constructor; [done|apply IH].
Qed.

Lemma str_lower_idem s : str_lower (str_lower s) = str_lower s.
Proof.
  unfold str_lower.
  pose proof (lower_loop_settled (code_points s) [] (code_points_valid s)) as H.
  rewrite code_points_utf8 by (eapply Forall_impl; [exact H|]; by intros c [_ ?]).
  f_equal. apply lower_loop_fixed. eapply Forall_impl; [exact H|]. by intros c [? _].
Qed.

End StringFacts.

(** the string methods on texts beyond ASCII *)
Example lower_beyond_ascii :
  str_lower "CAFÉ TACVBA" = "café tacvba"
  /\ str_lower "ΟΔΟΣ ΣΟΦΙΑΣ" = "οδος σοφιας"
  /\ str_lower (utf8 [304]%N) = utf8 [105; 775]%N
  /\ str_lower "ROCK EN ESPAÑOL" = "rock en español".
Proof. vm_compute. repeat split. Qed.

Example strip_beyond_ascii :
  str_strip (utf8 [160; 83; 237; 8195; 10]%N) = "Sí"
  /\ str_length "Canción" = 7%nat
  /\ str_take 4 "Sí, señor" = "Sí, ".
Proof. vm_compute. repeat split. Qed.

Example canonical_titles_keep_their_letters :
  normalize_title_for_dedupe "Canción" = "canción"
  /\ normalize_title_for_dedupe "Sí" = "sí"
  /\ normalize_title_for_dedupe "Sé" = "sé"
  /\ normalize_title_for_dedupe "Corazón Espinado (feat. Maná) - Remastered" = "corazón espinado"
  /\ keywords "música española de los 80" = ["música"; "española"].
Proof. vm_compute. repeat split. Qed.

(** * Properties *)

(** ** The exception monad *)

Lemma bind_Ok {A B : Type} (m : result A) (f : A -> result B) (b : B) :
  m ≫= f = Ok b -> exists a, m = Ok a /\ f a = Ok b.
Proof. destruct m as [a|e]; simpl; [eauto | discriminate]. Qed.

Lemma fmap_Ok {A B : Type} (f : A -> B) (m : result A) (b : B) :
  f <$> m = Ok b -> exists a, m = Ok a /\ b = f a.
Proof. destruct m as [a|e]; simpl; [intros [= <-]; eauto | discriminate]. Qed.

(** splits a successful sequence of binds into its successful steps *)
Ltac ok_steps H :=
  repeat
    match type of H with
    | _ ≫= _ = Ok _ =>
        let a := fresh "a" in
        let Ha := fresh "Hstep" in
        apply bind_Ok in H; destruct H as (a & Ha & H)
    | (if ?c then _ else _) = Ok _ => destruct c eqn:?
    end.

Lemma map_result_total {A B : Type} (f : A -> result B) (l : list A) :
  (forall x, In x l -> exists y, f x = Ok y) -> exists ys, map_result f l = Ok ys.
Proof.
  induction l as [|x l IH]; intros H; simpl; [eauto|].
  destruct (H x) as [y ->]; [by left|]. simpl.
  destruct IH as [ys ->]; [intros; apply H; by right|]. simpl. eauto.
Qed.

Lemma map_result_Forall2 {A B : Type} (f : A -> result B) (l : list A) (out : list B) :
  map_result f l = Ok out -> Forall2 (fun x y => f x = Ok y) l out.
Proof.
  revert out. induction l as [|x l IH]; intros out H; simpl in H.
  - injection H as <-. constructor.
  - apply bind_Ok in H as (y & Hy & H). apply bind_Ok in H as (ys & Hys & H).
    injection H as <-. constructor; auto.
Qed.

Lemma map_result_each {A B : Type} (f : A -> result B) (P : A -> B -> Prop) (l : list A) :
  (forall x, In x l -> exists y, f x = Ok y /\ P x y) ->
  exists out, map_result f l = Ok out /\ Forall2 P l out.
Proof.
  induction l as [|x l IH]; intros H; simpl; [eauto|].
  destruct (H x) as (y & -> & Hy); [by left|]. simpl.
  destruct IH as (ys & -> & Hys); [intros; apply H; by right|]. simpl. eauto.
Qed.
(** ** C1: the length of the result *)

Lemma py_slice_to_length {A : Type} (n : Z) (l : list A) :
  0 <= n -> Z.of_nat (length (py_slice_to n l)) <= n.
Proof.
  intros Hn. unfold py_slice_to.
  destruct (0 <=? n) eqn:E; [|lia].
  rewrite length_take. lia.
Qed.

Lemma apply_intelligent_postprocessing_length E tracks user_prompt limit out :
  0 <= limit ->
  apply_intelligent_postprocessing E tracks user_prompt limit = Ok out ->
  Z.of_nat (length out) <= limit.
Proof.
  intros Hl H. unfold apply_intelligent_postprocessing in H.
  destruct tracks as [|t tracks].
  - injection H as <-. simpl. lia.
  - ok_steps H. injection H as <-. by apply py_slice_to_length.
Qed.

Lemma adjust_limit_bounds user_prompt base_limit analysis :
  0 <= base_limit ->
  0 <= adjust_limit_based_on_complexity user_prompt base_limit analysis <= base_limit.
Proof.
  intros Hb. unfold adjust_limit_based_on_complexity.
  repeat match goal with |- context [if ?c then _ else _] => destruct c end; lia.
Qed.

Ltac close_phase :=
  repeat match goal with |- _ /\ _ => split end;
  eauto using apply_intelligent_postprocessing_length.

Lemma phase3_within_limit E user_prompt filters analysis adjusted_limit tracks response :
  0 <= adjusted_limit ->
  phase3 E user_prompt filters analysis adjusted_limit tracks = Ok response ->
  Z.of_nat (length (items response)) <= adjusted_limit
  /\ limit_requested response = adjusted_limit /\ phase response = 3
  /\ total response = Z.of_nat (length (items response)).
Proof.
  intros Hl H. unfold phase3 in H. ok_steps H. injection H as <-. simpl.
  eauto using apply_intelligent_postprocessing_length.
Qed.

Lemma phase2_within_limit E user_prompt filters analysis adjusted_limit tracks response :
  0 <= adjusted_limit ->
  phase2 E user_prompt filters analysis adjusted_limit tracks = Ok response ->
  Z.of_nat (length (items response)) <= adjusted_limit
  /\ limit_requested response = adjusted_limit
  /\ (phase response = 2 \/ phase response = 3)
  /\ total response = Z.of_nat (length (items response)).
Proof.
  intros Hl H. unfold phase2 in H.
  repeat (apply bind_Ok in H; destruct H as (? & ? & H)).
  match type of H with (if ?c then _ else _) = _ => destruct c eqn:Hc end.
  - injection H as <-. simpl. close_phase.
  - apply phase3_within_limit in H; [|done]. tauto.
Qed.

Lemma hybrid_cycle_body_within_limit E user_prompt default_limit llm_analysis response :
  0 <= default_limit ->
  hybrid_cycle_body E user_prompt default_limit llm_analysis = Ok response ->
  Z.of_nat (length (items response)) <= limit_requested response
  /\ limit_requested response <= default_limit
  /\ (phase response = 1 \/ phase response = 2 \/ phase response = 3)
  /\ total response = Z.of_nat (length (items response)).
Proof.
  intros Hl H. unfold hybrid_cycle_body in H.
  set (analysis := enhance_region_detection _ _) in H.
  pose proof (adjust_limit_bounds user_prompt default_limit analysis Hl) as Hadj.
  set (adjusted_limit := adjust_limit_based_on_complexity _ _ _) in *.
  repeat (apply bind_Ok in H; destruct H as (? & ? & H)).
  match type of H with (if ?c then _ else _) = _ => destruct c eqn:Hc end.
  - injection H as <-. simpl.
    match goal with
    | H' : apply_intelligent_postprocessing _ _ _ _ = Ok _ |- _ =>
        apply apply_intelligent_postprocessing_length in H'; [|lia]
    end.
    repeat split; auto; lia.
  - apply phase2_within_limit in H; [|lia]. destruct H as (? & -> & ? & ?).
    repeat split; [lia | lia | tauto | done].
Qed.

Lemma emergency_fallback_within_limit E user_prompt limit error_msg response :
  0 <= limit ->
  emergency_fallback E user_prompt limit error_msg = Ok response ->
  Z.of_nat (length (items response)) <= limit
  /\ limit_requested response = limit /\ phase response = 0
  /\ total response = Z.of_nat (length (items response)).
Proof.
  intros Hl H. unfold emergency_fallback in H.
  match type of H with
  | match ?m with _ => _ end = _ => destruct m as [[r|]|e] eqn:Hk
  end.
  - injection H as <-.
    destruct (keywords (str_lower user_prompt)) as [|w ws]; [discriminate|].
    repeat (apply bind_Ok in Hk; destruct Hk as (? & ? & Hk)).
    injection Hk as <-. simpl. close_phase.
  - repeat (apply bind_Ok in H; destruct H as (? & ? & H)).
    injection H as <-. simpl. close_phase.
  - repeat (apply bind_Ok in H; destruct H as (? & ? & H)).
    injection H as <-. simpl. close_phase.
Qed.

(** C1.  With a non-negative limit, every path of the assembly pipeline
    returns at most [limit] tracks: the shared post-processing step, the
    emergency fallback (phase 0), phases 2 and 3, and the whole cycle, whose
    response holds between 0 and [limit_requested] tracks, [limit_requested]
    being the adjusted limit, itself at most the limit given. *)
Theorem playlist_length_within_limit :
  forall (E : Collaborators) (user_prompt : string) (limit : Z),
    0 <= limit ->
    (forall tracks out,
        apply_intelligent_postprocessing E tracks user_prompt limit = Ok out ->
        0 <= Z.of_nat (length out) <= limit)
    /\ (forall error_msg response,
           emergency_fallback E user_prompt limit error_msg = Ok response ->
           0 <= Z.of_nat (length (items response)) <= limit)
    /\ (forall filters analysis tracks response,
           phase2 E user_prompt filters analysis limit tracks = Ok response
           \/ phase3 E user_prompt filters analysis limit tracks = Ok response ->
           0 <= Z.of_nat (length (items response)) <= limit)
    /\ (forall llm_analysis response,
           hybrid_playlist_cycle_enhanced E user_prompt limit llm_analysis = Ok response ->
           0 <= Z.of_nat (length (items response)) <= limit_requested response
           /\ limit_requested response <= limit
           /\ total response = Z.of_nat (length (items response))).
Proof.
  intros E user_prompt limit Hl.
  split; [|split; [|split]].
  - intros tracks out H. split; [lia|].
    by eapply apply_intelligent_postprocessing_length.
  - intros error_msg response H. split; [lia|].
    by eapply emergency_fallback_within_limit.
  - intros filters analysis tracks response [H|H]; (split; [lia|]).
    + by eapply phase2_within_limit.
    + by eapply phase3_within_limit.
  - intros llm_analysis response H.
    unfold hybrid_playlist_cycle_enhanced, try_except in H.
    destruct (hybrid_cycle_body _ _ _ _) as [r|e] eqn:Hb.
    + injection H as <-.
      apply hybrid_cycle_body_within_limit in Hb as (? & ? & ? & ?); [|done].
      repeat split; try lia.
    + apply emergency_fallback_within_limit in H as (? & ? & ? & ?); [|done].
      repeat split; try lia.
Qed.

Lemma playlist_length_within_limit_witness :
  exists response,
    hybrid_playlist_cycle_enhanced (offline_engine [sample_track]) "hello rock" 5 None
    = Ok response
    /\ items response <> []
    /\ 0 <= Z.of_nat (length (items response)) <= limit_requested response
    /\ limit_requested response <= 5
    /\ total response = Z.of_nat (length (items response)).
Proof.
  destruct (playlist_length_within_limit (offline_engine [sample_track]) "hello rock" 5)
    as (_ & _ & _ & Hcycle); [lia|].
  eexists. split; [vm_compute; reflexivity|]. split; [discriminate|].
  apply (Hcycle None). vm_compute. reflexivity.
Defined.
(** ** C6: deduplication *)

Lemma no_better_refl t : no_better t t.
Proof. right. lia. Qed.

Lemma no_better_trans t u v : no_better t u -> no_better u v -> no_better t v.
Proof. unfold no_better. lia. Qed.

Lemma replaces_true t prev : replaces t prev = true -> no_better prev t.
Proof. unfold replaces, no_better. lia. Qed.

Lemma replaces_false t prev : replaces t prev = false -> no_better t prev.
Proof. unfold replaces, no_better. lia. Qed.

Lemma best_put_known key t best :
  In key (map fst best) -> map fst (best_put key t best) = map fst best.
Proof.
  induction best as [|[k prev] rest IH]; simpl; [tauto|].
  destruct (String.eqb_spec key k) as [->|Hne]; simpl; [done|].
  intros [?|?]; [congruence|]. by rewrite IH.
Qed.

Lemma best_put_new key t best :
  ~ In key (map fst best) -> map fst (best_put key t best) = (map fst best ++ [key])%list.
Proof.
  induction best as [|[k prev] rest IH]; simpl; [done|].
  destruct (String.eqb_spec key k) as [->|Hne]; simpl; [tauto|].
  intros ?. rewrite IH; tauto.
Qed.

Lemma best_put_NoDup key t best :
  NoDup (map fst best) -> NoDup (map fst (best_put key t best)).
Proof.
  intros H. destruct (in_dec string_dec key (map fst best)) as [Hin|Hin].
  - by rewrite best_put_known.
  - rewrite best_put_new by done. apply NoDup_app. repeat split; [done| |apply NoDup_singleton].
    intros x Hx ->%list_elem_of_singleton. by apply Hin, list_elem_of_In.
Qed.

(** an entry of the updated dictionary is an old one or files [t] under [key] *)
Lemma best_put_entry key t best k u :
  In (k, u) (best_put key t best) -> In (k, u) best \/ (k = key /\ u = t).
Proof.
  induction best as [|[k' prev] rest IH]; simpl.
  - intros [[= <- <-]|[]]. tauto.
  - destruct (String.eqb_spec key k') as [->|Hne]; simpl.
    + intros [[= <- <-]|?]; [|tauto]. destruct (replaces t prev); tauto.
    + intros [?|?]; [tauto|]. tauto.
Qed.

(** after the update, the entry of [key] is at least as good as [t] and as
    the entry it replaces *)
Lemma best_put_at key t best :
  exists u, In (key, u) (best_put key t best) /\ no_better t u
            /\ forall prev, In (key, prev) best -> NoDup (map fst best) -> no_better prev u.
Proof.
  induction best as [|[k' prev] rest IH]; simpl.
  - exists t. split; [tauto|]. split; [apply no_better_refl | tauto].
  - destruct (String.eqb_spec key k') as [->|Hne]; simpl.
    + exists (if replaces t prev then t else prev). split; [tauto|].
      destruct (replaces t prev) eqn:Hr.
      * split; [apply no_better_refl|]. intros p [[= <-]|Hin] Hnd.
        -- by apply replaces_true.
        -- apply NoDup_cons in Hnd as [Hnot _]. exfalso. apply Hnot.
           apply list_elem_of_In. change k' with (fst (k', p)). by apply in_map.
      * split; [by apply replaces_false|]. intros p [[= <-]|Hin] Hnd.
        -- apply no_better_refl.
        -- apply NoDup_cons in Hnd as [Hnot _]. exfalso. apply Hnot.
           apply list_elem_of_In. change k' with (fst (k', p)). by apply in_map.
    + destruct IH as (u & Hu & Htu & Hprev). exists u. split; [tauto|]. split; [done|].
      intros p [[= ? ?]|Hin] Hnd; [congruence|]. apply Hprev; [done|].
      by apply NoDup_cons in Hnd as [_ ?].
Qed.

Lemma best_put_other key t best k u :
  k <> key -> In (k, u) best -> In (k, u) (best_put key t best).
Proof.
  intros Hne. induction best as [|[k' prev] rest IH]; simpl; [tauto|].
  destruct (String.eqb_spec key k') as [->|Hne']; simpl.
  - intros [[= <- <-]|?]; [congruence|tauto].
  - intros [?|?]; [tauto|]. right. by apply IH.
Qed.

Lemma best_of_snoc tracks t :
  best_of (tracks ++ [t]) = best_put (dedupe_key t) t (best_of tracks).
Proof. unfold best_of. by rewrite fold_left_app. Qed.

(** the invariant of the deduplication loop *)
Lemma best_of_invariant tracks :
  NoDup (map fst (best_of tracks))
  /\ (forall k u, In (k, u) (best_of tracks) -> dedupe_key u = k /\ In u tracks)
  /\ (forall t, In t tracks ->
        exists u, In (dedupe_key t, u) (best_of tracks) /\ no_better t u).
Proof.
  induction tracks as [|t tracks IH] using rev_ind.
  - split; [apply NoDup_nil_2|]. split; simpl; [tauto | intros ? []].
  - destruct IH as (Hnd & Hown & Hbest). rewrite best_of_snoc.
    split; [by apply best_put_NoDup|]. split.
    + intros k u [Hin|[-> ->]]%best_put_entry.
      * destruct (Hown _ _ Hin). split; [done|]. apply in_app_iff. tauto.
      * split; [done|]. apply in_app_iff. simpl. tauto.
    + intros t' [Hin|[<-|[]]]%in_app_iff.
      * destruct (Hbest _ Hin) as (u & Hu & Htu).
        destruct (string_dec (dedupe_key t') (dedupe_key t)) as [Heq|Hne].
        -- destruct (best_put_at (dedupe_key t) t (best_of tracks)) as (v & Hv & _ & Hprev).
           exists v. rewrite Heq in *. split; [done|].
           eapply no_better_trans; [exact Htu|]. by apply Hprev.
        -- exists u. split; [|done]. by apply best_put_other.
      * destruct (best_put_at (dedupe_key t) t (best_of tracks)) as (v & Hv & Htv & _).
        by exists v.
Qed.


Lemma stored_under_own_key (best : list (string * Track)) :
  (forall k u, In (k, u) best -> dedupe_key u = k) ->
  map dedupe_key (map snd best) = map fst best.
Proof.
  induction best as [|[k u] rest IH]; simpl; [done|].
  intros H. rewrite (H k u) by tauto. f_equal. apply IH. intros. apply H. tauto.
Qed.

Lemma canonical_song_remastered : normalize_title_for_dedupe "Song (Remastered 2009)" = "song".
Proof. vm_compute. reflexivity. Qed.

Lemma canonical_song : normalize_title_for_dedupe "Song" = "song".
Proof. vm_compute. reflexivity. Qed.

(** C6.  Deduplication keeps exactly one track for every key of the input:
    the keys of its output are pairwise distinct, every output track comes
    from the input, and every input track is represented by an output track
    of the same key that is at least as good (higher bitrate, or equal
    bitrate and a raw popularity at least as high).  The key is the canonical
    title, with the truncated file reference as fallback.  Of two tracks
    titled "Song (Remastered 2009)" and "Song" with different bitrates, in
    either order, only the one with the higher bitrate is kept. *)
Theorem dedup_keeps_best_per_key :
  forall tracks_list : list Track,
    let out := deduplicate_tracks_by_title_keep_best tracks_list in
    NoDup (map dedupe_key out)
    /\ (forall u, In u out -> In u tracks_list)
    /\ (forall t, In t tracks_list ->
          exists u, In u out /\ dedupe_key u = dedupe_key t /\ no_better t u)
    /\ (forall remastered plain : Track,
          Titulo remastered = Some "Song (Remastered 2009)" ->
          Titulo plain = Some "Song" ->
          int_or_zero (Bitrate remastered) <> int_or_zero (Bitrate plain) ->
          let kept := if int_or_zero (Bitrate remastered) <? int_or_zero (Bitrate plain)
                      then plain else remastered in
          deduplicate_tracks_by_title_keep_best [remastered; plain] = [kept]
          /\ deduplicate_tracks_by_title_keep_best [plain; remastered] = [kept]).
Proof.
  intros tracks_list out. subst out. unfold deduplicate_tracks_by_title_keep_best.
  destruct (best_of_invariant tracks_list) as (Hnd & Hown & Hbest).
  split; [|split; [|split]].
  - rewrite stored_under_own_key; [done|]. intros k u Hin. by destruct (Hown k u Hin).
  - intros u [[k u'] [<- Hin]]%in_map_iff. by destruct (Hown k u' Hin).
  - intros t Hin. destruct (Hbest t Hin) as (u & Hu & Htu). exists u.
    split; [|split; [by destruct (Hown _ _ Hu) | done]].
    apply in_map_iff. by exists (dedupe_key t, u).
  - intros remastered plain Hr Hp Hne.
    assert (dedupe_key remastered = "song") as Kr.
    { unfold dedupe_key. rewrite Hr. simpl str_or_empty.
      by rewrite canonical_song_remastered. }
    assert (dedupe_key plain = "song") as Kp.
    { unfold dedupe_key. rewrite Hp. simpl str_or_empty. by rewrite canonical_song. }
    unfold best_of. simpl. rewrite Kr, Kp. simpl. unfold replaces.
    split; f_equal.
    + destruct (int_or_zero (Bitrate remastered) <? int_or_zero (Bitrate plain)) eqn:E1; simpl.
      * done.
      * destruct (int_or_zero (Bitrate plain) =? int_or_zero (Bitrate remastered)) eqn:E2;
          [lia|done].
    + destruct (int_or_zero (Bitrate plain) <? int_or_zero (Bitrate remastered)) eqn:E1; simpl.
      * destruct (int_or_zero (Bitrate remastered) <? int_or_zero (Bitrate plain)) eqn:E2;
          [lia|done].
      * destruct (int_or_zero (Bitrate remastered) =? int_or_zero (Bitrate plain)) eqn:E2;
          [lia|].
        destruct (int_or_zero (Bitrate remastered) <? int_or_zero (Bitrate plain)) eqn:E3;
          [done|lia].
Qed.

Lemma dedup_keeps_best_per_key_witness :
  deduplicate_tracks_by_title_keep_best [fixture_plain; fixture_remastered]
  = [fixture_remastered].
Proof.
  destruct (dedup_keeps_best_per_key [fixture_plain; fixture_remastered])
    as (_ & _ & _ & H).
  destruct (H fixture_remastered fixture_plain) as [_ H2].
  - reflexivity.
  - reflexivity.
  - simpl. lia.
  - exact H2.
Defined.

(** ** C4: the diversity limiter *)

Lemma count_where_app {A} (p : A -> bool) l1 l2 :
  count_where p (l1 ++ l2) = count_where p l1 + count_where p l2.
Proof. unfold count_where. rewrite List.filter_app, length_app. lia. Qed.

Lemma count_where_snoc {A} (p : A -> bool) l x :
  count_where p (l ++ [x]) = count_where p l + if p x then 1 else 0.
Proof. rewrite count_where_app. unfold count_where. simpl. destruct (p x); simpl; lia. Qed.

Lemma count_where_le {A} (p q : A -> bool) l :
  (forall x, p x = true -> q x = true) -> count_where p l <= count_where q l.
Proof.
  intros H. unfold count_where. induction l as [|x l IH]; simpl; [lia|].
  destruct (p x) eqn:Hp.
  - rewrite (H x Hp). simpl. lia.
  - destruct (q x); simpl; lia.
Qed.

Lemma count_where_sublist {A} (p : A -> bool) l1 l2 :
  sublist l1 l2 -> count_where p l1 <= count_where p l2.
Proof.
  unfold count_where. induction 1 as [|x l1 l2 _ IH|x l1 l2 _ IH]; simpl; [lia| |].
  - destruct (p x); simpl; lia.
  - destruct (p x); simpl; lia.
Qed.

Lemma count_where_perm {A} (p : A -> bool) l1 l2 :
  Permutation l1 l2 -> count_where p l1 = count_where p l2.
Proof.
  unfold count_where. induction 1 as [|x l1 l2 _ IH|x y l|l1 l2 l3 _ IH1 _ IH2]; simpl.
  - done.
  - destruct (p x); simpl; lia.
  - destruct (p x), (p y); simpl; lia.
  - lia.
Qed.

Lemma py_slice_to_sublist {A} (n : Z) (l : list A) : sublist (py_slice_to n l) l.
Proof. unfold py_slice_to. destruct (0 <=? n); apply sublist_take. Qed.

Lemma insert_desc_perm {A} (key : A -> Z) t l : Permutation (insert_desc key t l) (t :: l).
Proof.
  induction l as [|x l IH]; simpl; [done|].
  destruct (key x <=? key t); [done|].
  rewrite IH. apply perm_swap.
Qed.

Lemma sorted_desc_perm {A} (key : A -> Z) l : Permutation (sorted_desc key l) l.
Proof.
  induction l as [|x l IH]; simpl; [done|].
  rewrite insert_desc_perm. by constructor.
Qed.

Lemma insert_desc_best_first {A} (key : A -> Z) t l :
  best_first key l -> best_first key (insert_desc key t l).
Proof.
  unfold best_first. induction l as [|x l IH]; simpl; intros Hs.
  - repeat constructor.
  - apply StronglySorted_inv in Hs as [Hs Hx].
    destruct (key x <=? key t) eqn:E.
    + constructor; [by constructor|]. constructor; [lia|].
      eapply Forall_impl; [exact Hx|]. simpl. intros. lia.
    + constructor; [by apply IH|].
      apply List.Forall_forall. intros y Hy.
      apply (Permutation_in _ (insert_desc_perm key t l)) in Hy as [<-|Hy]; [lia|].
      rewrite List.Forall_forall in Hx. by apply Hx.
Qed.

Lemma sorted_desc_best_first {A} (key : A -> Z) l : best_first key (sorted_desc key l).
Proof.
  induction l as [|x l IH]; simpl; [constructor|]. by apply insert_desc_best_first.
Qed.

Section LimiterFacts.
Context {A : Type} (artist_of album_of : A -> string) (ma mb : Z).

Abbreviation step := (limiter_step artist_of album_of ma mb).
Abbreviation run := (limiter_run artist_of album_of ma mb).

Lemma limiter_step_admitted st t :
  counters_exact artist_of album_of st ->
  admitted (step st t)
  = (admitted st ++ if admissible artist_of album_of ma mb (admitted st) t
                    then [t] else [])%list.
Proof.
  intros [Ha Hb]. unfold limiter_step, admissible. rewrite Ha, Hb.
  destruct (ma <=? _) eqn:E1.
  - replace (_ <? ma) with false by lia. simpl. by rewrite app_nil_r.
  - replace (count_where (keyed artist_of (artist_of t)) (admitted st) <? ma)
      with true by lia.
    destruct (mb <=? _) eqn:E2; simpl.
    + replace (_ <? mb) with false by lia. by rewrite app_nil_r.
    + by replace (_ <? mb) with true by lia.
Qed.

Lemma limiter_step_exact st t : counters_exact artist_of album_of st -> counters_exact artist_of album_of (step st t).
Proof.
  intros [Ha Hb]. unfold limiter_step.
  destruct (ma <=? _); [done|]. destruct (mb <=? _); [done|].
  split; simpl; intros k; rewrite count_where_snoc.
  - unfold keyed at 2. destruct (String.eqb_spec (artist_of t) k) as [<-|Hne].
    + rewrite lookup_insert_eq. simpl. by rewrite Ha.
    + rewrite lookup_insert_ne by done. rewrite Ha. lia.
  - unfold keyed at 2. destruct (String.eqb_spec (album_of t) k) as [<-|Hne].
    + rewrite lookup_insert_eq. simpl. by rewrite Hb.
    + rewrite lookup_insert_ne by done. rewrite Hb. lia.
Qed.

Lemma limiter_run_snoc l t : run (l ++ [t]) = step (run l) t.
Proof. unfold limiter_run. by rewrite fold_left_app. Qed.

Lemma limiter_run_exact l : counters_exact artist_of album_of (run l).
Proof.
  induction l as [|t l IH] using rev_ind.
  - split; intros; simpl; by rewrite lookup_empty.
  - rewrite limiter_run_snoc. by apply limiter_step_exact.
Qed.

(** greedy admission: the fate of a candidate is settled when it is
    reached, by the tracks admitted before it *)
Lemma limiter_run_greedy l t :
  admitted (run (l ++ [t]))
  = (admitted (run l) ++ if admissible artist_of album_of ma mb (admitted (run l)) t
                         then [t] else [])%list.
Proof. rewrite limiter_run_snoc. apply limiter_step_admitted, limiter_run_exact. Qed.

Lemma limiter_run_caps l :
  (forall a, count_where (keyed artist_of a) (admitted (run l)) <= Z.max 0 ma)
  /\ (forall k, count_where (keyed album_of k) (admitted (run l)) <= Z.max 0 mb).
Proof.
  induction l as [|t l [IHa IHb]] using rev_ind.
  - split; intros; unfold count_where; simpl; lia.
  - rewrite limiter_run_greedy. unfold admissible.
    destruct (_ <? ma) eqn:E1; simpl; [|rewrite app_nil_r; done].
    destruct (_ <? mb) eqn:E2; simpl; [|rewrite app_nil_r; done].
    split; intros k; rewrite count_where_snoc.
    + unfold keyed at 2. destruct (String.eqb_spec (artist_of t) k) as [<-|Hne].
      * lia.
      * specialize (IHa k). lia.
    + unfold keyed at 2. destruct (String.eqb_spec (album_of t) k) as [<-|Hne].
      * lia.
      * specialize (IHb k). lia.
Qed.

Lemma limiter_run_sublist l : sublist (admitted (run l)) l.
Proof.
  induction l as [|t l IH] using rev_ind; [done|].
  rewrite limiter_run_greedy. destruct (admissible _ _ _ _ _ _).
  - by apply sublist_app.
  - rewrite app_nil_r. by apply sublist_inserts_r.
Qed.
(** what is admitted stays admitted *)
Lemma limiter_run_extends l1 l2 : sublist (admitted (run l1)) (admitted (run (l1 ++ l2))).
Proof.
  induction l2 as [|x l2 IH] using rev_ind; [by rewrite app_nil_r|].
  rewrite app_assoc, limiter_run_greedy. by apply sublist_inserts_r.
Qed.
End LimiterFacts.

Lemma same_pair_album_key a b t :
  same_pair a b t = true ->
  keyed album_key (if String.eqb b "" then a else a ++ "::" ++ b)%string t = true.
Proof.
  unfold same_pair, keyed, album_key, album_name.
  intros [->%String.eqb_eq ->%String.eqb_eq]%andb_prop.
  apply String.eqb_refl.
Qed.

(** C4.  The diversity limiter of [services.py] takes its candidates best
    first (a stable sort by decreasing relative popularity of the input) and
    admits them greedily: a candidate is admitted exactly when, among the
    tracks admitted before it, fewer than [max_per_artist] share its artist
    and fewer than [max_per_album] share its album key; a rejected candidate
    never enters the result, which is a subsequence of the sorted candidates.
    With the default caps 3 and 2, at most 3 tracks of the result share an
    artist and at most 2 share an (artist, album) pair, and so it is in every
    list returned by the post-processing step.  The sibling of
    [postprocessing_utils.py] admits its candidates in the order given, by
    the same greedy test on the tracks it has admitted so far, under the
    same two caps per artist and per album. *)
Theorem limiter_caps_and_greedy_admission :
  forall (tracks_list : list Track),
    let candidates := sorted_desc rel_key tracks_list in
    let result := limit_tracks_by_artist_album tracks_list 3 2 in
    Permutation candidates tracks_list
    /\ best_first rel_key candidates
    /\ sublist result candidates
    /\ (forall a, count_where (keyed artist_key a) result <= 3)
    /\ (forall a b, count_where (same_pair a b) result <= 2)
    /\ (forall before t after, candidates = (before ++ t :: after)%list ->
          admitted (limiter_run artist_key album_key 3 2 (before ++ [t]))
          = (admitted (limiter_run artist_key album_key 3 2 before)
             ++ if admissible artist_key album_key 3 2
                     (admitted (limiter_run artist_key album_key 3 2 before)) t
                then [t] else [])%list
          /\ sublist (admitted (limiter_run artist_key album_key 3 2 (before ++ [t]))) result)
    /\ (forall E tracks user_prompt limit final,
          apply_intelligent_postprocessing E tracks user_prompt limit = Ok final ->
          (forall a, count_where (keyed artist_key a) final <= 3)
          /\ (forall a b, count_where (same_pair a b) final <= 2))
    /\ (forall tracks : list PostprocessingUtils.track,
          let filtered := PostprocessingUtils.limit_tracks_by_artist_album tracks 3 2 in
          sublist filtered tracks
          /\ (forall a, count_where (keyed PostprocessingUtils.artist_of a) filtered <= 3)
          /\ (forall k, count_where (keyed PostprocessingUtils.album_of k) filtered <= 2)
          /\ (forall a b,
                count_where (fun t => keyed PostprocessingUtils.artist_of a t
                                      && keyed PostprocessingUtils.album_of b t) filtered <= 2)
          /\ (forall before t after, tracks = (before ++ t :: after)%list ->
                let run :=
                  limiter_run PostprocessingUtils.artist_of PostprocessingUtils.album_of 3 2 in
                admitted (run (before ++ [t])%list)
                = (admitted (run before)
                   ++ if admissible PostprocessingUtils.artist_of PostprocessingUtils.album_of
                           3 2 (admitted (run before)) t
                      then [t] else [])%list
                /\ sublist (admitted (run (before ++ [t])%list)) filtered)).
Proof.
  intros tracks_list candidates result. subst candidates result.
  unfold limit_tracks_by_artist_album.
  pose proof (limiter_run_caps artist_key album_key 3 2 (sorted_desc rel_key tracks_list))
    as [Ha Hb].
  split; [apply sorted_desc_perm|].
  split; [apply sorted_desc_best_first|].
  split; [apply limiter_run_sublist|].
  split; [intros a; specialize (Ha a); lia|].
  split.
  { intros a b. etransitivity; [apply count_where_le, same_pair_album_key|].
    specialize (Hb (if String.eqb b "" then a else a ++ "::" ++ b)%string). lia. }
  split.
  { intros before t after Heq. split; [apply limiter_run_greedy|].
    rewrite Heq. replace (before ++ t :: after)%list with ((before ++ [t]) ++ after)%list
      by (by rewrite <- app_assoc).
    apply limiter_run_extends. }
  split.
  { intros E tracks user_prompt limit final H.
    unfold apply_intelligent_postprocessing in H.
    destruct tracks as [|t0 tracks].
    { injection H as <-. split; intros; unfold count_where; simpl; lia. }
    apply bind_Ok in H as (deduped & _ & H). injection H as <-.
    set (filtered := filter_gross_incongruities deduped user_prompt).
    pose proof (limiter_run_caps artist_key album_key 3 2 (sorted_desc rel_key filtered))
      as [Ha' Hb'].
    assert (forall p, count_where p (py_slice_to limit
                        (sorted_desc rel_key (limit_tracks_by_artist_album filtered 3 2)))
                      <= count_where p (limit_tracks_by_artist_album filtered 3 2)) as Hle.
    { intros p. etransitivity; [apply count_where_sublist, py_slice_to_sublist|].
      by rewrite (count_where_perm p _ _ (sorted_desc_perm rel_key _)). }
    split.
    - intros a. etransitivity; [apply Hle|]. specialize (Ha' a).
      unfold limit_tracks_by_artist_album. lia.
    - intros a b. etransitivity; [apply Hle|].
      etransitivity; [apply count_where_le, same_pair_album_key|].
      specialize (Hb' (if String.eqb b "" then a else a ++ "::" ++ b)%string).
      unfold limit_tracks_by_artist_album. lia. }
  intros tracks. unfold PostprocessingUtils.limit_tracks_by_artist_album.
  destruct tracks as [|t0 tracks].
  { split; [done|]. split; [|split; [|split]]; try (intros; unfold count_where; simpl; lia).
    intros before t after Heq. destruct before; discriminate. }
  set (l := t0 :: tracks).
  pose proof (limiter_run_caps PostprocessingUtils.artist_of PostprocessingUtils.album_of
                3 2 l) as [Ha' Hb'].
  split; [apply limiter_run_sublist|].
  split; [intros a; specialize (Ha' a); lia|].
  split; [intros k; specialize (Hb' k); lia|].
  split.
  { intros a b.
    etransitivity; [apply (count_where_le _ (keyed PostprocessingUtils.album_of b))|].
    - intros x [_ ?]%andb_prop. done.
    - specialize (Hb' b). lia. }
  intros before t after Heq. split; [apply limiter_run_greedy|].
  rewrite Heq. replace (before ++ t :: after)%list with ((before ++ [t]) ++ after)%list
    by (by rewrite <- app_assoc).
  apply limiter_run_extends.
Qed.

Lemma limiter_caps_and_greedy_admission_witness :
  map doc_id (limit_tracks_by_artist_album one_artist 3 2) = [Some 1; Some 3; Some 4]%N
  /\ count_where (keyed artist_key "artist") (limit_tracks_by_artist_album one_artist 3 2) <= 3
  /\ count_where (same_pair "artist" "first") (limit_tracks_by_artist_album one_artist 3 2) <= 2
  /\ admitted (limiter_run artist_key album_key 3 2
                 [album_track 1 "One" "First" 9000; album_track 3 "Three" "First" 7000;
                  album_track 2 "Two" "First" 5000])
     = [album_track 1 "One" "First" 9000; album_track 3 "Three" "First" 7000].
Proof.
  destruct (limiter_caps_and_greedy_admission one_artist) as (_ & _ & _ & Ha & Hb & Hg & _).
  split; [vm_compute; reflexivity|].
  split; [apply Ha|]. split; [apply Hb|].
  destruct (Hg [album_track 1 "One" "First" 9000; album_track 3 "Three" "First" 7000]
               (album_track 2 "Two" "First" 5000)
               [album_track 4 "Four" "Second" 3000]) as [Hstep _];
    [vm_compute; reflexivity|].
  etransitivity; [exact Hstep | vm_compute; reflexivity].
Defined.

(** the artist of a track is read after [strip] and [lower]: the spellings
    of one name count as one artist *)
Example limiter_counts_spellings_together :
  map doc_id (limit_tracks_by_artist_album two_spellings 3 2) = [Some 1; Some 2; Some 3]%N
  /\ map artist_key two_spellings
     = ["café tacvba"; "café tacvba"; "café tacvba"; "café tacvba"; "café tacvba"].
Proof. vm_compute. split; reflexivity. Qed.

(** ** [services.py]: what the post-processing returns *)

Lemma List_filter_sublist {A : Type} (p : A -> bool) (l : list A) :
  sublist (List.filter p l) l.
Proof.
  induction l as [|x l IH]; simpl; [constructor|].
  destruct (p x); [by apply sublist_skip | by apply sublist_cons].
Qed.

Lemma submseteq_NoDup {A : Type} (l k : list A) : l ⊆+ k -> NoDup k -> NoDup l.
Proof.
  intros [k' Hk]%submseteq_Permutation Hnd. rewrite Hk in Hnd.
  by apply NoDup_app in Hnd as [? _].
Qed.

Lemma best_first_sublist {A : Type} (key : A -> Z) (l1 l2 : list A) :
  sublist l1 l2 -> best_first key l2 -> best_first key l1.
Proof.
  unfold best_first. induction 1 as [|x l1 l2 Hsub IH|x l1 l2 Hsub IH]; intros Hs.
  - constructor.
  - apply StronglySorted_inv in Hs as [Hs Hall]. constructor; [auto|].
    rewrite List.Forall_forall in *. intros y Hy. apply Hall.
    apply list_elem_of_In. eapply elem_of_sublist; [|exact Hsub]. by apply list_elem_of_In.
  - apply StronglySorted_inv in Hs as [Hs _]. auto.
Qed.

Lemma map_submseteq {A B : Type} (f : A -> B) (l k : list A) :
  l ⊆+ k -> map f l ⊆+ map f k.
Proof.
  induction 1; simpl.
  - constructor.
  - by apply submseteq_skip.
  - apply submseteq_swap.
  - by apply submseteq_cons.
  - by etransitivity.
Qed.

Lemma Forall2_In_r {A B : Type} (P : A -> B -> Prop) (l : list A) (k : list B) (y : B) :
  Forall2 P l k -> In y k -> exists x, In x l /\ P x y.
Proof.
  induction 1 as [|x y' l k Hxy _ IH]; intros Hin; [done|].
  destruct Hin as [->|Hin]; [exists x; split; [by left|done]|].
  destruct (IH Hin) as (x' & ? & ?). exists x'. split; [by right|done].
Qed.

Lemma relative_popularity_of_scored E tracks out :
  (forall t, In t tracks -> PopularityScore t <> None) ->
  compute_relative_popularity_by_genre E tracks = Ok out ->
  Forall2 (fun t u => exists v, u = set_RelativePopularityScore v t) tracks out.
Proof.
  intros Hscored. unfold compute_relative_popularity_by_genre.
  assert (map (fun t => match PopularityScore t with
                        | Some _ => t
                        | None => set_PopularityScore
                                    (compute_popularity E t (get_global_max_values E)) t
                        end) tracks = tracks) as ->.
  { rewrite <- (map_id tracks) at 2. apply map_ext_in. intros t Ht.
    specialize (Hscored t Ht). by destruct (PopularityScore t). }
  intros H%map_result_Forall2. eapply Forall2_impl; [exact H|].
  intros t u Hu. simpl in Hu. destruct (_ && _); [done|]. injection Hu as <-. by eexists.
Qed.

Lemma postprocessing_output E tracks user_prompt limit final :
  apply_intelligent_postprocessing E tracks user_prompt limit = Ok final ->
  postprocessed E tracks user_prompt final.
Proof.
  unfold apply_intelligent_postprocessing. destruct tracks as [|t0 rest].
  { intros [= <-]. split; [constructor|]. split; [constructor|]. split; intros ? []. }
  set (tracks := t0 :: rest).
  set (tracks1 := map _ tracks).
  intros H. apply bind_Ok in H as (deduped' & Hrel & [= <-]).
  unfold deduplicate_tracks_by_title_keep_best in Hrel.
  destruct (best_of_invariant tracks1) as (Hnd & Hown & _).
  assert (forall t, In t (map snd (best_of tracks1)) ->
            exists t1, In t1 tracks /\ t = set_PopularityScore
                                             (compute_popularity E t1 (get_global_max_values E)) t1)
    as Hfrom.
  { intros t [[k u] [<- Hin]]%in_map_iff. destruct (Hown k u Hin) as [_ Hu].
    apply in_map_iff in Hu as (t1 & <- & Ht1). eauto. }
  apply relative_popularity_of_scored in Hrel.
  2:{ intros t Ht. by destruct (Hfrom t Ht) as (t1 & _ & ->). }
  assert (map dedupe_key deduped' = map fst (best_of tracks1)) as Hkeys.
  { rewrite <- (stored_under_own_key (best_of tracks1))
      by (intros k u Hin; by destruct (Hown k u Hin)).
    clear -Hrel. induction Hrel as [|t u l l' [v ->] _ IH]; simpl; [done|]. by rewrite IH. }
  set (filtered := filter_gross_incongruities deduped' user_prompt).
  set (limited := limit_tracks_by_artist_album filtered 3 2).
  assert (sublist limited (sorted_desc rel_key filtered)) as Hlim
    by (unfold limited, limit_tracks_by_artist_album; apply limiter_run_sublist).
  assert (py_slice_to limit (sorted_desc rel_key limited) ⊆+ filtered) as Hsub.
  { etransitivity; [apply sublist_submseteq, py_slice_to_sublist|].
    etransitivity; [apply Permutation_submseteq, sorted_desc_perm|].
    etransitivity; [apply sublist_submseteq, Hlim|].
    apply Permutation_submseteq, sorted_desc_perm. }
  assert (sublist filtered deduped') as Hfil by apply List_filter_sublist.
  split.
  { apply (submseteq_NoDup _ (map dedupe_key deduped')).
    - apply map_submseteq. etransitivity; [exact Hsub|]. by apply sublist_submseteq.
    - by rewrite Hkeys. }
  split.
  { eapply best_first_sublist; [apply py_slice_to_sublist | apply sorted_desc_best_first]. }
  assert (forall u, In u (py_slice_to limit (sorted_desc rel_key limited)) -> In u filtered)
    as Hin.
  { intros u Hu. apply list_elem_of_In. eapply elem_of_submseteq; [|exact Hsub].
    by apply list_elem_of_In. }
  split.
  { intros u Hu. apply Hin in Hu. by apply filter_In in Hu as [_ ?]. }
  intros u Hu. apply Hin in Hu. apply filter_In in Hu as [Hu _].
  destruct (Forall2_In_r _ _ _ _ Hrel Hu) as (t & Htin & [v ->]).
  destruct (Hfrom t Htin) as (t1 & Ht1 & ->).
  exists t1. split; [done|]. split; [by repeat split|]. split; [done|]. by eexists.
Qed.

Lemma phase3_from_postprocessing E user_prompt filters analysis adjusted_limit tracks response :
  phase3 E user_prompt filters analysis adjusted_limit tracks = Ok response ->
  from_postprocessing E user_prompt response.
Proof.
  intros H. unfold phase3 in H. ok_steps H. injection H as <-. simpl.
  unfold from_postprocessing. simpl. eauto.
Qed.

Lemma phase2_from_postprocessing E user_prompt filters analysis adjusted_limit tracks response :
  phase2 E user_prompt filters analysis adjusted_limit tracks = Ok response ->
  from_postprocessing E user_prompt response.
Proof.
  intros H. unfold phase2 in H.
  repeat (apply bind_Ok in H; destruct H as (? & ? & H)).
  match type of H with (if ?c then _ else _) = _ => destruct c eqn:Hc end.
  - injection H as <-. unfold from_postprocessing. simpl. eauto.
  - by apply phase3_from_postprocessing in H.
Qed.

Lemma hybrid_cycle_body_from_postprocessing E user_prompt default_limit llm_analysis response :
  hybrid_cycle_body E user_prompt default_limit llm_analysis = Ok response ->
  from_postprocessing E user_prompt response.
Proof.
  intros H. unfold hybrid_cycle_body in H.
  repeat (apply bind_Ok in H; destruct H as (? & ? & H)).
  match type of H with (if ?c then _ else _) = _ => destruct c eqn:Hc end.
  - injection H as <-. unfold from_postprocessing. simpl. eauto.
  - by apply phase2_from_postprocessing in H.
Qed.

Lemma emergency_fallback_from_postprocessing E user_prompt limit error_msg response :
  emergency_fallback E user_prompt limit error_msg = Ok response ->
  from_postprocessing E user_prompt response.
Proof.
  intros H. unfold emergency_fallback in H.
  match type of H with
  | match ?m with _ => _ end = _ => destruct m as [[r|]|e] eqn:Hk
  end.
  - injection H as <-.
    destruct (keywords (str_lower user_prompt)) as [|w ws]; [discriminate|].
    repeat (apply bind_Ok in Hk; destruct Hk as (? & ? & Hk)).
    injection Hk as <-. unfold from_postprocessing. simpl. eauto.
  - repeat (apply bind_Ok in H; destruct H as (? & ? & H)).
    injection H as <-. unfold from_postprocessing. simpl. eauto.
  - repeat (apply bind_Ok in H; destruct H as (? & ? & H)).
    injection H as <-. unfold from_postprocessing. simpl. eauto.
Qed.

Lemma postprocessing_caps E tracks user_prompt limit final :
  apply_intelligent_postprocessing E tracks user_prompt limit = Ok final ->
  (forall a, count_where (keyed artist_key a) final <= 3)
  /\ (forall a b, count_where (same_pair a b) final <= 2).
Proof.
  intros H. unfold apply_intelligent_postprocessing in H.
  destruct tracks as [|t0 tracks].
  { injection H as <-. split; intros; unfold count_where; simpl; lia. }
  apply bind_Ok in H as (deduped & _ & H). injection H as <-.
  set (filtered := filter_gross_incongruities deduped user_prompt).
  pose proof (limiter_run_caps artist_key album_key 3 2 (sorted_desc rel_key filtered))
    as [Ha' Hb'].
  assert (forall p, count_where p (py_slice_to limit
                      (sorted_desc rel_key (limit_tracks_by_artist_album filtered 3 2)))
                    <= count_where p (limit_tracks_by_artist_album filtered 3 2)) as Hle.
  { intros p. etransitivity; [apply count_where_sublist, py_slice_to_sublist|].
    by rewrite (count_where_perm p _ _ (sorted_desc_perm rel_key _)). }
  split.
  - intros a. etransitivity; [apply Hle|]. specialize (Ha' a).
    unfold limit_tracks_by_artist_album. lia.
  - intros a b. etransitivity; [apply Hle|].
    etransitivity; [apply count_where_le, same_pair_album_key|].
    specialize (Hb' (if String.eqb b "" then a else a ++ "::" ++ b)%string).
    unfold limit_tracks_by_artist_album. lia.
Qed.

Lemma dedupe_key_of_title t : title_key t <> "" -> dedupe_key t = title_key t.
Proof.
  unfold dedupe_key, title_key. intros Hne.
  by destruct (String.eqb_spec (normalize_title_for_dedupe (str_or_empty (Titulo t))) "").
Qed.

Lemma title_keys_distinct l :
  NoDup (map dedupe_key l) ->
  NoDup (List.filter (fun k => negb (String.eqb k "")) (map title_key l)).
Proof.
  induction l as [|t l IH]; simpl; [constructor|].
  intros [Hnotin Hnd]%NoDup_cons. specialize (IH Hnd).
  destruct (String.eqb_spec (title_key t) "") as [He|Hne]; simpl; [exact IH|].
  apply NoDup_cons. split; [|exact IH].
  intros Hin. apply Hnotin. apply list_elem_of_In in Hin.
  apply filter_In in Hin as [Hin _]. apply in_map_iff in Hin as (u & Hu & Huin).
  apply list_elem_of_In, in_map_iff. exists u. split; [|done].
  rewrite (dedupe_key_of_title t Hne), <- Hu. apply dedupe_key_of_title. by rewrite Hu.
Qed.

Lemma phase3_phase E user_prompt filters analysis adjusted_limit tracks response :
  phase3 E user_prompt filters analysis adjusted_limit tracks = Ok response ->
  phase response = 3.
Proof. intros H. unfold phase3 in H. ok_steps H. by injection H as <-. Qed.

Lemma phase2_phase E user_prompt filters analysis adjusted_limit tracks response :
  phase2 E user_prompt filters analysis adjusted_limit tracks = Ok response ->
  phase response = 2 \/ phase response = 3.
Proof.
  intros H. unfold phase2 in H.
  repeat (apply bind_Ok in H; destruct H as (? & ? & H)).
  match type of H with (if ?c then _ else _) = _ => destruct c eqn:Hc end.
  - injection H as <-. by left.
  - apply phase3_phase in H. by right.
Qed.

Lemma hybrid_cycle_body_phase E user_prompt default_limit llm_analysis response :
  hybrid_cycle_body E user_prompt default_limit llm_analysis = Ok response ->
  phase response = 1 \/ phase response = 2 \/ phase response = 3.
Proof.
  intros H. unfold hybrid_cycle_body in H.
  repeat (apply bind_Ok in H; destruct H as (? & ? & H)).
  match type of H with (if ?c then _ else _) = _ => destruct c eqn:Hc end.
  - injection H as <-. by left.
  - apply phase2_phase in H. tauto.
Qed.

Lemma emergency_fallback_phase E user_prompt limit error_msg response :
  emergency_fallback E user_prompt limit error_msg = Ok response -> phase response = 0.
Proof.
  intros H. unfold emergency_fallback in H.
  match type of H with
  | match ?m with _ => _ end = _ => destruct m as [[r|]|e] eqn:Hk
  end.
  - injection H as <-.
    destruct (keywords (str_lower user_prompt)) as [|w ws]; [discriminate|].
    repeat (apply bind_Ok in Hk; destruct Hk as (? & ? & Hk)).
    by injection Hk as <-.
  - repeat (apply bind_Ok in H; destruct H as (? & ? & H)). by injection H as <-.
  - repeat (apply bind_Ok in H; destruct H as (? & ? & H)). by injection H as <-.
Qed.

(** ** C10: the tiered catalog search *)

Lemma absorb_invariant limit found st :
  search_invariant limit st ->
  Z.of_nat (length (results st)) < limit ->
  search_invariant limit (absorb limit found st)
  /\ exists added, results (absorb limit found st) = (results st ++ added)%list.
Proof.
  revert st. induction found as [|f found IH]; intros st Hinv Hshort; simpl.
  - split; [done|]. exists []. by rewrite app_nil_r.
  - destruct (Ruta f) as [ruta|] eqn:Hr; [|by apply IH].
    destruct (String.eqb_spec ruta "") as [->|Hne]; simpl; [by apply IH|].
    case_bool_decide as Hseen; simpl; [by apply IH|].
    destruct Hinv as (Hlen & Hnd & Hall).
    assert (search_invariant limit (mkSearch (results st ++ [f]) ({[ruta]} ∪ seen_rutas st)))
      as Hinv'.
    { split; [|split]; simpl.
      - rewrite length_app. simpl. lia.
      - rewrite map_app. simpl. apply NoDup_app. split; [done|].
        split; [|apply NoDup_singleton].
        intros x Hx ->%list_elem_of_singleton.
        apply list_elem_of_In, in_map_iff in Hx as (t & Ht & Hin).
        destruct (Hall t Hin) as (r & Hr' & _ & Hs). rewrite Ht, Hr in Hr'.
        injection Hr' as <-. done.
      - intros t [Hin|[<-|[]]]%in_app_iff.
        + destruct (Hall t Hin) as (r & ? & ? & ?). exists r.
          repeat split; try done. apply elem_of_union. by right.
        + exists ruta. repeat split; try done. apply elem_of_union. left.
          by apply elem_of_singleton. }
    destruct (limit <=? _) eqn:Hfull.
    + split; [done|]. by exists [f].
    + destruct (IH _ Hinv') as [Hfin [added Hadd]].
      { simpl in *. lia. }
      split; [done|]. exists (f :: added). rewrite Hadd. simpl. by rewrite <- app_assoc.
Qed.

Lemma tier_suggestions_invariant E nf limit sugerencia st st' :
  tier_suggestions E nf limit sugerencia st = Ok st' ->
  search_invariant limit st ->
  search_invariant limit st'
  /\ exists added, results st' = (results st ++ added)%list.
Proof.
  revert st. induction sugerencia as [|s rest IH]; intros st H Hinv; simpl in H.
  - injection H as <-. split; [done|]. exists []. by rewrite app_nil_r.
  - destruct (limit <=? _) eqn:Hfull.
    { injection H as <-. split; [done|]. exists []. by rewrite app_nil_r. }
    repeat (apply bind_Ok in H; destruct H as (? & ? & H)).
    destruct (suggestion_query _ _ _ _) as [query|]; [|by apply IH].
    match type of H with
    | tier_suggestions _ _ _ _ (absorb _ ?found _) = _ =>
        destruct (absorb_invariant limit found st Hinv) as [Hinv' [a1 Ha1]]; [lia|]
    end.
    destruct (IH _ H Hinv') as [Hfin [a2 Ha2]].
    split; [done|]. exists (a1 ++ a2)%list. by rewrite Ha2, Ha1, <- app_assoc.
Qed.

Lemma tier_direct_invariant E nf limit st :
  search_invariant limit st ->
  search_invariant limit (tier_direct E nf limit st)
  /\ exists added, results (tier_direct E nf limit st) = (results st ++ added)%list.
Proof.
  intros Hinv. unfold tier_direct.
  destruct (_ <? limit) eqn:Hshort; simpl;
    [|split; [done|]; exists []; by rewrite app_nil_r].
  destruct (match nf with [] => false | _ => true end);
    [|split; [done|]; exists []; by rewrite app_nil_r].
  destruct (find_sorted E _) as [rows|e];
    [|split; [done|]; exists []; by rewrite app_nil_r].
  apply absorb_invariant; [done|lia].
Qed.

Lemma tier_decade_invariant E nf limit st :
  search_invariant limit st ->
  search_invariant limit (tier_decade E nf limit st)
  /\ exists added, results (tier_decade E nf limit st) = (results st ++ added)%list.
Proof.
  intros Hinv. unfold tier_decade.
  destruct (dict_get "Decada" nf) as [decade|];
    [|split; [done|]; exists []; by rewrite app_nil_r].
  destruct (_ <? limit) eqn:Hshort;
    [|split; [done|]; exists []; by rewrite app_nil_r].
  destruct (find_sorted E _) as [rows|e];
    [|split; [done|]; exists []; by rewrite app_nil_r].
  apply absorb_invariant; [done|lia].
Qed.

Lemma tier_keywords_invariant E sugerencia nf limit user_prompt st st' :
  tier_keywords E sugerencia nf limit user_prompt st = Ok st' ->
  search_invariant limit st ->
  search_invariant limit st'
  /\ exists added, results st' = (results st ++ added)%list.
Proof.
  intros H Hinv. unfold tier_keywords in H.
  assert (forall s : search_state, search_invariant limit s ->
            search_invariant limit s /\ exists added, results s = (results s ++ added)%list)
    as Hsame.
  { intros s Hs. split; [done|]. exists []. by rewrite app_nil_r. }
  destruct user_prompt as [prompt|]; [|injection H as <-; by apply Hsame].
  destruct (_ && _) eqn:Hc; [|injection H as <-; by apply Hsame].
  destruct (keywords prompt) as [|w ws]; [injection H as <-; by apply Hsame|].
  apply bind_Ok in H as (rows & _ & H). injection H as <-.
  apply absorb_invariant; [done|].
  apply andb_prop in Hc as [Hc _]. apply andb_prop in Hc as [Hc _].
  apply andb_prop in Hc as [Hc _]. lia.
Qed.

(** a tier leaves the state as it is once the limit is reached *)
Lemma tiers_idle_when_full E sugerencia items nf limit user_prompt st :
  limit <= Z.of_nat (length (results st)) ->
  tier_suggestions E nf limit items st = Ok st
  /\ tier_direct E nf limit st = st
  /\ tier_decade E nf limit st = st
  /\ tier_keywords E sugerencia nf limit user_prompt st = Ok st.
Proof.
  intros Hfull. repeat split.
  - destruct items; simpl; [done|]. by replace (limit <=? _) with true by lia.
  - unfold tier_direct. by replace (_ <? limit) with false by lia.
  - unfold tier_decade. destruct (dict_get _ _); [|done].
    by replace (_ <? limit) with false by lia.
  - unfold tier_keywords. destruct user_prompt; [|done].
    by replace (_ <? limit) with false by lia.
Qed.

(** C10.  Whatever the suggestions, the filters, the limit and the answers
    of the store, a search that returns has found at most [limit] tracks (none
    when the limit is not positive), their file references are non-empty and
    pairwise distinct, so a row without a file reference is never included;
    every tier only appends to the rows found so far, and leaves them as they
    are once their count has reached the limit. *)
Theorem tiered_search_bounded_and_distinct :
  forall (E : Collaborators) (sugerencia llm_filters : json) (limit : Z)
         (user_prompt : option string) (found : list Track),
    search_tracks_in_mongo E sugerencia llm_filters limit user_prompt = Ok found ->
    Z.of_nat (length found) <= Z.max 0 limit
    /\ NoDup (map Ruta found)
    /\ (forall t, In t found -> exists ruta, Ruta t = Some ruta /\ ruta <> EmptyString)
    /\ (forall t, In t found -> Ruta t <> None /\ Ruta t <> Some EmptyString)
    /\ (forall nf items st,
          limit <= Z.of_nat (length (results st)) ->
          tier_suggestions E nf limit items st = Ok st
          /\ tier_direct E nf limit st = st
          /\ tier_decade E nf limit st = st
          /\ tier_keywords E sugerencia nf limit user_prompt st = Ok st)
    /\ (forall nf items st st',
          search_invariant limit st ->
          (tier_suggestions E nf limit items st = Ok st'
           \/ tier_direct E nf limit st = st'
           \/ tier_decade E nf limit st = st'
           \/ tier_keywords E sugerencia nf limit user_prompt st = Ok st') ->
          search_invariant limit st'
          /\ exists added, results st' = (results st ++ added)%list).
Proof.
  intros E sugerencia llm_filters limit user_prompt found H.
  unfold search_tracks_in_mongo in H.
  apply bind_Ok in H as (nf & _ & H). apply bind_Ok in H as (n & _ & H).
  apply bind_Ok in H as (st1 & H1 & H). apply bind_Ok in H as (st4 & H4 & H).
  injection H as <-.
  assert (search_invariant limit (mkSearch [] ∅)) as Hinit.
  { split; [simpl; lia|]. split; [apply NoDup_nil_2|]. intros t []. }
  assert (search_invariant limit st1) as Hinv1.
  { destruct (truthy sugerencia).
    - by apply tier_suggestions_invariant in H1 as [? _].
    - by injection H1 as <-. }
  pose proof (tier_direct_invariant E nf limit st1 Hinv1) as [Hinv2 _].
  pose proof (tier_decade_invariant E nf limit _ Hinv2) as [Hinv3 _].
  apply tier_keywords_invariant in H4 as [(Hlen & Hnd & Hall) _]; [|done].
  split; [done|]. split; [done|]. split.
  { intros t Hin. destruct (Hall t Hin) as (r & ? & ? & _). by exists r. }
  split.
  { intros t Hin. destruct (Hall t Hin) as (r & -> & ? & _). split; congruence. }
  split.
  { intros. by apply tiers_idle_when_full. }
  intros nf' items st st' Hinv [Ht|[<-|[<-|Ht]]].
  - by eapply tier_suggestions_invariant.
  - by apply tier_direct_invariant.
  - by apply tier_decade_invariant.
  - by eapply tier_keywords_invariant.
Qed.


Lemma tiered_search_bounded_and_distinct_witness :
  search_tracks_in_mongo (offline_engine [sample_track; sample_track; fixture_plain])
    (JList []) (JDict []) 5 (Some "hello rock song")
  = Ok [sample_track; fixture_plain]
  /\ Z.of_nat (length [sample_track; fixture_plain]) <= Z.max 0 5
  /\ NoDup (map Ruta [sample_track; fixture_plain]).
Proof.
  assert (search_tracks_in_mongo (offline_engine [sample_track; sample_track; fixture_plain])
            (JList []) (JDict []) 5 (Some "hello rock song")
          = Ok [sample_track; fixture_plain]) as Hrun by (vm_compute; reflexivity).
  split; [exact Hrun|].
  destruct (tiered_search_bounded_and_distinct _ _ _ _ _ _ Hrun) as (Hlen & Hnd & _).
  split; [exact Hlen | exact Hnd].
Defined.
(** ** C3: a lost call to the model *)

Lemma lost_call_shape E prompt :
  llm_call_lost E prompt ->
  (exists e, call_ollama_safe E prompt = JDict [("error", JStr e)])
  \/ (exists text, call_ollama_safe E prompt = JDict [("raw", text)]).
Proof.
  unfold llm_call_lost, call_ollama_safe.
  destruct (ollama_post E prompt) as [data|e]; simpl; [|eauto].
  destruct data; simpl; eauto.
  unfold reply_text. intros ->. simpl. eauto.
Qed.

Lemma lost_call_reads_empty E prompt :
  llm_call_lost E prompt ->
  same_for_the_phases E (call_ollama_safe E prompt) empty_model_answer.
Proof.
  intros [[e ->]|[text ->]]%lost_call_shape; repeat split.
Qed.

Section Degraded.
Context (E : Collaborators) (post : string -> result json).

Abbreviation E' := (with_ollama_post E post).

Hypothesis degraded :
  forall p, post p = ollama_post E p
            \/ (llm_call_lost E p /\ call_ollama_safe E' p = empty_model_answer).

Lemma degraded_call p :
  same_for_the_phases E (call_ollama_safe E' p) (call_ollama_safe E p).
Proof.
  destruct (degraded p) as [Heq|[Hlost ->]].
  - unfold call_ollama_safe. simpl. rewrite Heq. repeat split.
  - destruct (lost_call_reads_empty E p Hlost) as (H1 & H2 & H3).
    repeat split; [by rewrite H1 | by rewrite H2 | intros; by rewrite H3].
Qed.

Lemma tier_suggestions_same nf limit sugerencia st :
  tier_suggestions E' nf limit sugerencia st = tier_suggestions E nf limit sugerencia st.
Proof.
  revert st. induction sugerencia as [|s rest IH]; intros st; simpl; [done|].
  destruct (limit <=? _); [done|].
  destruct (suggestion_field "titulo" s); simpl; [|done].
  destruct (suggestion_field "artista" s); simpl; [|done].
  destruct (suggestion_field "album" s); simpl; [|done].
  destruct (suggestion_query _ _ _ _); by rewrite IH.
Qed.

Lemma search_same sugerencia llm_filters limit user_prompt :
  search_tracks_in_mongo E' sugerencia llm_filters limit user_prompt
  = search_tracks_in_mongo E sugerencia llm_filters limit user_prompt.
Proof.
  unfold search_tracks_in_mongo.
  destruct (parse_filters_from_llm _) as [nf|]; simpl; [|done].
  destruct (py_len sugerencia); simpl; [|done].
  rewrite tier_suggestions_same. reflexivity.
Qed.

Lemma phase3_same user_prompt filters analysis adjusted_limit tracks :
  phase3 E' user_prompt filters analysis adjusted_limit tracks
  = phase3 E user_prompt filters analysis adjusted_limit tracks.
Proof.
  unfold phase3. simpl.
  destruct (degraded_call
              (build_validation_prompt_with_country E user_prompt filters tracks
                 (collect_enriched_context E) analysis)) as (_ & _ & H3).
  replace (extract_validated_tracks E') with (extract_validated_tracks E) by reflexivity.
  rewrite H3. reflexivity.
Qed.

Lemma phase2_same user_prompt filters analysis adjusted_limit tracks :
  phase2 E' user_prompt filters analysis adjusted_limit tracks
  = phase2 E user_prompt filters analysis adjusted_limit tracks.
Proof.
  unfold phase2. simpl.
  destruct (degraded_call
              (build_completion_prompt_with_country E user_prompt filters tracks
                 (collect_enriched_context E)
                 (adjusted_limit - Z.of_nat (length tracks)) analysis)) as (H1 & H2 & _).
  rewrite H1, H2.
  destruct (py_len _); simpl; [|done].
  match goal with |- context [(if ?c then ?a else ?b) ≫= _] => destruct (if c then a else b) end;
    simpl; [|done].
  rewrite search_same.
  destruct (search_tracks_in_mongo E _ _ _ _); simpl; [|done].
  replace (apply_intelligent_postprocessing E') with (apply_intelligent_postprocessing E)
    by reflexivity.
  destruct (apply_intelligent_postprocessing E _ _ _); simpl; [|done].
  destruct (apply_intelligent_postprocessing E _ _ _); simpl; [|done].
  destruct (_ <=? _); [done|]. apply phase3_same.
Qed.

Lemma hybrid_cycle_body_same user_prompt default_limit llm_analysis :
  hybrid_cycle_body E' user_prompt default_limit llm_analysis
  = hybrid_cycle_body E user_prompt default_limit llm_analysis.
Proof.
  unfold hybrid_cycle_body. simpl.
  replace (analyze_query_intent E') with (analyze_query_intent E) by reflexivity.
  set (analysis := enhance_region_detection _ _).
  set (adjusted_limit := adjust_limit_based_on_complexity _ _ _).
  destruct (degraded_call
              (build_enhanced_prompt_with_country E user_prompt
                 (collect_enriched_context E) analysis)) as (H1 & H2 & _).
  rewrite H1, H2.
  destruct (py_len _); simpl; [|done].
  destruct (force_country_filter _ _); simpl; [|done].
  destruct (parse_filters_from_llm _); simpl; [|done].
  rewrite search_same.
  destruct (search_tracks_in_mongo E _ _ _ _); simpl; [|done].
  replace (apply_intelligent_postprocessing E') with (apply_intelligent_postprocessing E)
    by reflexivity.
  destruct (apply_intelligent_postprocessing E _ _ _); simpl; [|done].
  destruct (_ <=? _); [done|]. apply phase2_same.
Qed.
End Degraded.

(** C3.  Let the call to the model for some prompts be lost: it fails
    (timeout, connection or HTTP error, unusable body) or its text cannot be
    parsed as JSON after the repair attempts.  Then [call_ollama_safe] still
    returns a dictionary, never an exception; the phase reads from it no
    filter and no suggestion, and phase 3 keeps the tracks it already has.
    The whole engine returns exactly what it returns when the model answers
    those prompts with zero suggestions and zero extra filters. *)
Theorem lost_llm_call_is_an_empty_answer :
  forall (E : Collaborators) (post : string -> result json),
    (forall p, post p = ollama_post E p
               \/ (llm_call_lost E p
                   /\ call_ollama_safe (with_ollama_post E post) p = empty_model_answer)) ->
    (forall user_prompt default_limit llm_analysis,
        hybrid_playlist_cycle_enhanced E user_prompt default_limit llm_analysis
        = hybrid_playlist_cycle_enhanced (with_ollama_post E post) user_prompt default_limit
            llm_analysis)
    /\ (forall p, llm_call_lost E p ->
          (exists d, call_ollama_safe E p = JDict d)
          /\ reply_filters (py_or (call_ollama_safe E p) (JDict [])) = JDict []
          /\ reply_suggestions (py_or (call_ollama_safe E p) (JDict [])) = JList []
          /\ forall local_tracks limit,
               extract_validated_tracks E (py_or (call_ollama_safe E p) (JDict []))
                 local_tracks limit
               = Ok (py_slice_to limit local_tracks)).
Proof.
  intros E post Hdeg. split.
  - intros user_prompt default_limit llm_analysis.
    unfold hybrid_playlist_cycle_enhanced.
    rewrite (hybrid_cycle_body_same E post Hdeg). reflexivity.
  - intros p Hlost. split.
    + apply lost_call_shape in Hlost as [[e ->]|[text ->]]; eauto.
    + destruct (lost_call_reads_empty E p Hlost) as (-> & -> & H3).
      repeat split. intros. by rewrite H3.
Qed.


Lemma lost_llm_call_is_an_empty_answer_witness :
  (forall p, llm_call_lost (scripted_engine [sample_track]) p)
  /\ (forall p, call_ollama_safe (with_ollama_post (scripted_engine [sample_track]) empty_reply) p
                = empty_model_answer)
  /\ hybrid_playlist_cycle_enhanced (scripted_engine [sample_track]) "hello rock" 5 None
     = hybrid_playlist_cycle_enhanced
         (with_ollama_post (scripted_engine [sample_track]) empty_reply) "hello rock" 5 None.
Proof.
  assert (forall p, llm_call_lost (scripted_engine [sample_track]) p) as Hlost
    by (intros p; exact I).
  assert (forall p, call_ollama_safe
                      (with_ollama_post (scripted_engine [sample_track]) empty_reply) p
                    = empty_model_answer) as Hempty
    by (intros p; vm_compute; reflexivity).
  split; [exact Hlost|]. split; [exact Hempty|].
  apply (lost_llm_call_is_an_empty_answer (scripted_engine [sample_track]) empty_reply).
  intros p. right. split; [apply Hlost | apply Hempty].
Defined.
(** ** C5: the detected country and the model *)

Lemma detect_country_intent_lower text :
  detect_country_intent (str_lower text) = detect_country_intent text.
Proof. unfold detect_country_intent. by rewrite str_lower_idem. Qed.

Lemma dict_get_set_eq k v d : dict_get k (dict_set k v d) = Some v.
Proof.
  induction d as [|[k' v'] d IH]; simpl.
  - by rewrite String.eqb_refl.
  - destruct (String.eqb_spec k k') as [->|Hne]; simpl.
    + by rewrite String.eqb_refl.
    + by rewrite (proj2 (String.eqb_neq k k') Hne).
Qed.

Lemma dict_get_set_ne k k' v d : k <> k' -> dict_get k (dict_set k' v d) = dict_get k d.
Proof.
  intros Hne. induction d as [|[k'' v''] d IH]; simpl.
  - by rewrite (proj2 (String.eqb_neq k k') Hne).
  - destruct (String.eqb_spec k' k'') as [->|Hne']; simpl.
    + by rewrite (proj2 (String.eqb_neq k k'') Hne).
    + destruct (String.eqb k k''); [done|apply IH].
Qed.

(** a detected country is a non-empty name, its kind one of the two kinds *)
Lemma detected_country_shape text :
  has_country_intent (detect_country_intent text) = true ->
  exists c, country (detect_country_intent text) = JStr c /\ c <> EmptyString
            /\ (country_type (detect_country_intent text) = JStr "origin"
                \/ country_type (detect_country_intent text) = JStr "popular_in").
Proof.
  unfold detect_country_intent, COUNTRY_KEYWORDS. generalize (str_lower text). intros lower.
  cbn [first_country has_country_intent country country_type].
  repeat match goal with
         | |- context [if str_contains ?k lower then _ else _] =>
             destruct (str_contains k lower);
             cbn [first_country has_country_intent country country_type];
             [intros _; eexists; split; [reflexivity|]; split; [discriminate|];
              destruct (any_in POPULARITY_KEYWORDS lower); tauto|]
         end.
  discriminate.
Qed.

(** C5 (as amended).  When the regex detection finds a country and the query
    names no region, the [country] and [country_type] of the intent are the
    detected values whatever the model answers, so two runs on the same query
    with any two model behaviours agree on both fields; and the cycle writes
    the detected pair into the phase-1 filter map over whatever country the
    model returned there. *)
Theorem detected_country_overrides_model :
  forall (E : Collaborators) (query_text : string),
    has_country_intent (detect_country_intent query_text) = true ->
    detect_region_from_query query_text = None ->
    let detected := detect_country_intent query_text in
    let intent := analyze_query_intent E query_text in
    dict_get "country" intent = Some (country detected)
    /\ dict_get "country_type" intent = Some (country_type detected)
    /\ (forall E2 : Collaborators,
          dict_get "country" (analyze_query_intent E2 query_text) = dict_get "country" intent
          /\ dict_get "country_type" (analyze_query_intent E2 query_text)
             = dict_get "country_type" intent)
    /\ (forall model_filters : dict,
          exists forced,
            force_country_filter (enhance_region_detection intent query_text)
              (JDict model_filters) = Ok (JDict forced)
            /\ dict_get "country" forced = Some (country detected)
            /\ dict_get "country_type" forced = Some (country_type detected)).
Proof.
  intros E query_text Hdet Hreg detected intent. subst detected intent.
  assert (forall E0, dict_get "country" (analyze_query_intent E0 query_text)
                     = Some (country (detect_country_intent query_text))
                     /\ dict_get "country_type" (analyze_query_intent E0 query_text)
                        = Some (country_type (detect_country_intent query_text))) as Hall.
  { intros E0. unfold analyze_query_intent.
    destruct (as_dict _) as [parsed|e];
      cbn -[detect_country_intent dict_set dict_get enhance_region_detection
            get_improved_fallback_analysis validate_and_normalize_limit].
    - unfold enhance_region_detection. rewrite Hreg, Hdet.
      split.
      + rewrite dict_get_set_ne by discriminate. rewrite dict_get_set_ne by discriminate.
        apply dict_get_set_eq.
      + rewrite dict_get_set_ne by discriminate. apply dict_get_set_eq.
    - unfold get_improved_fallback_analysis. rewrite detect_country_intent_lower.
      by split. }
  destruct (Hall E) as [Hc Ht].
  split; [done|]. split; [done|]. split.
  { intros E2. destruct (Hall E2) as [-> ->]. by rewrite Hc, Ht. }
  intros model_filters.
  destruct (detected_country_shape query_text Hdet) as (c & Hcs & Hne & Hkind).
  unfold force_country_filter, enhance_region_detection. rewrite Hreg.
  unfold dict_get_none, dict_get_default. rewrite Hc, Ht.
  destruct (detect_country_intent query_text) as [has cty kind]. simpl in *. subst cty.
  simpl. destruct (String.eqb_spec c "") as [->|_]; [done|]. simpl.
  eexists. split; [reflexivity|]. split.
  - rewrite dict_get_set_ne by discriminate. by rewrite dict_get_set_eq.
  - by rewrite dict_get_set_eq.
Qed.

(** the claim as stated fails on a query that names a country and a region *)
Lemma detected_country_cleared_by_region :
  has_country_intent (detect_country_intent "rock latino de Chile") = true
  /\ country (detect_country_intent "rock latino de Chile") = JStr "Chile"
  /\ dict_get "country" (analyze_query_intent (offline_engine []) "rock latino de Chile")
     = Some JNull
  /\ dict_get "country" (analyze_query_intent (offline_engine []) "rock latino de Chile")
     <> Some (country (detect_country_intent "rock latino de Chile"))
  /\ dict_get "country_type" (analyze_query_intent (offline_engine []) "rock latino de Chile")
     <> Some (country_type (detect_country_intent "rock latino de Chile")).
Proof. vm_compute. repeat split; discriminate. Qed.

Lemma detected_country_overrides_model_witness :
  dict_get "country" (analyze_query_intent (offline_engine []) "rock de Chile")
  = Some (JStr "Chile").
Proof.
  destruct (detected_country_overrides_model (offline_engine []) "rock de Chile")
    as [H _].
  - reflexivity.
  - reflexivity.
  - exact H.
Defined.

(** ** C2: the empty result *)

Lemma dedup_from_input tracks u :
  In u (deduplicate_tracks_by_title_keep_best tracks) -> In u tracks.
Proof.
  unfold deduplicate_tracks_by_title_keep_best.
  intros [[k u'] [<- Hin]]%in_map_iff.
  by destruct (proj1 (proj2 (best_of_invariant tracks)) k u' Hin).
Qed.

Lemma postprocessing_returns E tracks user_prompt limit :
  scores_nonnegative E ->
  exists out, apply_intelligent_postprocessing E tracks user_prompt limit = Ok out.
Proof.
  intros Hpos. unfold apply_intelligent_postprocessing.
  destruct tracks as [|t0 tracks]; [eauto|].
  set (scored := map _ (t0 :: tracks)).
  assert (forall u, In u scored -> exists v, PopularityScore u = Some v /\ 0 <= v) as Hscored.
  { intros u [t [<- _]]%in_map_iff. simpl. eauto. }
  unfold compute_relative_popularity_by_genre.
  match goal with
  | |- context [map_result ?f ?l] => destruct (map_result_total f l) as [ys ->]
  end.
  - intros u [t [<- Hin]]%in_map_iff.
    apply dedup_from_input, Hscored in Hin as (v & Hv & Hpv).
    rewrite Hv. simpl. rewrite Hv. simpl.
    replace (v <? 0) with false by lia. rewrite andb_false_r. eauto.
  - simpl. eauto.
Qed.

Lemma emergency_fallback_returns E user_prompt limit error_msg :
  store_answers E -> scores_nonnegative E ->
  exists response, emergency_fallback E user_prompt limit error_msg = Ok response
                   /\ phase response = 0.
Proof.
  intros [Hfind Hsorted] Hpos. unfold emergency_fallback.
  destruct (keywords (str_lower user_prompt)) as [|w ws].
  - destruct (Hsorted (JDict [])) as [rows ->]. simpl.
    destruct (postprocessing_returns E (cursor_limit limit rows) user_prompt limit Hpos)
      as [out ->].
    simpl. eauto.
  - destruct (Hfind (keyword_query ["Genero"; "Titulo"; "Artista"] (w :: ws))) as [rows ->].
    simpl.
    destruct (postprocessing_returns E (cursor_limit (limit * 2) rows) user_prompt limit Hpos)
      as [out ->].
    simpl. eauto.
Qed.

(** C2 (as amended).  An empty list is a normal response, never an
    exception: when the store answers its queries, the engine returns a
    response whatever the prompt, the limit and the model do.  The response of
    a main cycle that completes is returned as it is, empty or not, with its
    phase 1, 2 or 3; the emergency fallback, phase 0, is the response exactly
    when the main cycle raised.  Either way the tracks of the response are a
    list the shared post-processing returned, so they pass its filters: no
    two share a deduplication key, each passes the incongruity filter for the
    prompt, at most 3 share an artist and at most 2 an (artist, album) pair.
    No step promises a track for a non-empty catalog. *)
Theorem empty_playlist_is_a_normal_response :
  forall (E : Collaborators) (user_prompt : string) (default_limit : Z)
         (llm_analysis : option dict),
    store_answers E -> scores_nonnegative E ->
    exists response,
      hybrid_playlist_cycle_enhanced E user_prompt default_limit llm_analysis = Ok response
      /\ (forall r,
            hybrid_cycle_body E user_prompt default_limit llm_analysis = Ok r ->
            response = r
            /\ (phase response = 1 \/ phase response = 2 \/ phase response = 3))
      /\ (forall e,
            hybrid_cycle_body E user_prompt default_limit llm_analysis = Raise e ->
            emergency_fallback E user_prompt default_limit e = Ok response
            /\ phase response = 0)
      /\ (phase response = 0 <->
            exists e, hybrid_cycle_body E user_prompt default_limit llm_analysis = Raise e)
      /\ from_postprocessing E user_prompt response
      /\ NoDup (map dedupe_key (items response))
      /\ (forall u, In u (items response) -> congruent user_prompt u = true)
      /\ (forall a, count_where (keyed artist_key a) (items response) <= 3)
      /\ (forall a b, count_where (same_pair a b) (items response) <= 2).
Proof.
  intros E user_prompt default_limit llm_analysis Hstore Hpos.
  unfold hybrid_playlist_cycle_enhanced, try_except.
  destruct (hybrid_cycle_body _ _ _ _) as [r|e] eqn:Hbody.
  - exists r. pose proof (hybrid_cycle_body_phase _ _ _ _ _ Hbody) as Hphase.
    pose proof (hybrid_cycle_body_from_postprocessing _ _ _ _ _ Hbody) as Hfrom.
    destruct Hfrom as (tracks & limit & Hpost).
    pose proof (postprocessing_output _ _ _ _ _ Hpost) as (Hnd & _ & Hcong & _).
    pose proof (postprocessing_caps _ _ _ _ _ Hpost) as [Ha Hb].
    split; [done|]. split; [by intros ? [= <-]|]. split; [intros ? [=]|].
    split; [split; [lia | by intros [? [=]]]|].
    split; [by exists tracks, limit|]. done.
  - destruct (emergency_fallback_returns E user_prompt default_limit e Hstore Hpos)
      as (response & Hresp & Hphase).
    exists response.
    pose proof (emergency_fallback_from_postprocessing _ _ _ _ _ Hresp) as Hfrom.
    destruct Hfrom as (tracks & limit & Hpost).
    pose proof (postprocessing_output _ _ _ _ _ Hpost) as (Hnd & _ & Hcong & _).
    pose proof (postprocessing_caps _ _ _ _ _ Hpost) as [Ha Hb].
    split; [done|]. split; [intros ? [=]|]. split; [by intros ? [= <-]|].
    split; [split; [by eauto | done]|].
    split; [by exists tracks, limit|]. done.
Qed.

(** the claim as stated fails: one track in the catalog, nothing returned,
    by the main cycle and by the emergency fallback alike *)
Lemma nonempty_catalog_empty_playlist :
  find (offline_engine [sample_track]) (JDict []) = Ok [sample_track]
  /\ (exists response,
        hybrid_playlist_cycle_enhanced (offline_engine [sample_track]) "zzzz" 40 None
        = Ok response
        /\ items response = [] /\ phase response = 3)
  /\ (exists response,
        emergency_fallback (offline_engine [sample_track]) "zzzz" 40 "error" = Ok response
        /\ items response = [])
  /\ (exists response,
        emergency_fallback (offline_engine [sample_track]) "abc" 40 "error" = Ok response
        /\ items response = []).
Proof.
  split; [reflexivity|].
  split; [eexists; split; [vm_compute; reflexivity|split; reflexivity]|].
  split; eexists; (split; [vm_compute; reflexivity|reflexivity]).
Qed.

Lemma empty_playlist_is_a_normal_response_witness :
  exists response,
    hybrid_playlist_cycle_enhanced (offline_engine [sample_track]) "zzzz" 40 None
    = Ok response
    /\ NoDup (map dedupe_key (items response))
    /\ (forall a, count_where (keyed artist_key a) (items response) <= 3).
Proof.
  destruct (empty_playlist_is_a_normal_response (offline_engine [sample_track]) "zzzz" 40 None)
    as (response & Hrun & _ & _ & _ & _ & Hnd & _ & Ha & _).
  - split; intros q; eexists; reflexivity.
  - intros t g. simpl. lia.
  - exists response. split; [exact Hrun|]. split; [exact Hnd | exact Ha].
Defined.
(** ** C7: canonicalisation applied twice *)

(** C7.  Title canonicalisation is not idempotent in the code.  The
    patterns of the version markers run before the spaces are collapsed: in
    "Song 2009 Live Mix" the word [live] is removed first, which leaves two
    spaces between the year and [mix], and the pattern of a year followed by
    [mix] asks for exactly one.  The function returns "song 2009 mix", a
    title that still carries a marker, and a second application removes it.
    The same happens on a year and [mix] written with two spaces. *)
Theorem canonicalisation_not_idempotent :
  normalize_title_for_dedupe "Song 2009 Live Mix" = "song 2009 mix"
  /\ normalize_title_for_dedupe (normalize_title_for_dedupe "Song 2009 Live Mix") = "song"
  /\ normalize_title_for_dedupe "2009  mix" = "2009 mix"
  /\ normalize_title_for_dedupe (normalize_title_for_dedupe "2009  mix") = ""
  /\ normalize_title_for_dedupe (normalize_title_for_dedupe "Song 2009 Live Mix")
     <> normalize_title_for_dedupe "Song 2009 Live Mix"
  /\ normalize_title_for_dedupe (normalize_title_for_dedupe "2009  mix")
     <> normalize_title_for_dedupe "2009  mix".
Proof. vm_compute. repeat split; discriminate. Qed.

(** ** C9: the country predicate *)

Lemma dict_has_set k k' v d :
  dict_has k (dict_set k' v d) = String.eqb k k' || dict_has k d.
Proof.
  unfold dict_has. destruct (String.eqb_spec k k') as [->|Hne]; simpl.
  - by rewrite dict_get_set_eq.
  - by rewrite dict_get_set_ne.
Qed.

(** the keys [parse_filters_from_llm] of [services.py] can write *)
Lemma parse_decada_keys val out k :
  dict_has k (parse_decada val out) = true ->
  dict_has k out = true \/ k = "Año" \/ k = "$or" \/ k = "Decada".
Proof.
  unfold parse_decada. destruct (omap _ _) as [|r [|r' rs]]; [tauto| |];
    rewrite !dict_has_set; intros H;
    repeat (apply orb_prop in H as [H|H]); try apply String.eqb_eq in H; tauto.
Qed.

Lemma parse_genre_keys keys llm_filters out k :
  dict_has k (parse_genre keys llm_filters out) = true ->
  dict_has k out = true \/ k = "Genero".
Proof.
  induction keys as [|key keys IH]; simpl; [tauto|].
  destruct (dict_get key llm_filters) as [[]|]; try done.
  - destruct (negb _); [|done]. rewrite dict_has_set.
    intros [H|H]%orb_prop; [apply String.eqb_eq in H|]; tauto.
  - destruct (dict_has "$regex" _); [|done]. rewrite dict_has_set.
    intros [H|H]%orb_prop; [apply String.eqb_eq in H|]; tauto.
Qed.

Lemma parse_year_keys year out out' k :
  parse_year year out = Ok out' ->
  dict_has k out' = true -> dict_has k out = true \/ k = "Año".
Proof.
  unfold parse_year. intros H. apply bind_Ok in H as ([year_int|] & _ & [= <-]); [|tauto].
  rewrite dict_has_set. intros [H|H]%orb_prop; [apply String.eqb_eq in H|]; tauto.
Qed.

Lemma parse_filters_keys llm_filters out k :
  parse_filters_from_llm llm_filters = Ok out -> dict_has k out = true ->
  k = "Año" \/ k = "$or" \/ k = "Decada" \/ k = "Genero".
Proof.
  unfold parse_filters_from_llm. destruct (negb _); [by intros [= <-]|].
  intros H Hk.
  apply bind_Ok in H as (has_decada & _ & H).
  apply bind_Ok in H as (out1 & H1 & H).
  apply bind_Ok in H as (out2 & H2 & H).
  apply bind_Ok in H as (has_year & _ & H).
  assert (forall k, dict_has k out1 = true -> k = "Año" \/ k = "$or" \/ k = "Decada") as K1.
  { intros k'. destruct has_decada.
    - apply bind_Ok in H1 as (val & _ & [= <-]).
      intros [?|?]%parse_decada_keys; [done|tauto].
    - by injection H1 as <-. }
  assert (forall k, dict_has k out2 = true ->
                    k = "Año" \/ k = "$or" \/ k = "Decada" \/ k = "Genero") as K2.
  { intros k'. destruct llm_filters; try done.
    all: try (apply bind_Ok in H2 as (hit & _ & H2); destruct (existsb _ hit); [done|];
              injection H2 as <-; intros ?%K1; tauto).
    assert (out2 = parse_genre genre_keys d out1) as -> by congruence.
    intros [?%K1|?]%parse_genre_keys; tauto. }
  destruct has_year.
  - apply bind_Ok in H as (year & _ & H).
    apply (parse_year_keys _ _ _ _ H) in Hk as [?%K2|?]; tauto.
  - injection H as <-. by apply K2.
Qed.

(** C9.  The parser of [services.py], the one the hybrid cycle and the
    catalog search call, never writes a country predicate: its output has no
    key [ArtistArea], [TopCountry1-3] or [country], and the country a request
    carries (here Chile, for either kind) is dropped, leaving an empty filter
    map.  The country block of the monolithic parser does produce the two
    shapes the claim describes, a predicate on [ArtistArea] for the kind
    "origin" and an [$or] over the three [TopCountry] fields for the kind
    "popular_in". *)
Theorem services_parser_drops_country :
  (forall llm_filters out,
      parse_filters_from_llm llm_filters = Ok out -> has_country_filters out = false)
  /\ (forall kind,
        parse_filters_from_llm
          (JDict [("country", JStr "Chile"); ("country_type", JStr kind)]) = Ok [])
  /\ Monolith.country_block [("country", JStr "Chile"); ("country_type", JStr "origin")] []
     = Ok [("ArtistArea", regex_i "^Chile$")]
  /\ Monolith.country_block [("country", JStr "Chile"); ("country_type", JStr "popular_in")] []
     = Ok [("$or", JList [ JDict [("TopCountry1", regex_i "^Chile$")];
                           JDict [("TopCountry2", regex_i "^Chile$")];
                           JDict [("TopCountry3", regex_i "^Chile$")] ])].
Proof.
  split; [|split; [|split]]; try reflexivity.
  intros llm_filters out H. unfold has_country_filters.
  apply not_true_is_false. intros Hex.
  apply existsb_exists in Hex as (k & Hk & Hhas).
  apply (parse_filters_keys _ _ _ H) in Hhas.
  simpl in Hk. destruct Hk as [<-|[<-|[<-|[<-|[<-|[]]]]]];
    destruct Hhas as [?|[?|[?|?]]]; discriminate.
Qed.

Lemma services_parser_drops_country_witness :
  parse_filters_from_llm (JDict [("country", JStr "Chile"); ("country_type", JStr "origin")])
  = Ok []
  /\ has_country_filters [] = false.
Proof.
  assert (parse_filters_from_llm
            (JDict [("country", JStr "Chile"); ("country_type", JStr "origin")]) = Ok [])
    as Hrun by reflexivity.
  split; [exact Hrun|].
  exact (proj1 services_parser_drops_country _ _ Hrun).
Defined.
(** ** The scoring engine over the reals *)

Section RealScores.
Local Open Scope R_scope.
Import PopularityUtils.

Lemma round_half_even_between (a b : Z) (x : R) :
  IZR a <= x <= IZR b -> (a <= round_half_even x <= b)%Z.
Proof.
  intros [Ha Hb]. unfold round_half_even.
  destruct (base_Int_part x) as [Hn1 Hn2].
  assert (a <= Int_part x)%Z as Han.
  { apply Z.lt_succ_r, lt_IZR. rewrite succ_IZR. lra. }
  assert (Int_part x <= b)%Z as Hnb by (apply le_IZR; lra).
  assert (IZR (Int_part x) < x -> (Int_part x + 1 <= b)%Z) as Hup.
  { intros Hlt. apply Z.le_succ_l, lt_IZR. lra. }
  destruct (Rlt_dec _ _); [lia|].
  destruct (Rlt_dec _ _); [split; [lia|apply Hup; lra]|].
  destruct (Z.even _); [lia|]. split; [lia|apply Hup; lra].
Qed.

Lemma round_between (n : nat) (a b : Z) (x : R) :
  IZR a / 10 ^ n <= x <= IZR b / 10 ^ n ->
  IZR a / 10 ^ n <= round x n <= IZR b / 10 ^ n.
Proof.
  intros [Ha Hb]. unfold round.
  assert (0 < 10 ^ n) as Hp by (apply pow_lt; lra).
  destruct (round_half_even_between a b (x * 10 ^ n)) as [H1 H2].
  { split.
    - apply (Rmult_le_compat_r (10 ^ n)) in Ha; [|lra].
      unfold Rdiv in Ha. rewrite Rmult_assoc, Rinv_l in Ha; lra.
    - apply (Rmult_le_compat_r (10 ^ n)) in Hb; [|lra].
      unfold Rdiv in Hb. rewrite Rmult_assoc, Rinv_l in Hb; lra. }
  apply IZR_le in H1, H2.
  split; apply Rmult_le_compat_r; try lra; left; apply Rinv_0_lt_compat; lra.
Qed.

Lemma round_range (n : nat) (a b : Z) (lo hi x : R) :
  lo = IZR a / 10 ^ n -> hi = IZR b / 10 ^ n ->
  lo <= x <= hi -> lo <= round x n <= hi.
Proof. intros -> ->. apply round_between. Qed.

Lemma round_unit_4 (x : R) : 0 <= x <= 1 -> 0 <= round x 4 <= 1.
Proof. apply (round_range 4 0 10000); lra. Qed.

Lemma round_floor_4 (x : R) : 0.2 <= x <= 1 -> 0.2 <= round x 4 <= 1.
Proof. apply (round_range 4 2000 10000); lra. Qed.

Lemma round_floor_6 (x : R) : 0.2 <= x <= 1 -> 0.2 <= round x 6 <= 1.
Proof. apply (round_range 6 200000 1000000); lra. Qed.

Lemma ln_le (x y : R) : 0 < x -> x <= y -> ln x <= ln y.
Proof.
  intros Hx [Hlt| ->]; [left; by apply ln_increasing | lra].
Qed.

Lemma ln_nonneg (x : R) : 1 <= x -> 0 <= ln x.
Proof. intros Hx. rewrite <- ln_1. apply ln_le; lra. Qed.

Lemma sqrt_unit (x : R) : 0 <= x <= 1 -> 0 <= sqrt x <= 1.
Proof.
  intros [H0 H1]. split; [apply sqrt_pos|].
  rewrite <- sqrt_1. by apply sqrt_le_1_alt.
Qed.

Lemma ratio_unit (x m : R) : 0 <= x <= m -> 0 < m -> 0 <= x / m <= 1.
Proof.
  intros [H0 H1] Hm. split.
  - apply Rmult_le_pos; [done|]. left. by apply Rinv_0_lt_compat.
  - apply (Rmult_le_reg_r m); [done|]. unfold Rdiv.
    rewrite Rmult_assoc, Rinv_l; lra.
Qed.

Lemma norm_safe_unit (x m : R) : 0 <= x <= m -> 0 <= norm_safe x m <= 1.
Proof.
  intros Hx. unfold norm_safe. destruct (Rlt_dec 0 m); [by apply ratio_unit | lra].
Qed.

Lemma normalised_unit (o : option Z) (m v : R) :
  normalised o m = Ok v -> metric o <= m -> 0 <= v <= 1.
Proof.
  unfold normalised, log1p. intros Hv Hm.
  destruct (Rle_dec (metric o) (-1)) as [|Hlo]; [done|].
  destruct (Rle_dec m (-1)); [done|]. cbn in Hv. injection Hv as <-.
  assert (0 <= metric o) as H0.
  { unfold metric in *. apply IZR_le. apply Z.lt_succ_r, lt_IZR.
    replace (IZR (Z.succ _)) with (IZR (int_or_zero o) + 1) by (rewrite succ_IZR; lra). lra. }
  apply norm_safe_unit. split; [apply ln_nonneg; lra | apply ln_le; lra].
Qed.

Lemma normalised_nonneg (o : option Z) (m v : R) :
  normalised o m = Ok v -> 0 <= v.
Proof.
  unfold normalised, log1p. intros Hv.
  destruct (Rle_dec (metric o) (-1)) as [|Hlo]; [done|].
  destruct (Rle_dec m (-1)); [done|]. cbn in Hv. injection Hv as <-.
  assert (0 <= metric o) as H0.
  { unfold metric in *. apply IZR_le. apply Z.lt_succ_r, lt_IZR.
    replace (IZR (Z.succ _)) with (IZR (int_or_zero o) + 1) by (rewrite succ_IZR; lra). lra. }
  unfold norm_safe. destruct (Rlt_dec _ _); [|lra].
  apply Rmult_le_pos; [apply ln_nonneg; lra|]. left. by apply Rinv_0_lt_compat.
Qed.


Lemma weighted_score_unit track global_max score :
  weighted_score track global_max = Ok score ->
  within_maxima track global_max -> 0 <= score <= 1.
Proof.
  unfold weighted_score. intros H (Hp & Hl & Hy).
  apply bind_Ok in H as (p & Hp' & H). apply bind_Ok in H as (l & Hl' & H).
  apply bind_Ok in H as (y & Hy' & H). injection H as <-.
  apply normalised_unit in Hp', Hl', Hy'; try done.
  apply round_unit_4. lra.
Qed.

Lemma round_nonneg (n : nat) (x : R) : 0 <= x -> 0 <= round x n.
Proof.
  intros Hx. unfold round.
  assert (0 < 10 ^ n) as Hp by (apply pow_lt; lra).
  destruct (round_half_even_between 0 (up (x * 10 ^ n)) (x * 10 ^ n)) as [H1 _].
  { split; [apply Rmult_le_pos; lra|]. left. apply archimed. }
  apply IZR_le in H1. apply Rmult_le_pos; [done|]. left. by apply Rinv_0_lt_compat.
Qed.

Lemma compute_popularity_nonneg track global_max :
  0 <= compute_popularity track global_max.
Proof.
  unfold compute_popularity.
  destruct (weighted_score track global_max) as [score|] eqn:H; [|lra].
  unfold weighted_score in H.
  apply bind_Ok in H as (p & Hp' & H). apply bind_Ok in H as (l & Hl' & H).
  apply bind_Ok in H as (y & Hy' & H). injection H as <-.
  apply normalised_nonneg in Hp', Hl', Hy'. apply round_nonneg. lra.
Qed.

Lemma compute_popularity_unit track global_max :
  within_maxima track global_max -> 0 <= compute_popularity track global_max <= 1.
Proof.
  intros H. unfold compute_popularity.
  destruct (weighted_score track global_max) as [score|] eqn:Hs; [|lra].
  eauto using weighted_score_unit.
Qed.

(** *** Maxima and minima of lists *)

Lemma fold_Rmax_ge (l : list R) (x : R) :
  x <= fold_left Rmax l x /\ forall y, In y l -> y <= fold_left Rmax l x.
Proof.
  revert x. induction l as [|z l IH]; intros x; simpl; [split; [lra|tauto]|].
  destruct (IH (Rmax x z)) as [H1 H2]. split.
  - pose proof (Rmax_l x z). lra.
  - intros y [<-|Hy]; [pose proof (Rmax_r x z); lra | auto].
Qed.

Lemma fold_Rmin_le (l : list R) (x : R) :
  fold_left Rmin l x <= x /\ forall y, In y l -> fold_left Rmin l x <= y.
Proof.
  revert x. induction l as [|z l IH]; intros x; simpl; [split; [lra|tauto]|].
  destruct (IH (Rmin x z)) as [H1 H2]. split.
  - pose proof (Rmin_l x z). lra.
  - intros y [<-|Hy]; [pose proof (Rmin_r x z); lra | auto].
Qed.

Lemma max_score_ge (scores : list R) (s : R) : In s scores -> s <= max_score scores.
Proof.
  destruct scores as [|x rest]; [done|]. simpl.
  destruct (fold_Rmax_ge rest x) as [H1 H2]. intros [<-|H]; auto.
Qed.

Lemma relative_score_range (s m r : R) :
  relative_score s m = Ok r -> s <= m -> 0.2 <= r <= 1.
Proof.
  unfold relative_score. intros H Hs.
  destruct (Rlt_dec _ _) as [|Hrel]; [done|]. injection H as <-.
  apply round_floor_4.
  assert (0 <= norm_safe s m <= 1) as Hunit.
  { split; [lra|]. unfold norm_safe in *. destruct (Rlt_dec 0 m) as [Hm|]; [|lra].
    apply (Rmult_le_reg_r m); [done|]. unfold Rdiv.
    rewrite Rmult_assoc, Rinv_l; lra. }
  pose proof (sqrt_unit _ Hunit). lra.
Qed.

Lemma relative_score_total (s m : R) :
  0 <= s -> exists r, relative_score s m = Ok r.
Proof.
  intros Hs. unfold relative_score.
  destruct (Rlt_dec _ _) as [Hrel|]; [|eauto]. exfalso.
  unfold norm_safe in Hrel. destruct (Rlt_dec 0 m) as [Hm|]; [|lra].
  assert (0 <= s / m); [|lra].
  apply Rmult_le_pos; [done|]. left. by apply Rinv_0_lt_compat.
Qed.

Lemma setdefault_append_perm {A : Type} (g : string) (t : A) by_genre :
  Permutation (concat (map snd (setdefault_append g t by_genre)))
              (t :: concat (map snd by_genre)).
Proof.
  induction by_genre as [|[g' group] rest IH]; simpl; [done|].
  destruct (String.eqb g' g); simpl.
  - rewrite <- app_assoc. simpl. symmetry. apply Permutation_middle.
  - rewrite IH. symmetry. apply Permutation_middle.
Qed.

Lemma by_genre_perm {A B : Type} (key : A -> string) (val : A -> B) (tracks : list A) acc :
  Permutation
    (concat (map snd (fold_left (fun by_genre t => setdefault_append (key t) (val t) by_genre) tracks acc)))
    (concat (map snd acc) ++ map val tracks).
Proof.
  revert acc. induction tracks as [|t tracks IH]; intros acc; simpl.
  - by rewrite app_nil_r.
  - rewrite IH, setdefault_append_perm. simpl. apply Permutation_middle.
Qed.


Lemma group_scores (group : list (Track * R)) (m : R) (out : list scored) :
  map_result (fun t : Track * R =>
                relative ← relative_score (snd t) m; Ok (fst t, snd t, relative)) group = Ok out ->
  (forall t, In t group -> snd t <= m) ->
  map fst out = group /\ forall s, In s out -> 0.2 <= snd s <= 1.
Proof.
  intros H%map_result_Forall2. induction H as [|[t s] y group out Hy H IH]; intros Hm.
  - split; [done|]. intros s [].
  - apply bind_Ok in Hy as (r & Hr & Hy). injection Hy as <-.
    destruct IH as [IH1 IH2]; [intros; apply Hm; by right|]. split.
    + simpl. by rewrite IH1.
    + intros s' [<-|Hs']; [|auto]. simpl.
      apply (relative_score_range s m); [done|]. apply (Hm (t, s)). by left.
Qed.

Lemma groups_scores (by_genre : list (string * list (Track * R))) (groups : list (list scored)) :
  map_result
    (fun entry : string * list (Track * R) =>
       let group := snd entry in
       let max_score := max_score (map snd group) in
       map_result
         (fun t : Track * R =>
            relative ← relative_score (snd t) max_score; Ok (fst t, snd t, relative))
         group) by_genre = Ok groups ->
  map fst (concat groups) = concat (map snd by_genre)
  /\ forall s, In s (concat groups) -> 0.2 <= snd s <= 1.
Proof.
  intros H%map_result_Forall2. induction H as [|[g group] out by_genre groups Hg H [IH1 IH2]].
  - split; [done|]. intros s [].
  - simpl in Hg. apply group_scores in Hg as [Hg1 Hg2].
    2:{ intros t Ht. apply max_score_ge. by apply in_map. }
    split.
    + simpl. rewrite map_app. f_equal; [exact Hg1 | exact IH1].
    + simpl. intros s [Hs|Hs]%in_app_or; auto.
Qed.

Lemma relative_popularity_range global_max tracks out :
  PopularityUtils.compute_relative_popularity_by_genre global_max tracks = Ok out ->
  forall s, In s out -> 0.2 <= snd s <= 1.
Proof.
  unfold PopularityUtils.compute_relative_popularity_by_genre. intros H.
  apply bind_Ok in H as (groups & Hg & H). injection H as <-.
  by apply groups_scores in Hg as [_ Hg].
Qed.

Lemma relative_popularity_total global_max tracks :
  stored_scores_nonnegative tracks ->
  exists out,
    PopularityUtils.compute_relative_popularity_by_genre global_max tracks = Ok out
    /\ Permutation (map (fun s : scored => fst (fst s)) out) (map fst tracks).
Proof.
  intros Hpos. unfold PopularityUtils.compute_relative_popularity_by_genre.
  set (val := fun t : Track * option R =>
                (fst t, match snd t with
                        | Some score => score
                        | None => compute_popularity (fst t) global_max
                        end)).
  pose proof (by_genre_perm (fun t : Track * option R => genre_bucket (fst t)) val tracks [])
    as Hperm.
  simpl in Hperm.
  set (by_genre := fold_left _ tracks []) in *.
  match goal with
  | |- context [map_result ?f by_genre] =>
      destruct (map_result_total f by_genre) as [groups Hgroups]
  end.
  { intros [g group] Hin. simpl. apply map_result_total. intros t Ht.
    destruct (relative_score_total (snd t) (max_score (map snd group))) as [r ->]; [|simpl; eauto].
    assert (In t (map val tracks)) as [[t0 o] [<- Hin0]]%in_map_iff.
    { eapply Permutation_in; [exact Hperm|]. apply in_concat. exists group. split; [|done].
      apply in_map_iff. by exists (g, group). }
    simpl. destruct o as [s|]; [by apply (Hpos t0) | apply compute_popularity_nonneg]. }
  rewrite Hgroups. simpl. eexists. split; [done|].
  apply groups_scores in Hgroups as [Hfst _].
  replace (map (fun s : scored => fst (fst s)) (concat groups))
    with (map fst (concat (map snd by_genre))) by (rewrite <- Hfst; apply map_map).
  rewrite Hperm, map_map. by rewrite (map_ext (fun x => fst (val x)) fst).
Qed.


(** *** The monolith *)

Lemma min_or_le (d : R) (l : list R) (s : R) : In s l -> Monolith.min_or d l <= s.
Proof.
  destruct l as [|x rest]; [done|]. simpl.
  destruct (fold_Rmin_le rest x) as [H1 H2]. intros [<-|H]; auto.
Qed.

Lemma max_or_ge (d : R) (l : list R) (s : R) : In s l -> s <= Monolith.max_or d l.
Proof.
  destruct l as [|x rest]; [done|]. simpl.
  destruct (fold_Rmax_ge rest x) as [H1 H2]. intros [<-|H]; auto.
Qed.

Lemma fold_Rmin_In (l : list R) (x : R) : In (fold_left Rmin l x) (x :: l).
Proof.
  revert x. induction l as [|z l IH]; intros x; simpl; [by left|].
  destruct (IH (Rmin x z)) as [H|H]; [|by right; right].
  rewrite <- H. unfold Rmin. destruct (Rle_dec x z); [by left | by right; left].
Qed.

Lemma fold_Rmax_In (l : list R) (x : R) : In (fold_left Rmax l x) (x :: l).
Proof.
  revert x. induction l as [|z l IH]; intros x; simpl; [by left|].
  destruct (IH (Rmax x z)) as [H|H]; [|by right; right].
  rewrite <- H. unfold Rmax. destruct (Rle_dec x z); [by right; left | by left].
Qed.

Lemma isclose_false (a b : R) : Monolith.isclose a b = false -> a <> b.
Proof.
  unfold Monolith.isclose. destruct (Rle_dec _ _) as [|Hn]; [done|]. intros _ ->.
  apply Hn. rewrite Rminus_diag, Rabs_R0.
  apply Rmult_le_pos; [lra|]. eapply Rle_trans; [apply Rabs_pos | apply Rmax_l].
Qed.

Lemma isclose_true (a b : R) :
  Monolith.isclose a b = true -> 0 <= b <= a -> a - b <= 1e-9 * a.
Proof.
  unfold Monolith.isclose. destruct (Rle_dec _ _) as [H|]; [|done]. intros _ [Hb Ha].
  rewrite !Rabs_pos_eq, Rmax_left in H; lra.
Qed.

Lemma ln_2_le_1 : ln 2 <= 1.
Proof.
  rewrite <- (ln_exp 1). apply ln_le; [lra|]. pose proof (exp_ineq1_le 1). lra.
Qed.

Lemma log_score_bound (s : R) : 0 <= s <= 2 ^ 1024 -> 0 <= ln (1 + s) <= 10 ^ 9.
Proof.
  intros [H0 H1]. split; [apply ln_nonneg; lra|].
  assert (1 <= 2 ^ 1024) as Hp by (apply pow_R1_Rle; lra).
  apply Rle_trans with (ln (2 ^ 1025)).
  { apply ln_le; [lra|]. change (2 ^ 1025) with (2 * 2 ^ 1024). lra. }
  rewrite ln_pow by lra. rewrite INR_IZR_INZ.
  replace (Z.of_nat 1025) with 1025%Z by (vm_compute; reflexivity).
  pose proof ln_2_le_1. pose proof (ln_nonneg 2). nra.
Qed.


Lemma alpha_range (cnt : nat) :
  0.2 <= Rmin 0.95 (0.2 + 0.75 * (INR cnt / (INR cnt + 30))) <= 0.95.
Proof.
  pose proof (pos_INR cnt) as Hc.
  assert (0 <= INR cnt / (INR cnt + 30) <= 1) as Hr by (apply ratio_unit; lra).
  split; [apply Rmin_glb; lra | apply Rmin_l].
Qed.

Lemma monolith_relative_score (cnt : nat) (gmin gmax lmin lmax s : R) :
  0 <= s ->
  gmin <= s <= gmax ->
  0 <= lmin <= ln (1 + s) ->
  ln (1 + s) <= lmax <= 10 ^ 9 ->
  exists r,
    Monolith.relative_score cnt gmin gmax lmin
      (if Monolith.isclose lmax lmin then lmin + 1 else lmax) s = Ok r
    /\ 0.2 <= r <= 1.
Proof.
  intros Hs Hg Hlo Hhi. unfold Monolith.relative_score.
  rewrite (Rmax_right 0 s) by done.
  set (raw_log := ln (1 + s)) in *.
  set (norm_global := (raw_log - lmin) / _).
  assert (0 <= norm_global <= 1) as Hglobal.
  { unfold norm_global. destruct (Monolith.isclose lmax lmin) eqn:Hc.
    - apply isclose_true in Hc; [|lra].
      replace (lmin + 1 - lmin) with 1 by lra. unfold Rdiv. rewrite Rinv_1. lra.
    - apply isclose_false in Hc. apply ratio_unit; lra. }
  set (norm_genre := if Monolith.isclose gmax gmin then 1 else _).
  assert (0 <= norm_genre <= 1) as Hgenre.
  { unfold norm_genre. destruct (Monolith.isclose gmax gmin) eqn:Hc; [lra|].
    apply isclose_false in Hc. apply ratio_unit; lra. }
  set (norm_genre' := if Rlt_dec norm_genre 0.1 then _ else _).
  assert (0 <= norm_genre' <= 1) as Hgenre'.
  { unfold norm_genre'. destruct (Rlt_dec _ _); [destruct (Rlt_dec _ _)|]; lra. }
  pose proof (alpha_range cnt) as Halpha.
  set (alpha := Rmin _ _) in *.
  assert (0 <= alpha * norm_genre' + (1 - alpha) * norm_global <= 1) as Hcomb by nra.
  destruct (Rlt_dec _ 0); [lra|].
  eexists. split; [done|]. apply round_floor_6.
  pose proof (sqrt_unit _ Hcomb). lra.
Qed.

Lemma genre_scores_own tracks t :
  In t tracks ->
  In (Monolith.popularity (snd t)) (Monolith.genre_scores tracks (Monolith.primary_genre (fst t))).
Proof.
  intros Hin. unfold Monolith.genre_scores.
  apply (in_map (fun t => Monolith.popularity (snd t))).
  apply filter_In. split; [done|]. apply String.eqb_refl.
Qed.

Lemma monolith_relative_popularity tracks :
  float_scores tracks ->
  exists out,
    Monolith.compute_relative_popularity_by_genre tracks = Ok out
    /\ map fst out = map fst tracks
    /\ forall t, In t out -> 0.2 <= snd t <= 1.
Proof.
  intros Hf. unfold Monolith.compute_relative_popularity_by_genre.
  set (log_scores := map (fun s => ln (1 + s)) _).
  assert (forall t, In t tracks -> In (ln (1 + Monolith.popularity (snd t))) log_scores) as Hlog.
  { intros t Ht. unfold log_scores. rewrite map_map.
    apply in_map_iff. exists t. split; [|done].
    by rewrite Rmax_right by apply (Hf t Ht). }
  assert (forall x, In x log_scores -> 0 <= x <= 10 ^ 9) as Hbound.
  { intros x (s & <- & (t & <- & Ht)%in_map_iff)%in_map_iff.
    rewrite Rmax_right by apply (Hf t Ht). apply log_score_bound, (Hf t Ht). }
  set (global_min := Monolith.min_or 0 log_scores).
  set (global_max := Monolith.max_or 1 log_scores).
  match goal with
  | |- context [map_result ?f tracks] =>
      destruct (map_result_each f
                  (fun t y => fst y = fst t /\ 0.2 <= snd y <= 1) tracks)
        as (out & -> & Hout)
  end.
  { intros t Ht. pose proof (Hlog t Ht) as Hin.
    assert (In global_min log_scores /\ In global_max log_scores) as [Hmin Hmax].
    { unfold global_min, global_max. destruct log_scores as [|x rest]; [done|].
      split; [apply fold_Rmin_In | apply fold_Rmax_In]. }
    edestruct (monolith_relative_score
                 (length (Monolith.genre_scores tracks (Monolith.primary_genre (fst t)))))
      as (r & -> & Hr); [| | | |simpl; eauto].
    - apply (Hf t Ht).
    - split; [apply min_or_le | apply max_or_ge]; by apply genre_scores_own.
    - split; [apply (Hbound _ Hmin) | by apply min_or_le].
    - split; [by apply max_or_ge | apply (Hbound _ Hmax)]. }
  exists out. split; [done|]. clear -Hout.
  induction Hout as [|t y tracks out [Hy1 Hy2] _ [IH1 IH2]]; [split; [done|intros ? []]|].
  split; [simpl; by rewrite Hy1, IH1|]. intros t' [<-|Ht']; auto.
Qed.

(** C8.  Read over the reals, the raw popularity score of
    [popularity_utils.compute_popularity] lies in [0, 1] for every track
    whose engagement metrics do not exceed the corpus maxima.  Every relative
    popularity score that [popularity_utils.compute_relative_popularity_by_genre]
    assigns lies in [0.2, 1], and it assigns one to every track when the
    stored scores are not negative.  The monolith's
    [compute_relative_popularity_by_genre] assigns every track a score in
    [0.2, 1] when the raw scores are not negative and within the range of a
    float. *)
Theorem popularity_scores_in_range :
  (forall track global_max,
     within_maxima track global_max ->
     0 <= PopularityUtils.compute_popularity track global_max <= 1)
  /\ (forall global_max tracks out,
        PopularityUtils.compute_relative_popularity_by_genre global_max tracks = Ok out ->
        forall s, In s out -> 0.2 <= snd s <= 1)
  /\ (forall global_max tracks,
        stored_scores_nonnegative tracks ->
        exists out,
          PopularityUtils.compute_relative_popularity_by_genre global_max tracks = Ok out
          /\ Permutation (map (fun s : PopularityUtils.scored => fst (fst s)) out)
                         (map fst tracks))
  /\ (forall tracks,
        float_scores tracks ->
        exists out,
          Monolith.compute_relative_popularity_by_genre tracks = Ok out
          /\ map fst out = map fst tracks
          /\ forall t, In t out -> 0.2 <= snd t <= 1).
Proof.
  split; [exact compute_popularity_unit|].
  split; [exact relative_popularity_range|].
  split; [exact relative_popularity_total | exact monolith_relative_popularity].
Qed.

Lemma popularity_scores_in_range_witness :
  within_maxima played_track played_max
  /\ 0 <= PopularityUtils.compute_popularity played_track played_max <= 1
  /\ float_scores [(played_track, Some 0.5); (sample_track, None)]
  /\ exists out,
       Monolith.compute_relative_popularity_by_genre
         [(played_track, Some 0.5); (sample_track, None)] = Ok out
       /\ map fst out = [played_track; sample_track]
       /\ forall t, In t out -> 0.2 <= snd t <= 1.
Proof.
  assert (within_maxima played_track played_max) as Hmax.
  { unfold within_maxima, PopularityUtils.metric. simpl. lra. }
  assert (float_scores [(played_track, Some 0.5); (sample_track, None)]) as Hfloat.
  { assert (1 <= 2 ^ 1024) by (apply pow_R1_Rle; lra).
    intros t [<-|[<-|[]]]; simpl; lra. }
  split; [exact Hmax|].
  split; [exact (proj1 popularity_scores_in_range played_track played_max Hmax)|].
  split; [exact Hfloat|].
  exact (proj2 (proj2 (proj2 popularity_scores_in_range)) _ Hfloat).
Defined.

End RealScores.
(** * Further properties of the code

    ** [postprocessing_utils.py]: the sibling pipeline *)

Section SiblingFilter.
Import PostprocessingUtils PostprocessingSteps.

Lemma filter_step_cases st t :
  (filter_step st t = st
   /\ ((~ named t) \/ (combo t ∈ seen_combo st) \/ (tid t ∈ seen_ids st)))
  \/ (filter_step st t
      = mkFilterState (clean st ++ [t]) ({[ tid t ]} ∪ seen_ids st)
          ({[ combo t ]} ∪ seen_combo st)
      /\ named t /\ (combo t ∉ seen_combo st) /\ (tid t ∉ seen_ids st)).
Proof.
  unfold filter_step, named.
  destruct (String.eqb_spec (artist_name t) "") as [Ha|Ha]; simpl; [left; tauto|].
  destruct (String.eqb_spec (title_name t) "") as [Ht|Ht]; simpl; [left; tauto|].
  case_bool_decide as Hc; simpl; [left; tauto|].
  case_bool_decide as Hi; simpl; [left; tauto|].
  right. tauto.
Qed.

Lemma filter_step_invariant seen st t :
  filter_invariant seen st -> filter_invariant (seen ++ [t]) (filter_step st t).
Proof.
  intros (Hsub & Hnamed & Hnc & Hni & Hids & Hcombos & Hall).
  destruct (filter_step_cases st t) as [[-> Hskip]|(-> & Hv & Hc & Hi)].
  - split; [by apply sublist_inserts_r|]. do 5 (split; [done|]).
    intros u [Hu|[<-|[]]]%in_app_or Hvu; [auto|].
    destruct Hskip as [?|[Hc|Hi]]; [done| |].
    + apply Hcombos, in_map_iff in Hc as (u & Hu & Hin). eauto.
    + apply Hids, in_map_iff in Hi as (u & Hu & Hin). eauto.
  - unfold filter_invariant. cbn [clean seen_ids seen_combo]. split; [by apply sublist_app|].
    split. { intros u [Hu|[<-|[]]]%in_app_or; auto. }
    split.
    { rewrite List.map_app. apply NoDup_app. split; [done|]. split; [|apply NoDup_singleton].
      intros x Hx [<-|[]]%list_elem_of_In. apply Hc, Hcombos. by apply list_elem_of_In. }
    split.
    { rewrite List.map_app. apply NoDup_app. split; [done|]. split; [|apply NoDup_singleton].
      intros x Hx [<-|[]]%list_elem_of_In. apply Hi, Hids. by apply list_elem_of_In. }
    split.
    { intros x. rewrite List.map_app, in_app_iff, elem_of_union, elem_of_singleton, Hids.
      simpl. intuition. }
    split.
    { intros x. rewrite List.map_app, in_app_iff, elem_of_union, elem_of_singleton, Hcombos.
      simpl. intuition. }
    intros u [Hu|[<-|[]]]%in_app_or Hvu.
    + destruct (Hall u Hu Hvu) as (w & Hw & Hsame). exists w. split; [|done].
      apply in_app_iff. by left.
    + exists t. split; [|by left]. apply in_app_iff. right. by left.
Qed.

Lemma filter_run_invariant tracks :
  filter_invariant tracks (fold_left filter_step tracks (mkFilterState [] ∅ ∅)).
Proof.
  induction tracks as [|t tracks IH] using rev_ind.
  - simpl. split; [constructor|]. split; [intros ? []|].
    split; [constructor|]. split; [constructor|].
    split; [intros x; simpl; set_solver|]. split; [intros x; simpl; set_solver|].
    intros ? [].
  - rewrite fold_left_app. simpl. by apply filter_step_invariant.
Qed.

(** a list the filter has nothing to remove from *)
Lemma filter_run_keeps st tracks :
  (forall t, In t tracks -> named t) ->
  NoDup (map combo tracks) -> NoDup (map tid tracks) ->
  (forall t, In t tracks -> (combo t ∉ seen_combo st) /\ (tid t ∉ seen_ids st)) ->
  clean (fold_left filter_step tracks st) = (clean st ++ tracks)%list.
Proof.
  revert st. induction tracks as [|t tracks IH]; intros st Hv Hc Hi Hnew; simpl.
  - by rewrite app_nil_r.
  - destruct (filter_step_cases st t) as [[_ Hskip]|(Hstep & _)].
    { exfalso. destruct (Hnew t) as [? ?]; [by left|].
      destruct Hskip as [Hn|[?|?]]; [|done|done]. apply Hn, Hv. by left. }
    rewrite Hstep. simpl in Hc, Hi. apply NoDup_cons in Hc as [Hc1 Hc2].
    apply NoDup_cons in Hi as [Hi1 Hi2].
    rewrite IH; simpl; [by rewrite <- app_assoc| | | |].
    + intros; apply Hv; by right.
    + done.
    + done.
    + intros u Hu. destruct (Hnew u) as [? ?]; [by right|].
      rewrite !elem_of_union, !elem_of_singleton. split.
      * intros [Heq|?]; [|done]. apply Hc1. rewrite <- Heq.
        apply list_elem_of_In, in_map, Hu.
      * intros [Heq|?]; [|done]. apply Hi1. rewrite <- Heq.
        apply list_elem_of_In, in_map, Hu.
Qed.

(** X1.  [filter_gross_incongruities] of [postprocessing_utils.py] returns
    a subsequence of its input in which every track names an artist and a
    title, no two tracks share the pair (artist, title) in lower case, and
    no two share the text of their identifier (so at most one track without
    identifier is kept).  Every input track that names an artist and a title
    is represented in the output by a track with the same pair or the same
    identifier.  The filter changes nothing in its own output. *)
Theorem sibling_filter_keeps_one_of_each (tracks : list track) :
  let out := filter_gross_incongruities tracks in
  sublist out tracks
  /\ (forall t, In t out -> artist_name t <> "" /\ title_name t <> "")
  /\ NoDup (map combo out)
  /\ NoDup (map tid out)
  /\ (forall t, In t tracks -> artist_name t <> "" -> title_name t <> "" ->
        exists u, In u out /\ (combo u = combo t \/ tid u = tid t))
  /\ filter_gross_incongruities out = out.
Proof.
  intros out. subst out. unfold filter_gross_incongruities.
  destruct (filter_run_invariant tracks) as (Hsub & Hnamed & Hnc & Hni & _ & _ & Hall).
  split; [done|]. split; [done|]. split; [done|]. split; [done|].
  split; [intros t Ht Ha Hti; by apply Hall|].
  rewrite filter_run_keeps; [done|done|done|done|].
  intros t _. simpl. set_solver.
Qed.

End SiblingFilter.

Section SiblingFallback.
Import PostprocessingUtils PostprocessingSteps.

Variable sample : list track -> nat -> list track.
Hypothesis sample_draws : draws_without_replacement sample.

Lemma flexible_fallback_selection_spec all_tracks existing target_count :
  exists supplement,
    flexible_fallback_selection sample all_tracks existing target_count
    = (existing ++ supplement)%list
    /\ fresh_for existing all_tracks supplement
    /\ Z.of_nat (length supplement) <= Z.max 0 (target_count - Z.of_nat (length existing)).
Proof.
  assert (exists supplement : list track,
             existing = (existing ++ supplement)%list
             /\ fresh_for existing all_tracks supplement
             /\ Z.of_nat (length supplement)
                <= Z.max 0 (target_count - Z.of_nat (length existing))) as Hnone.
  { exists []. rewrite app_nil_r. split; [done|]. split; [|simpl; lia].
    split; [apply submseteq_nil_l | intros ? []]. }
  unfold flexible_fallback_selection.
  destruct all_tracks as [|t0 rest]; [done|].
  set (all_tracks := t0 :: rest) in *.
  set (candidates := List.filter _ all_tracks).
  destruct candidates as [|c cs] eqn:Hc; [done|]. rewrite <- Hc.
  set (k := Z.to_nat _).
  destruct (sample_draws candidates k) as [Hlen Hsub]; [unfold k; lia|].
  exists (sample candidates k). split; [done|]. split; [split|].
  - etransitivity; [exact Hsub|]. apply sublist_submseteq.
    unfold candidates. clear. induction all_tracks as [|t l IH]; simpl; [constructor|].
    destruct (_ && _); [by apply sublist_skip | by apply sublist_cons].
  - intros t Ht.
    assert (In t candidates) as Hin.
    { apply list_elem_of_In. eapply elem_of_submseteq; [|exact Hsub]. by apply list_elem_of_In. }
    apply filter_In in Hin as [_ Hb]. apply andb_true_iff in Hb as [Hi Ha].
    apply negb_true_iff, bool_decide_eq_false in Hi, Ha.
    rewrite <- !list_elem_of_In. done.
  - rewrite Hlen. unfold k. lia.
Qed.


Lemma apply_limits_and_fallback_spec tracks all_tracks max_total max_per_artist max_per_album :
  0 <= max_total ->
  let limited :=
    limit_tracks_by_artist_album (filter_gross_incongruities tracks)
      max_per_artist max_per_album in
  let final :=
    apply_limits_and_fallback sample tracks all_tracks max_total max_per_artist max_per_album in
  Z.of_nat (length final) <= max_total
  /\ (max_total <= Z.of_nat (length limited) -> final = py_slice_to max_total limited)
  /\ (Z.of_nat (length limited) < max_total ->
        exists supplement,
          final = (limited ++ supplement)%list /\ fresh_for limited all_tracks supplement).
Proof.
  intros Hpos limited final. subst final. unfold apply_limits_and_fallback.
  fold limited. split; [apply py_slice_to_length; lia|].
  destruct (Z.ltb_spec (Z.of_nat (length limited)) max_total) as [Hlt|Hge].
  - split; [lia|]. intros _.
    destruct (flexible_fallback_selection_spec all_tracks limited max_total)
      as (supplement & -> & Hfresh & Hlen).
    exists supplement. split; [|done].
    unfold py_slice_to. replace (0 <=? max_total) with true by lia.
    apply firstn_all2. rewrite length_app. lia.
  - split; [done|]. lia.
Qed.

End SiblingFallback.

Lemma take_draws {A : Type} : draws_without_replacement (fun (l : list A) k => firstn k l).
Proof.
  intros l k Hk. split; [by apply firstn_length_le|].
  apply sublist_submseteq, sublist_take.
Qed.

(** X2.  Whatever [random.sample] draws, [flexible_fallback_selection] of
    [postprocessing_utils.py] returns the existing tracks, in their order,
    followed by a supplement: tracks of [all_tracks], each taken at most as
    often as it occurs there, none with the identifier or the artist of an
    existing track, and no more of them than the target count leaves room
    for. *)
Theorem sibling_fallback_adds_only_fresh_tracks :
  forall (sample : list PostprocessingUtils.track -> nat -> list PostprocessingUtils.track)
         (all_tracks existing : list PostprocessingUtils.track) (target_count : Z),
    draws_without_replacement sample ->
    exists supplement,
      PostprocessingSteps.flexible_fallback_selection sample all_tracks existing target_count
      = (existing ++ supplement)%list
      /\ fresh_for existing all_tracks supplement
      /\ Z.of_nat (length supplement)
         <= Z.max 0 (target_count - Z.of_nat (length existing)).
Proof.
  intros sample all_tracks existing target_count Hdraws.
  by apply flexible_fallback_selection_spec.
Qed.

Lemma sibling_fallback_adds_only_fresh_tracks_witness :
  exists supplement,
    PostprocessingSteps.flexible_fallback_selection (fun l k => firstn k l)
      [simple_track "1" "Ana" "Uno"; simple_track "2" "Ana" "Dos"; simple_track "3" "Luz" "Tres";
       simple_track "4" "Sol" "Cuatro"]
      [simple_track "1" "Ana" "Uno"] 2
    = ([simple_track "1" "Ana" "Uno"] ++ supplement)%list
    /\ supplement = [simple_track "3" "Luz" "Tres"].
Proof.
  destruct (sibling_fallback_adds_only_fresh_tracks (fun l k => firstn k l)
              [simple_track "1" "Ana" "Uno"; simple_track "2" "Ana" "Dos";
               simple_track "3" "Luz" "Tres"; simple_track "4" "Sol" "Cuatro"]
              [simple_track "1" "Ana" "Uno"] 2 take_draws) as (supplement & Heq & _).
  exists supplement. split; [exact Heq|].
  vm_compute in Heq. by injection Heq as <-.
Defined.

(** X3.  For a total that is not negative and whatever [random.sample]
    draws, [apply_limits_and_fallback] of [postprocessing_utils.py] returns at
    most [max_total] tracks.  When the filtered and limited list already
    holds [max_total] tracks, the result is its first [max_total] tracks;
    otherwise the result is the whole limited list followed by a supplement
    of tracks of [all_tracks] that repeat none of its identifiers and none
    of its artists. *)
Theorem sibling_pipeline_within_total :
  forall (sample : list PostprocessingUtils.track -> nat -> list PostprocessingUtils.track)
         (tracks all_tracks : list PostprocessingUtils.track)
         (max_total max_per_artist max_per_album : Z),
    draws_without_replacement sample ->
    0 <= max_total ->
    let limited :=
      PostprocessingUtils.limit_tracks_by_artist_album
        (PostprocessingSteps.filter_gross_incongruities tracks) max_per_artist max_per_album in
    let final :=
      PostprocessingSteps.apply_limits_and_fallback sample tracks all_tracks max_total
        max_per_artist max_per_album in
    Z.of_nat (length final) <= max_total
    /\ (max_total <= Z.of_nat (length limited) -> final = py_slice_to max_total limited)
    /\ (Z.of_nat (length limited) < max_total ->
          exists supplement,
            final = (limited ++ supplement)%list /\ fresh_for limited all_tracks supplement).
Proof.
  intros sample tracks all_tracks max_total max_per_artist max_per_album Hdraws Hpos.
  by apply apply_limits_and_fallback_spec.
Qed.

Lemma sibling_pipeline_within_total_witness :
  Z.of_nat (length (PostprocessingSteps.apply_limits_and_fallback (fun l k => firstn k l)
                      [simple_track "1" "Ana" "Uno"; simple_track "1" "Ana" "Uno"]
                      [simple_track "3" "Luz" "Tres"; simple_track "4" "Sol" "Cuatro"]
                      2 3 2)) <= 2.
Proof.
  apply (sibling_pipeline_within_total (fun l k => firstn k l)
           [simple_track "1" "Ana" "Uno"; simple_track "1" "Ana" "Uno"]
           [simple_track "3" "Luz" "Tres"; simple_track "4" "Sol" "Cuatro"] 2 3 2 take_draws).
  lia.
Defined.

(** ** [intent_analysis.py]: limits and regions *)

Lemma extract_limit_directly_range text n :
  extract_limit_directly text = Some n -> 5 <= n <= 100.
Proof.
  unfold extract_limit_directly. destruct (re_search _ _); [|done]. intros [= <-]. lia.
Qed.

Lemma validate_and_normalize_limit_range value text :
  5 <= validate_and_normalize_limit value text <= 100.
Proof.
  unfold validate_and_normalize_limit. destruct (py_int value); [lia|].
  destruct (extract_limit_directly text) as [n|] eqn:H; simpl; [|lia].
  by apply extract_limit_directly_range in H.
Qed.

Lemma dict_get_update_ne k d d2 :
  ~ In k (map fst d2) -> dict_get k (dict_update d d2) = dict_get k d.
Proof.
  unfold dict_update. revert d. induction d2 as [|[k' v] d2 IH]; intros d Hk; simpl; [done|].
  rewrite IH; [|intros ?; apply Hk; by right].
  apply dict_get_set_ne. intros ->. apply Hk. by left.
Qed.

Lemma enhance_region_detection_keeps k analysis query_text :
  ~ In k ["type"; "region"; "region_name"; "country"; "country_type"; "intent"] ->
  dict_get k (enhance_region_detection analysis query_text) = dict_get k analysis.
Proof.
  intros Hk. unfold enhance_region_detection.
  destruct (detect_region_from_query query_text); [|done].
  by apply dict_get_update_ne.
Qed.

(** X5.  Whatever the language model answers, and also when its answer is
    unusable, the analysis returned by [analyze_query_intent] carries a
    [detected_limit] that is an integer between 5 and 100, and
    [enhance_region_detection] leaves it in place.  (The docstring of
    [validate_and_normalize_limit] announces the range 10-100; a limit read
    from the text by [extract_limit_directly] may be as low as 5.) *)
Theorem analysis_carries_a_bounded_limit :
  forall (E : Collaborators) (query_text : string),
    exists n,
      dict_get "detected_limit" (analyze_query_intent E query_text) = Some (JInt n)
      /\ 5 <= n <= 100
      /\ dict_get "detected_limit"
           (enhance_region_detection (analyze_query_intent E query_text) query_text)
         = Some (JInt n).
Proof.
  intros E query_text.
  assert (exists n, dict_get "detected_limit" (analyze_query_intent E query_text) = Some (JInt n)
                    /\ 5 <= n <= 100) as (n & Hn & Hr).
  { unfold analyze_query_intent.
    destruct (as_dict _) as [parsed|e]; cbn [mbind result_bind].
    - eexists. split; [|apply validate_and_normalize_limit_range].
      rewrite enhance_region_detection_keeps.
      + apply dict_get_set_eq.
      + simpl. intros H. repeat destruct H as [H|H]; try discriminate H. done.
    - unfold get_improved_fallback_analysis.
      destruct (extract_limit_directly query_text) as [n|] eqn:H; simpl.
      + exists n. split; [done|]. by apply extract_limit_directly_range in H.
      + exists 30. split; [done|lia]. }
  exists n. split; [done|]. split; [done|].
  rewrite enhance_region_detection_keeps; [done|].
  simpl. intros H. repeat destruct H as [H|H]; try discriminate H. done.
Qed.

(** X6.  When [detect_region_from_query] finds a region in the query,
    [enhance_region_detection] turns the analysis into a region request: it
    records the region, sets [country] and [country_type] to [None] whatever
    they were, and leaves every other key but [region_name] and [intent] as
    it was; the hybrid cycle then forces no country into the model's
    filters. *)
Theorem region_request_clears_country :
  forall (analysis : dict) (query_text region : string),
    detect_region_from_query query_text = Some region ->
    let enhanced := enhance_region_detection analysis query_text in
    dict_get "type" enhanced = Some (JStr "region_request")
    /\ dict_get "region" enhanced = Some (JStr region)
    /\ dict_get "country" enhanced = Some JNull
    /\ dict_get "country_type" enhanced = Some JNull
    /\ (forall llm_filters, force_country_filter enhanced llm_filters = Ok llm_filters)
    /\ (forall k, ~ In k ["type"; "region"; "region_name"; "country"; "country_type"; "intent"] ->
                  dict_get k enhanced = dict_get k analysis).
Proof.
  intros analysis query_text region Hregion enhanced.
  assert (dict_get "country" enhanced = Some JNull) as Hcountry.
  { unfold enhanced, enhance_region_detection. rewrite Hregion.
    unfold dict_update. cbn [fold_left fst snd].
    rewrite !dict_get_set_ne by discriminate. apply dict_get_set_eq. }
  split.
  { unfold enhanced, enhance_region_detection. rewrite Hregion.
    unfold dict_update. cbn [fold_left fst snd].
    rewrite !dict_get_set_ne by discriminate. apply dict_get_set_eq. }
  split.
  { unfold enhanced, enhance_region_detection. rewrite Hregion.
    unfold dict_update. cbn [fold_left fst snd].
    rewrite !dict_get_set_ne by discriminate. apply dict_get_set_eq. }
  split; [done|]. split.
  { unfold enhanced, enhance_region_detection. rewrite Hregion.
    unfold dict_update. cbn [fold_left fst snd].
    rewrite !dict_get_set_ne by discriminate. apply dict_get_set_eq. }
  split.
  { intros llm_filters. unfold force_country_filter, dict_get_none, dict_get_default.
    by rewrite Hcountry. }
  intros k Hk. by apply enhance_region_detection_keeps.
Qed.

Lemma region_request_clears_country_witness :
  detect_region_from_query "rock latino de Chile" = Some "latam"
  /\ country (detect_country_intent "rock latino de Chile") = JStr "Chile"
  /\ dict_get "country" (enhance_region_detection [("country", JStr "Chile")]
                           "rock latino de Chile") = Some JNull.
Proof.
  split; [reflexivity|]. split; [reflexivity|].
  apply (region_request_clears_country [("country", JStr "Chile")] "rock latino de Chile"
           "latam").
  reflexivity.
Defined.

(** ** [filter_utils.py] and [services.py]: the filter map *)


Lemma extends_with_refl fields d : extends_with fields d d.
Proof. by split. Qed.

Lemma extends_with_trans fields d1 d2 d3 :
  extends_with fields d1 d2 -> extends_with fields d2 d3 -> extends_with fields d1 d3.
Proof.
  intros [H1 H2] [H3 H4]. split; [auto|]. intros k Hk. by rewrite H4, H2.
Qed.

Lemma dict_has_get k d : dict_has k d = true <-> exists v, dict_get k d = Some v.
Proof.
  unfold dict_has. destruct (dict_get k d); split; eauto; try done. by intros [? ?].
Qed.

Lemma set_if_absent_extends fields field value f :
  In field fields -> extends_with fields f (set_if_absent field value f).
Proof.
  intros Hin. unfold set_if_absent. destruct (dict_has field f) eqn:Hhas; [by split|].
  split.
  - intros k v Hk. rewrite dict_get_set_ne; [done|]. intros ->.
    assert (dict_has field f = true) by (apply dict_has_get; eauto). congruence.
  - intros k Hk. apply dict_get_set_ne. by intros ->.
Qed.

Lemma absent_set_extends fields field value f :
  In field fields -> dict_has field f = false ->
  extends_with fields f (dict_set field value f).
Proof.
  intros Hin Hhas. pose proof (set_if_absent_extends fields field value f Hin) as H.
  unfold set_if_absent in H. by rewrite Hhas in H.
Qed.

Lemma apply_profile_extends fields profile f :
  (forall kv, In kv profile -> In (fst kv) fields) ->
  extends_with fields f (apply_profile profile f).
Proof.
  unfold apply_profile. revert f.
  induction profile as [|kv profile IH]; intros f Hin; simpl; [apply extends_with_refl|].
  eapply extends_with_trans; [|apply IH; intros; apply Hin; by right].
  apply set_if_absent_extends, Hin. by left.
Qed.

Lemma profiles_set_acoustic_fields name profile :
  In (name, profile) emotional_acoustic_profiles ->
  forall kv, In kv profile -> In (fst kv) acoustic_fields.
Proof.
  assert (forallb (fun p => forallb (fun kv => bool_decide (In (fst kv) acoustic_fields))
                              (snd p)) emotional_acoustic_profiles = true) as Hall
    by (vm_compute; reflexivity).
  intros Hin kv Hkv. rewrite forallb_forall in Hall.
  specialize (Hall _ Hin). simpl in Hall. rewrite forallb_forall in Hall.
  specialize (Hall _ Hkv). by apply bool_decide_eq_true in Hall.
Qed.

Lemma guarded_set_extends fields field value (b : bool) f :
  In field fields ->
  extends_with fields f (if b && negb (dict_has field f) then dict_set field value f else f).
Proof.
  intros Hin. destruct b; simpl; [|apply extends_with_refl].
  pose proof (set_if_absent_extends fields field value f Hin) as H.
  unfold set_if_absent in H. by destruct (dict_has field f).
Qed.

Lemma enrich_extends text filters :
  extends_with acoustic_fields filters (enrich_filters_with_acoustics text filters).
Proof.
  unfold enrich_filters_with_acoustics.
  set (text_low := str_lower text).
  set (applied := List.find _ emotional_acoustic_profiles).
  set (f1 := match applied with Some (_, profile) => apply_profile profile filters | None => filters end).
  assert (extends_with acoustic_fields filters f1) as H1.
  { unfold f1. destruct applied as [[name profile]|] eqn:Hfind; [|apply extends_with_refl].
    apply apply_profile_extends. apply find_some in Hfind as [Hin _].
    by apply (profiles_set_acoustic_fields name). }
  set (f2 := fold_left _ tempo_ranges f1).
  assert (extends_with acoustic_fields f1 f2) as H2.
  { unfold f2. generalize tempo_ranges. intros l. generalize f1. clear.
    induction l as [|tr l IH]; intros f; simpl; [apply extends_with_refl|].
    eapply extends_with_trans; [|apply IH].
    destruct (str_contains _ _); [|apply extends_with_refl].
    apply set_if_absent_extends. simpl. tauto. }
  set (f3 := if str_contains "alta energía" text_low && negb (dict_has "EnergyRMS" f2) then _ else _).
  assert (extends_with acoustic_fields f2 f3) as H3.
  { unfold f3.
    destruct (str_contains "alta energía" text_low && negb (dict_has "EnergyRMS" f2)) eqn:Ha.
    - apply andb_true_iff in Ha as [_ Ha%negb_true_iff].
      apply absent_set_extends; [simpl; tauto | done].
    - apply (guarded_set_extends acoustic_fields "EnergyRMS"). simpl. tauto. }
  assert (extends_with acoustic_fields filters f3) as H03
    by eauto using extends_with_trans.
  destruct applied; [done|].
  destruct (contains_emotion_indicator text); [|done].
  repeat match goal with
         | |- extends_with _ _ (if ?b then _ else _) => destruct b
         end; try done;
    (eapply extends_with_trans; [exact H03|]);
    (eapply extends_with_trans; [|apply set_if_absent_extends; simpl; tauto]);
    (eapply extends_with_trans; [|apply set_if_absent_extends; simpl; tauto]);
    apply set_if_absent_extends; simpl; tauto.
Qed.

Lemma parse_genre_ext keys d d' out :
  (forall k, In k keys -> dict_get k d = dict_get k d') ->
  parse_genre keys d out = parse_genre keys d' out.
Proof.
  induction keys as [|key keys IH]; intros H; simpl; [done|].
  rewrite <- (H key) by (by left).
  rewrite IH by (intros; apply H; by right). done.
Qed.

Lemma parse_genre_none keys d out :
  (forall k, In k keys -> dict_get k d = None) -> parse_genre keys d out = out.
Proof.
  induction keys as [|key keys IH]; intros H; simpl; [done|].
  rewrite (H key) by (by left). apply IH. intros; apply H; by right.
Qed.

Lemma parse_filters_ext d d' :
  (forall k, In k parsed_keys -> dict_get k d = dict_get k d') ->
  parse_filters_from_llm (JDict d) = parse_filters_from_llm (JDict d').
Proof.
  intros H.
  assert (forall d0, (forall k, In k parsed_keys -> dict_get k d0 = None) ->
                     parse_filters_from_llm (JDict d0) = Ok []) as Hnone.
  { intros d0 H0. unfold parse_filters_from_llm. destruct d0 as [|kv d0]; [done|].
    cbn [truthy negb py_in py_item mbind result_bind]. unfold dict_has.
    rewrite (H0 "Decada") by (simpl; tauto). cbn [mbind result_bind].
    rewrite parse_genre_none by (intros; apply H0; simpl; tauto).
    by rewrite (H0 "year") by (simpl; tauto). }
  destruct d as [|kv d], d' as [|kv' d'].
  - done.
  - rewrite (Hnone (kv' :: d')); [done|]. intros k Hk. by rewrite <- H.
  - rewrite (Hnone (kv :: d)); [done|]. intros k Hk. by rewrite H.
  - unfold parse_filters_from_llm.
    cbn [truthy negb py_in py_item mbind result_bind]. unfold dict_has.
    rewrite <- (H "Decada") by (simpl; tauto).
    rewrite <- (H "year") by (simpl; tauto).
    destruct (dict_get "Decada" (kv :: d)); cbn [mbind result_bind];
      (rewrite (parse_genre_ext genre_keys (kv :: d) (kv' :: d'))
        by (intros; apply H; simpl; tauto)); done.
Qed.

(** X7.  [enrich_filters_with_acoustics] never overwrites: every entry of
    the filters it receives is in its result with the same value, and the
    only keys it can add are [TempoBPM], [EnergyRMS], [EMO_Lyrics],
    [EMO_Sound] and [EMO_Context1]. *)
Theorem enrichment_never_overwrites :
  forall (text : string) (filters : dict),
    (forall k v, dict_get k filters = Some v ->
                 dict_get k (enrich_filters_with_acoustics text filters) = Some v)
    /\ (forall k, ~ In k acoustic_fields ->
                  dict_get k (enrich_filters_with_acoustics text filters) = dict_get k filters).
Proof. intros text filters. apply enrich_extends. Qed.

(** X8.  The acoustic enrichment never reaches the catalog:
    [parse_filters_from_llm] reads the same filter map from the enriched
    filters as from the plain ones, and [search_tracks_in_mongo], which
    parses the filters it receives, returns the same result for both. *)
Theorem search_ignores_acoustic_enrichment :
  forall (E : Collaborators) (sugerencia : json) (text : string) (filters : dict)
         (limit : Z) (user_prompt : option string),
    parse_filters_from_llm (JDict (enrich_filters_with_acoustics text filters))
    = parse_filters_from_llm (JDict filters)
    /\ search_tracks_in_mongo E sugerencia
         (JDict (enrich_filters_with_acoustics text filters)) limit user_prompt
       = search_tracks_in_mongo E sugerencia (JDict filters) limit user_prompt.
Proof.
  intros E sugerencia text filters limit user_prompt.
  assert (parse_filters_from_llm (JDict (enrich_filters_with_acoustics text filters))
          = parse_filters_from_llm (JDict filters)) as Hparse.
  { apply parse_filters_ext. intros k Hk.
    apply (proj2 (enrich_extends text filters)).
    intros Hin. simpl in Hk, Hin.
    repeat destruct Hk as [<-|Hk]; try done;
      repeat destruct Hin as [Hin|Hin]; try discriminate Hin; done. }
  split; [done|]. unfold search_tracks_in_mongo.
  assert (forall d, parse_filters_from_llm (py_or (JDict d) (JDict []))
                    = parse_filters_from_llm (JDict d)) as Hor by (by intros []).
  by rewrite !Hor, Hparse.
Qed.

Lemma parsed_shape_set k v out :
  k <> "Genero" -> k <> "Decada" -> parsed_shape out -> parsed_shape (dict_set k v out).
Proof.
  intros H1 H2 [Hg Hd]. split; intros w; rewrite dict_get_set_ne by congruence; auto.
Qed.

Lemma parse_decada_shape val out : parsed_shape out -> parsed_shape (parse_decada val out).
Proof.
  intros Hs. unfold parse_decada. destruct (omap _ _) as [|r [|r' rs]]; [done| |].
  - destruct (parsed_shape_set "Año" (year_condition r) out) as [Hg Hd]; try done.
    split; intros w.
    + rewrite dict_get_set_ne by discriminate. auto.
    + rewrite dict_get_set_eq. intros [= <-]. left. eauto.
  - match goal with
    | |- parsed_shape (dict_set _ _ (dict_set ?k ?v out)) =>
        destruct (parsed_shape_set k v out) as [Hg Hd]; try done
    end.
    split; intros w.
    + rewrite dict_get_set_ne by discriminate. auto.
    + rewrite dict_get_set_eq. intros [= <-]. right. eauto.
Qed.

Lemma parse_genre_shape keys d out : parsed_shape out -> parsed_shape (parse_genre keys d out).
Proof.
  intros [Hg Hd]. induction keys as [|key keys IH]; simpl; [by split|].
  destruct (dict_get key d) as [[]|]; try done.
  - destruct (negb _); [|done]. split; intros w.
    + rewrite dict_get_set_eq. intros [= <-]. eauto.
    + rewrite dict_get_set_ne by discriminate. auto.
  - destruct (dict_has "$regex" _) eqn:Hr; [|done]. split; intros w.
    + rewrite dict_get_set_eq. intros [= <-]. eauto.
    + rewrite dict_get_set_ne by discriminate. auto.
Qed.

Lemma parse_year_shape year out out' :
  parse_year year out = Ok out' -> parsed_shape out -> parsed_shape out'.
Proof.
  unfold parse_year. intros H Hs.
  apply bind_Ok in H as ([year_int|] & _ & [= <-]); [|done].
  by apply parsed_shape_set.
Qed.

Lemma parse_filters_shape llm_filters out :
  parse_filters_from_llm llm_filters = Ok out -> parsed_shape out.
Proof.
  assert (parsed_shape []) as Hnil by (split; intros ? [=]).
  unfold parse_filters_from_llm. destruct (negb _); [by intros [= <-]|].
  intros H.
  apply bind_Ok in H as (has_decada & _ & H).
  apply bind_Ok in H as (out1 & H1 & H).
  apply bind_Ok in H as (out2 & H2 & H).
  apply bind_Ok in H as (has_year & _ & H).
  assert (parsed_shape out1) as S1.
  { destruct has_decada.
    - apply bind_Ok in H1 as (val & _ & [= <-]). by apply parse_decada_shape.
    - by injection H1 as <-. }
  assert (parsed_shape out2) as S2.
  { destruct llm_filters; try done.
    all: try (apply bind_Ok in H2 as (hit & _ & H2); destruct (existsb _ hit); [done|];
              by injection H2 as <-).
    assert (out2 = parse_genre genre_keys d out1) as -> by congruence.
    by apply parse_genre_shape. }
  destruct has_year.
  - apply bind_Ok in H as (year & _ & H). by apply (parse_year_shape _ _ _ H).
  - by injection H as <-.
Qed.

Lemma dict_has_false k d : dict_has k d = false <-> dict_get k d = None.
Proof. unfold dict_has. by destruct (dict_get k d). Qed.

Lemma parsed_key_absent llm_filters out k :
  parse_filters_from_llm llm_filters = Ok out ->
  ~ In k ["Año"; "$or"; "Decada"; "Genero"] -> dict_get k out = None.
Proof.
  intros H Hk. apply dict_has_false, not_true_is_false. intros Hhas.
  apply (parse_filters_keys _ _ _ H) in Hhas. apply Hk. simpl.
  destruct Hhas as [-> | [-> | [-> | ->]]]; tauto.
Qed.

Lemma single_decade_keys (s : string) k :
  dict_has k (parse_decada (JStr s) []) = true -> k = "Año" \/ k = "Decada".
Proof.
  unfold parse_decada.
  assert (omap decade_range [JStr s]
          = match decade_range (JStr s) with Some r => [r] | None => [] end) as -> by done.
  destruct (decade_range (JStr s)) as [r|]; [|by unfold dict_has].
  rewrite !dict_has_set.
  intros [H|[H|H]%orb_prop]%orb_prop; [apply String.eqb_eq in H; tauto| |done].
  apply String.eqb_eq in H; tauto.
Qed.

(** X9.  [search_tracks_in_mongo] parses again the filters
    [parse_filters_from_llm] has produced.  This second parse always
    succeeds and keeps the [Genero] predicate as it is; it never yields an
    [$or], and it yields a predicate on [Año] or [Decada] only when the first
    parse left a single decade string under [Decada].  So the range of a
    specific [year] and the ranges of several decades do not survive it. *)
Theorem second_parse_keeps_genre_and_one_decade :
  forall (llm_filters : json) (out : dict),
    parse_filters_from_llm llm_filters = Ok out ->
    exists out2,
      parse_filters_from_llm (JDict out) = Ok out2
      /\ dict_get "Genero" out2 = dict_get "Genero" out
      /\ dict_has "$or" out2 = false
      /\ (dict_has "Año" out2 = true \/ dict_has "Decada" out2 = true ->
            exists s, dict_get "Decada" out = Some (JStr s)).
Proof.
  intros llm_filters out H.
  destruct (parse_filters_shape _ _ H) as [Hg Hd].
  destruct out as [|kv out'] eqn:Hout.
  { exists []. by repeat split; try done; intros [[=]|[=]]. }
  rewrite <- Hout in *. clear Hout kv out'.
  set (out_a := match dict_get "Decada" out with
                | Some val => parse_decada val []
                | None => []
                end).
  assert (forall k, dict_has k out_a = true ->
            (k = "Año" \/ k = "Decada")
            /\ exists s, dict_get "Decada" out = Some (JStr s)) as Hka.
  { unfold out_a. destruct (dict_get "Decada" out) as [val|] eqn:Hval; [|intros k [=]].
    destruct (Hd val eq_refl) as [[s ->]|[d ->]]; [|intros k [=]].
    intros k Hk. split; [by apply (single_decade_keys s)|eauto]. }
  assert (parse_filters_from_llm (JDict out)
          = Ok (parse_genre ["Genero"] out out_a)) as Hparse.
  { unfold parse_filters_from_llm, out_a. destruct out as [|kv out']; [done|].
    cbn [truthy negb py_in py_item mbind result_bind]. unfold dict_has.
    rewrite (parsed_key_absent _ _ "year" H)
      by (simpl; intros Hin; repeat destruct Hin as [Hin|Hin]; try discriminate Hin; done).
    unfold genre_keys. cbn [parse_genre].
    rewrite (parsed_key_absent _ _ "genero" H)
      by (simpl; intros Hin; repeat destruct Hin as [Hin|Hin]; try discriminate Hin; done).
    rewrite (parsed_key_absent _ _ "género" H)
      by (simpl; intros Hin; repeat destruct Hin as [Hin|Hin]; try discriminate Hin; done).
    rewrite (parsed_key_absent _ _ "genre" H)
      by (simpl; intros Hin; repeat destruct Hin as [Hin|Hin]; try discriminate Hin; done).
    rewrite (parsed_key_absent _ _ "género_principal" H)
      by (simpl; intros Hin; repeat destruct Hin as [Hin|Hin]; try discriminate Hin; done).
    destruct (dict_get "Decada" (kv :: out')); cbn [mbind result_bind];
      by destruct (dict_get "Genero" (kv :: out')) as [[]|]. }
  rewrite Hparse. eexists. split; [done|]. cbn [parse_genre].
  assert (dict_get "Genero" out_a = None) as Hga.
  { apply dict_has_false, not_true_is_false. intros Hh.
    by destruct (Hka _ Hh) as [[?|?] _]. }
  assert (dict_has "$or" out_a = false) as Hoa.
  { apply not_true_is_false. intros Hh. by destruct (Hka _ Hh) as [[?|?] _]. }
  destruct (dict_get "Genero" out) as [v|] eqn:Hv.
  - destruct (Hg v eq_refl) as (d & -> & Hr). rewrite Hr.
    split; [apply dict_get_set_eq|]. split.
    + rewrite dict_has_set. by rewrite Hoa.
    + rewrite !dict_has_set. simpl. intros [Hh|Hh]; by destruct (Hka _ Hh).
  - split; [done|]. split; [done|]. intros [Hh|Hh]; by destruct (Hka _ Hh).
Qed.

Lemma second_parse_keeps_genre_and_one_decade_witness :
  exists out out2,
    parse_filters_from_llm (JDict [("year", JInt 1985); ("genre", JStr "rock")]) = Ok out
    /\ parse_filters_from_llm (JDict out) = Ok out2
    /\ dict_has "Año" out = true
    /\ dict_has "Año" out2 = false
    /\ dict_get "Genero" out2 = dict_get "Genero" out.
Proof.
  assert (parse_filters_from_llm (JDict [("year", JInt 1985); ("genre", JStr "rock")])
          = Ok [("Genero", JDict [("$regex", JStr "rock"); ("$options", JStr "i")]);
                ("Año", JDict [("$gte", JInt 1985); ("$lt", JInt 1986)])]) as Hrun
    by reflexivity.
  destruct (second_parse_keeps_genre_and_one_decade _ _ Hrun) as (out2 & H2 & Hg & _ & Hy).
  eexists. exists out2. split; [exact Hrun|]. split; [exact H2|]. split; [reflexivity|].
  split; [|exact Hg].
  destruct (dict_has "Año" out2) eqn:Hhas; [|reflexivity].
  destruct Hy as [s Hs]; [by left|]. discriminate Hs.
Defined.
(** ** [services.py]: the lists the engine returns *)

(** X10.  Every list [apply_intelligent_postprocessing] returns holds at
    most one track per deduplication key, the key being the canonical title
    or, when the title canonicalises to the empty string, the first 200
    characters of the file reference; so no two of its tracks share a
    canonical title that is not empty, while titles that canonicalise to the
    empty string may stay side by side.  The list runs from the highest to
    the lowest relative popularity and holds only tracks that pass the
    incongruity filter for the prompt.  Each of its tracks is one of the
    input tracks with its other fields untouched, its [PopularityScore]
    recomputed from the corpus maxima and a [RelativePopularityScore] set:
    the step invents no track. *)
Theorem postprocessing_keeps_one_recording_per_title :
  forall (E : Collaborators) (tracks : list Track) (user_prompt : string) (limit : Z)
         (final : list Track),
    apply_intelligent_postprocessing E tracks user_prompt limit = Ok final ->
    NoDup (map dedupe_key final)
    /\ NoDup (List.filter (fun k => negb (String.eqb k "")) (map title_key final))
    /\ best_first rel_key final
    /\ (forall u, In u final -> congruent user_prompt u = true)
    /\ (forall u, In u final ->
          exists t, In t tracks /\ same_recording t u
                    /\ PopularityScore u
                       = Some (compute_popularity E t (get_global_max_values E))
                    /\ exists r, RelativePopularityScore u = Some r).
Proof.
  intros E tracks user_prompt limit final H.
  apply postprocessing_output in H as (Hnd & Hrest).
  split; [done|]. split; [by apply title_keys_distinct | done].
Qed.

(** X11.  In every response of [hybrid_playlist_cycle_enhanced], whichever
    phase or fallback produced it, no two tracks share a deduplication key
    (the canonical title or, when it is empty, the first 200 characters of
    the file reference), hence none share a canonical title that is not
    empty; the tracks run from the highest to the lowest relative
    popularity, each passes the incongruity filter for the prompt and each
    carries both scores. *)
Theorem playlist_has_one_recording_per_title :
  forall (E : Collaborators) (user_prompt : string) (default_limit : Z)
         (llm_analysis : option dict) (response : Response),
    hybrid_playlist_cycle_enhanced E user_prompt default_limit llm_analysis = Ok response ->
    NoDup (map dedupe_key (items response))
    /\ NoDup (List.filter (fun k => negb (String.eqb k ""))
                          (map title_key (items response)))
    /\ best_first rel_key (items response)
    /\ (forall u, In u (items response) -> congruent user_prompt u = true)
    /\ (forall u, In u (items response) ->
          exists p r, PopularityScore u = Some p /\ RelativePopularityScore u = Some r).
Proof.
  intros E user_prompt default_limit llm_analysis response H.
  assert (from_postprocessing E user_prompt response) as (tracks & limit & Hpost).
  { unfold hybrid_playlist_cycle_enhanced, try_except in H.
    destruct (hybrid_cycle_body _ _ _ _) as [r|e] eqn:Hb.
    - injection H as <-. by apply hybrid_cycle_body_from_postprocessing in Hb.
    - by apply emergency_fallback_from_postprocessing in H. }
  apply postprocessing_output in Hpost as (Hnd & Hbest & Hcong & Hfrom).
  split; [done|]. split; [by apply title_keys_distinct|]. split; [done|]. split; [done|].
  intros u Hu. destruct (Hfrom u Hu) as (t & _ & _ & Hp & r & Hr). eauto.
Qed.

Lemma filter_filter_same {A : Type} (p : A -> bool) (l : list A) :
  List.filter p (List.filter p l) = List.filter p l.
Proof.
  induction l as [|x l IH]; simpl; [done|].
  destruct (p x) eqn:Hp; simpl; [by rewrite Hp, IH | done].
Qed.

(** X12.  [filter_gross_incongruities] of [services.py] returns a
    subsequence of the tracks.  A track whose genre text is empty, or whose
    title is missing, empty or starts with a space, passes whatever the
    query, since the empty string occurs in every query.  The filter changes
    nothing in its own output and does not depend on the letter case of the
    query: two queries with the same lower-case form, the query and its own
    lower-case form among them, select the same tracks. *)
Theorem incongruity_filter_passes_unlabelled :
  forall (tracks : list Track) (query_text : string),
    let out := filter_gross_incongruities tracks query_text in
    sublist out tracks
    /\ (forall t, In t tracks ->
          genre_text (Genero t) = "" \/ first_field (str_lower (str_or_empty (Titulo t))) = "" ->
          In t out)
    /\ (forall t, In t tracks -> Genero t = GNone \/ Titulo t = None -> In t out)
    /\ filter_gross_incongruities out query_text = out
    /\ (forall other_case,
          str_lower other_case = str_lower query_text ->
          filter_gross_incongruities tracks other_case = out)
    /\ filter_gross_incongruities tracks (str_lower query_text) = out.
Proof.
  intros tracks query_text out. subst out. unfold filter_gross_incongruities.
  assert (forall q, str_contains "" q = true) as Hempty by (by intros []).
  assert (forall t, In t tracks ->
            genre_text (Genero t) = "" \/ first_field (str_lower (str_or_empty (Titulo t))) = "" ->
            In t (List.filter (congruent query_text) tracks)) as Hpass.
  { intros t Hin Hblank. apply filter_In. split; [done|]. unfold congruent.
    destruct Hblank as [-> | ->]; rewrite Hempty; [done | apply orb_true_r]. }
  split; [apply List_filter_sublist|]. split; [done|]. split.
  { intros t Hin [Hg|Ht]; apply Hpass; try done; [left; by rewrite Hg | right; by rewrite Ht]. }
  split; [apply filter_filter_same|].
  assert (forall other_case,
            str_lower other_case = str_lower query_text ->
            List.filter (congruent other_case) tracks
            = List.filter (congruent query_text) tracks) as Hcase.
  { intros other_case Hlow. apply filter_ext. intros t. unfold congruent. by rewrite Hlow. }
  split; [exact Hcase|]. apply Hcase, str_lower_idem.
Qed.

Lemma postprocessing_keeps_one_recording_per_title_witness :
  exists final,
    apply_intelligent_postprocessing (offline_engine []) [fixture_plain; fixture_remastered]
      "song" 40 = Ok final
    /\ map doc_id final = [Some 1%N]
    /\ NoDup (map dedupe_key final).
Proof.
  eexists. split; [vm_compute; reflexivity|]. split; [reflexivity|].
  eapply (postprocessing_keeps_one_recording_per_title (offline_engine [])
           [fixture_plain; fixture_remastered] "song" 40).
  vm_compute. reflexivity.
Defined.

Lemma playlist_has_one_recording_per_title_witness :
  exists response,
    hybrid_playlist_cycle_enhanced (offline_engine [sample_track; fixture_plain])
      "hello song" 40 None = Ok response
    /\ length (items response) = 2%nat
    /\ NoDup (map dedupe_key (items response)).
Proof.
  eexists. split; [vm_compute; reflexivity|]. split; [reflexivity|].
  apply (playlist_has_one_recording_per_title (offline_engine [sample_track; fixture_plain])
           "hello song" 40 None).
  vm_compute. reflexivity.
Defined.

(** two titles that canonicalise to the empty string are filed under their
    file references, and both stay *)
Example empty_canonical_titles_stay :
  map title_key untitled_pair = [""; ""]
  /\ map dedupe_key untitled_pair = ["/u2.flac"; "/beatles.flac"]
  /\ (map doc_id <$> apply_intelligent_postprocessing (offline_engine []) untitled_pair
                       "with" 40)
     = Ok [Some 1; Some 2]%N.
Proof. vm_compute. repeat split. Qed.

